(** * quick-env: a shallow embedding of [bin/quickenv.js]

    The development follows the source file from top to bottom:
    the string helpers ([isValidKey], [hasNewline], [shellQuote], the
    ANSI colour table [c]), the config store ([readConfig], [writeConfig]),
    the commands [cmdList] and [cmdUse], and the interactive selector
    [selectMenuInteractively] with its nested functions [render],
    [cleanup], [onKeypress] and [stop].

    JavaScript strings are modelled as byte strings (the UTF-8 encoding
    that reaches the terminal; a string with a lone surrogate has none
    and is outside the model). JavaScript itself counts and orders a
    string by UTF-16 code units, so [s.length] and the order of
    [Array.prototype.sort] are computed from the bytes by [Str.js_length]
    and [Str.js_leb]. JavaScript numbers that the code uses as
    indices are integers or [NaN]; objects used as ordered dictionaries
    are association lists in enumeration order; the file system is a
    finite map from paths to file contents. *)

From Stdlib Require Import ZArith Ascii String List Lia Bool.
From Stdlib Require Import Sorted Permutation.
From stdpp Require Import base strings list gmap pretty.

Local Open Scope Z_scope.

(* ===================================================================== *)
(** ** Characters and strings *)
(* ===================================================================== *)

Module Str.

Definition LF : ascii := "010"%char.
Definition CR : ascii := "013"%char.
Definition ESC : ascii := "027"%char.
Definition QUOTE : ascii := "039"%char.
Definition BACKSLASH : ascii := "092"%char.

Definition lf : string := String LF "".
Definition esc : string := String ESC "".

(** [Array.prototype.join]. *)
Fixpoint join (sep : string) (l : list string) : string :=
  match l with
  | [] => ""
  | [x] => x
  | x :: rest => x +:+ sep +:+ join sep rest
  end.

(** Number of occurrences of a byte. *)
Fixpoint count (a : ascii) (s : string) : nat :=
  match s with
  | EmptyString => 0%nat
  | String b s' => ((if Ascii.eqb a b then 1 else 0) + count a s')%nat
  end.

(** Number of line feeds of a text: the lines it ends on a terminal. *)
Definition lines_of (s : string) : nat := count LF s.

Fixpoint existsb (p : ascii -> bool) (s : string) : bool :=
  match s with
  | EmptyString => false
  | String b s' => p b || existsb p s'
  end.

Fixpoint forallb (p : ascii -> bool) (s : string) : bool :=
  match s with
  | EmptyString => true
  | String b s' => p b && forallb p s'
  end.

(** [!raw.trim()]: [trim] leaves the empty string exactly when the text
    is made of white space and line terminators only. In UTF-8 these are
    the bytes 9-13 and 32, and the sequences of U+00A0, U+1680,
    U+2000-U+200A, U+2028, U+2029, U+202F, U+205F, U+3000 and U+FEFF. *)
Fixpoint is_blank (s : string) : bool :=
  match s with
  | EmptyString => true
  | String a r =>
      let n := nat_of_ascii a in
      if ((9 <=? n) && (n <=? 13))%nat || (n =? 32)%nat then is_blank r
      else
        match r with
        | String b r1 =>
            let m := nat_of_ascii b in
            if ((n =? 194) && (m =? 160))%nat then is_blank r1
            else
              match r1 with
              | String d r2 =>
                  let k := nat_of_ascii d in
                  if ((n =? 225) && (m =? 154) && (k =? 128))%nat
                     || ((n =? 226) && (m =? 128)
                         && (((128 <=? k) && (k <=? 138))
                             || (k =? 168) || (k =? 169) || (k =? 175)))%nat
                     || ((n =? 226) && (m =? 129) && (k =? 159))%nat
                     || ((n =? 227) && (m =? 128) && (k =? 128))%nat
                     || ((n =? 239) && (m =? 187) && (k =? 191))%nat
                  then is_blank r2
                  else false
              | EmptyString => false
              end
        | EmptyString => false
        end
  end.

(** [" ".repeat(n)]. *)
Fixpoint spaces (n : nat) : string :=
  match n with
  | O => ""
  | S n' => String " "%char (spaces n')
  end.

(** UTF-16 code units a byte of a UTF-8 text stands for: a continuation
    byte (128-191) belongs to the character its lead byte opened; the lead
    byte of a four-byte sequence (240 and above) opens a character outside
    the basic plane, a surrogate pair; every other byte opens a character
    of one unit. *)
Definition units_of (a : ascii) : nat :=
  let n := nat_of_ascii a in
  if (n <? 128)%nat then 1%nat
  else if (n <? 192)%nat then 0%nat
  else if (n <? 240)%nat then 1%nat
  else 2%nat.

(** [s.length]: the number of UTF-16 code units. *)
Fixpoint js_length (s : string) : nat :=
  match s with
  | EmptyString => 0%nat
  | String a s' => (units_of a + js_length s')%nat
  end.

(** Rank of a byte in the order of UTF-16 code units. The order of the
    bytes of UTF-8 is the order of the code points; the code units differ
    from it in one place: a character outside the basic plane starts with
    a surrogate (D800-DBFF) and so comes before U+E000-U+FFFF, whose
    UTF-8 lead bytes are 238 and 239. These two bytes are ranked after
    the lead bytes of the four-byte sequences. *)
Definition js_rank (a : ascii) : nat :=
  let n := nat_of_ascii a in
  if ((n =? 238) || (n =? 239))%nat then (n + 256)%nat else n.

(** The comparison [Array.prototype.sort] makes without a comparator:
    strings are ordered unit by unit, a proper prefix first. *)
Fixpoint js_compare (s t : string) : comparison :=
  match s, t with
  | EmptyString, EmptyString => Eq
  | EmptyString, String _ _ => Lt
  | String _ _, EmptyString => Gt
  | String a s', String b t' =>
      match Nat.compare (js_rank a) (js_rank b) with
      | Eq => js_compare s' t'
      | o => o
      end
  end.

Definition js_leb (s t : string) : bool :=
  match js_compare s t with
  | Gt => false
  | _ => true
  end.

End Str.

(* ===================================================================== *)
(** ** Validation and quoting (lines 54-72) *)
(* ===================================================================== *)

(** The character class [[A-Z0-9_]]. *)
Definition is_key_char (a : ascii) : bool :=
  let n := Z.of_nat (nat_of_ascii a) in
  ((65 <=? n) && (n <=? 90)) || ((48 <=? n) && (n <=? 57)) || (n =? 95).

(** [/^[A-Z0-9_]+$/.test(key)]: one or more characters of the class, and
    nothing else (without the [m] flag [$] only matches the end). *)
Definition isValidKey (key : string) : bool :=
  match key with
  | EmptyString => false
  | _ => Str.forallb is_key_char key
  end.

(** [/\r|\n/.test(String(val))]. *)
Definition hasNewline (val : string) : bool :=
  Str.existsb (fun a => Ascii.eqb a Str.CR || Ascii.eqb a Str.LF) val.

(** [s.replace(/'/g, "'\\''")]: every single quote becomes the four
    characters quote, backslash, quote, quote. *)
Fixpoint escape_quotes (s : string) : string :=
  match s with
  | EmptyString => ""
  | String a s' =>
      if Ascii.eqb a Str.QUOTE
      then String Str.QUOTE (String Str.BACKSLASH
             (String Str.QUOTE (String Str.QUOTE (escape_quotes s'))))
      else String a (escape_quotes s')
  end.

Definition shellQuote (value : string) : string :=
  "'" +:+ escape_quotes value +:+ "'".

Definition padRight (str : string) (len : nat) : string :=
  if (len <=? Str.js_length str)%nat then str
  else str +:+ Str.spaces (len - Str.js_length str).

(* ===================================================================== *)
(** ** ANSI colour helpers (lines 74-92) *)
(* ===================================================================== *)

Definition _color (open close : string) : string -> string :=
  fun s => open +:+ s +:+ close.

Module c.
Definition bold := _color (Str.esc +:+ "[1m") (Str.esc +:+ "[22m").
Definition dim := _color (Str.esc +:+ "[2m") (Str.esc +:+ "[22m").
Definition red := _color (Str.esc +:+ "[31m") (Str.esc +:+ "[39m").
Definition green := _color (Str.esc +:+ "[32m") (Str.esc +:+ "[39m").
Definition yellow := _color (Str.esc +:+ "[33m") (Str.esc +:+ "[39m").
Definition blue := _color (Str.esc +:+ "[34m") (Str.esc +:+ "[39m").
Definition magenta := _color (Str.esc +:+ "[35m") (Str.esc +:+ "[39m").
Definition cyan := _color (Str.esc +:+ "[36m") (Str.esc +:+ "[39m").
Definition gray := _color (Str.esc +:+ "[90m") (Str.esc +:+ "[39m").
End c.

(* ===================================================================== *)
(** ** JavaScript values the selector handles *)
(* ===================================================================== *)

(** A number used as an index: an integer, or [NaN] (which [x % 0]
    produces). *)
Inductive jsnum :=
| Num (z : Z)
| NaN.

(** What the selector's promise resolves with: [items[idx]] (a string, or
    [undefined] outside the array) or [null]. *)
Inductive jsval :=
| VUndefined
| VNull
| VStr (s : string).

(** JavaScript truthiness, as tested by [if (!picked)]. *)
Definition truthy (v : jsval) : bool :=
  match v with
  | VStr s => negb (String.eqb s "")
  | _ => false
  end.

Definition num_add (x : jsnum) (k : Z) : jsnum :=
  match x with
  | Num z => Num (z + k)
  | NaN => NaN
  end.

(** The [%] operator: the remainder takes the sign of the dividend, and a
    zero divisor gives [NaN]. *)
Definition num_rem (x : jsnum) (n : Z) : jsnum :=
  match x with
  | Num z => if n =? 0 then NaN else Num (Z.rem z n)
  | NaN => NaN
  end.

(** [i === idx] for an integer loop counter [i]. *)
Definition num_is (x : jsnum) (i : nat) : bool :=
  match x with
  | Num z => z =? Z.of_nat i
  | NaN => false
  end.

(** [items[idx]]. *)
Definition item_at (items : list string) (x : jsnum) : jsval :=
  match x with
  | Num z =>
      if z <? 0 then VUndefined
      else match items !! Z.to_nat z with
           | Some s => VStr s
           | None => VUndefined
           end
  | NaN => VUndefined
  end.

(** The outcome of one menu session in the words of the data model. *)
Inductive SelectionResult :=
| Picked (item : string)
| Cancelled.

Definition result_value (r : SelectionResult) : jsval :=
  match r with
  | Picked item => VStr item
  | Cancelled => VNull
  end.

(* ===================================================================== *)
(** ** Output streams (lines 250-259) *)
(* ===================================================================== *)

(** One write to a standard stream. *)
Inductive event :=
| Stdout (s : string)
| Stderr (s : string).

Definition console_log (s : string) : event := Stdout (s +:+ Str.lf).
Definition console_error (s : string) : event := Stderr (s +:+ Str.lf).

(** The sequence written once per erased line: cursor up one line, then
    clear the whole line. *)
Definition CLEAR_SEQ : string := Str.esc +:+ "[1A" +:+ Str.esc +:+ "[2K".

(** The key object that [readline] passes to a keypress listener. *)
Record Key := mkKey { name : string; ctrl : bool }.

(** Where the selector runs: whether standard input is a terminal, and
    whether the [try] block that opens [/dev/tty] completes. *)
Record Env := mkEnv { stdin_isTTY : bool; dev_tty_opens : bool }.

(* ===================================================================== *)
(** ** The interactive selector (lines 342-420) *)
(* ===================================================================== *)

(** The variables the closures of one call share, the state of the input
    stream, and everything written so far. *)
Record Menu := mkMenu {
  items : list string;
  hdr : string;
  idx : jsnum;
  renderedLines : nat;
  needClose : bool;
  tty_open_calls : nat;   (* calls of fs.openSync("/dev/tty") *)
  own_handle : bool;      (* a stream opened here and not yet destroyed *)
  isRaw : bool;           (* input.setRawMode *)
  listening : bool;       (* onKeypress registered on the input *)
  flowing : bool;         (* input.resume / input.pause *)
  resolved : option jsval;
  trace : list event
}.

Definition hint : string :=
  c.dim "↑/↓ to move, Enter to confirm, Esc to cancel".

Definition writeStderr (str : string) (m : Menu) : Menu :=
  mkMenu (items m) (hdr m) (idx m) (renderedLines m) (needClose m)
    (tty_open_calls m) (own_handle m) (isRaw m) (listening m) (flowing m)
    (resolved m) (trace m ++ [Stderr str]).

Fixpoint clearLines (count : nat) (m : Menu) : Menu :=
  match count with
  | O => m
  | S count' => clearLines count' (writeStderr CLEAR_SEQ m)
  end.

Definition set_renderedLines (n : nat) (m : Menu) : Menu :=
  mkMenu (items m) (hdr m) (idx m) n (needClose m)
    (tty_open_calls m) (own_handle m) (isRaw m) (listening m) (flowing m)
    (resolved m) (trace m).

Definition set_idx (x : jsnum) (m : Menu) : Menu :=
  mkMenu (items m) (hdr m) x (renderedLines m) (needClose m)
    (tty_open_calls m) (own_handle m) (isRaw m) (listening m) (flowing m)
    (resolved m) (trace m).

(** The promise keeps the first value it is resolved with. *)
Definition resolve (v : jsval) (m : Menu) : Menu :=
  mkMenu (items m) (hdr m) (idx m) (renderedLines m) (needClose m)
    (tty_open_calls m) (own_handle m) (isRaw m) (listening m) (flowing m)
    (match resolved m with Some old => Some old | None => Some v end)
    (trace m).

Definition item_line (x : jsnum) (i : nat) (label : string) : string :=
  let sel := num_is x i in
  let pointer := if sel then c.green "›" else " " in
  let label' := if sel then c.green (c.bold label) else label in
  " " +:+ pointer +:+ " " +:+ label'.

(** The array [lines] that a render pass builds. *)
Definition block_lines (m : Menu) : list string :=
  hdr m :: imap (item_line (idx m)) (items m) ++ [hint].

(** The text a render pass writes. *)
Definition block_text (m : Menu) : string :=
  Str.join Str.lf (block_lines m) +:+ Str.lf.

Definition render (m : Menu) : Menu :=
  let lines := block_lines m in
  let m1 := if (0 <? renderedLines m)%nat
            then clearLines (renderedLines m) m else m in
  let m2 := writeStderr (Str.join Str.lf lines +:+ Str.lf) m1 in
  set_renderedLines (length lines) m2.

Definition cleanup (m : Menu) : Menu :=
  if (0 <? renderedLines m)%nat
  then set_renderedLines 0 (clearLines (renderedLines m) m)
  else m.

(** [stop]: remove the listener, leave raw mode, pause the input, and
    destroy the stream when it was opened here. *)
Definition stop (m : Menu) : Menu :=
  mkMenu (items m) (hdr m) (idx m) (renderedLines m) (needClose m)
    (tty_open_calls m)
    (if needClose m then false else own_handle m)
    false false false
    (resolved m) (trace m).

Definition onKeypress (m : Menu) (key : option Key) : Menu :=
  match key with
  | None => m
  | Some k =>
      let n := Z.of_nat (length (items m)) in
      if String.eqb (name k) "up" then
        render (set_idx (num_rem (num_add (num_add (idx m) (-1)) n) n) m)
      else if String.eqb (name k) "down" then
        render (set_idx (num_rem (num_add (idx m) 1) n) m)
      else if String.eqb (name k) "return" || String.eqb (name k) "enter" then
        let m' := stop (cleanup m) in
        resolve (item_at (items m') (idx m')) m'
      else if String.eqb (name k) "escape"
              || (String.eqb (name k) "c" && ctrl k) then
        resolve VNull (stop (cleanup m))
      else m
  end.

(** The event emitter only calls listeners that are registered. *)
Definition keypress (m : Menu) (key : option Key) : Menu :=
  if listening m then onKeypress m key else m.

(** The keys typed during a session, in order. *)
Definition run (m : Menu) (keys : list (option Key)) : Menu :=
  fold_left keypress keys m.

(** The body of the promise, up to the first [render]. *)
Definition selectMenuInteractively
    (env : Env) (items : list string) (title : string) (initialIndex : Z)
    : Menu :=
  let opened := negb (stdin_isTTY env) in
  if opened && negb (dev_tty_opens env) then
    (* catch: report on the error stream and resolve with null; [hdr],
       [idx] and [renderedLines] are not declared yet, nothing is
       listening, and the one call of openSync has failed *)
    mkMenu items "" (Num 0) 0 false 1 false false false false (Some VNull)
      [console_error (c.red "Non-interactive environment. Use command form instead.")]
  else
    let hdr := c.cyan (c.bold title) in
    let idx := Z.max 0 (Z.min initialIndex
                 (Z.max (Z.of_nat (length items) - 1) 0)) in
    (* emitKeypressEvents; setRawMode(true); resume; on("keypress") *)
    render
      (mkMenu items hdr (Num idx) 0 opened (if opened then 1 else 0)%nat
         opened true true true None []).

Definition UP : option Key := Some (mkKey "up" false).
Definition DOWN : option Key := Some (mkKey "down" false).
Definition ENTER : option Key := Some (mkKey "enter" false).
Definition RETURN : option Key := Some (mkKey "return" false).
Definition ESCAPE : option Key := Some (mkKey "escape" false).
Definition CTRL_C : option Key := Some (mkKey "c" true).

(** The instrumented output sink of the redraw invariant: it counts the
    erase sequences that arrive on the error stream, and on any other
    text it closes a render pass with the number of lines erased before
    it and the text written. *)
Record Pass := mkPass { erased : nat; written : string }.

Definition sink_step (st : nat * list Pass) (e : event) : nat * list Pass :=
  match e with
  | Stderr s =>
      if String.eqb s CLEAR_SEQ then (S (fst st), snd st)
      else (0%nat, snd st ++ [mkPass (fst st) s])
  | Stdout _ => st
  end.

Definition sink (tr : list event) : nat * list Pass :=
  fold_left sink_step tr (0%nat, []).

Definition render_passes (tr : list event) : list Pass := snd (sink tr).

Definition is_stdout (e : event) : bool :=
  match e with
  | Stdout _ => true
  | Stderr _ => false
  end.


(* ===================================================================== *)
(** ** The process: file system, streams, exit *)
(* ===================================================================== *)

(** One call into the file system. *)
Inductive fsop :=
| Mkdir (dir : string)
| WriteFile (path data : string)
| Rename (src dst : string).

Record World := mkWorld {
  files : gmap string string;   (* path to content *)
  fslog : list fsop;            (* the calls made, in order *)
  out : list event              (* the writes made, in order *)
}.

(** How a piece of the program ends: it returns, it calls
    [process.exit], or an exception escapes. *)
Inductive res (A : Type) :=
| Ret (a : A)
| Exit (code : Z)
| Throw.
Arguments Ret {A} a.
Arguments Exit {A} code.
Arguments Throw {A}.

Definition Proc (A : Type) : Type := World -> res A * World.

Definition ret {A} (a : A) : Proc A := fun w => (Ret a, w).

Definition bind {A B} (p : Proc A) (k : A -> Proc B) : Proc B :=
  fun w =>
    match p w with
    | (Ret a, w') => k a w'
    | (Exit code, w') => (Exit code, w')
    | (Throw, w') => (Throw, w')
    end.

Notation "x <- p ;; k" := (bind p (fun x => k))
  (at level 100, p at next level, right associativity).
Notation "p ;; k" := (bind p (fun _ => k))
  (at level 100, right associativity).

Definition emit (e : event) : Proc unit :=
  fun w => (Ret tt, mkWorld (files w) (fslog w) (out w ++ [e])).

Definition emit_all (es : list event) : Proc unit :=
  fun w => (Ret tt, mkWorld (files w) (fslog w) (out w ++ es)).

Definition process_exit {A} (code : Z) : Proc A := fun w => (Exit code, w).

Definition mkdirSync (dir : string) : Proc unit :=
  fun w => (Ret tt, mkWorld (files w) (fslog w ++ [Mkdir dir]) (out w)).

Definition writeFileSync (path data : string) : Proc unit :=
  fun w => (Ret tt, mkWorld (<[path := data]> (files w))
                      (fslog w ++ [WriteFile path data]) (out w)).

Definition renameSync (src dst : string) : Proc unit :=
  fun w =>
    match files w !! src with
    | Some data =>
        (Ret tt, mkWorld (<[dst := data]> (delete src (files w)))
                   (fslog w ++ [Rename src dst]) (out w))
    | None => (Throw, mkWorld (files w) (fslog w ++ [Rename src dst]) (out w))
    end.

Definition stdout_of (es : list event) : list event :=
  filter (fun e => is_stdout e = true) es.

(* ===================================================================== *)
(** ** The config store (lines 10-52) *)
(* ===================================================================== *)

(** A value as [JSON.parse] returns it. *)
#[local] Unset Elimination Schemes.
Inductive json :=
| JNull
| JBool (b : bool)
| JNum (literal : string)
| JStr (s : string)
| JArr (elems : list json)
| JObj (props : list (string * json)).
#[local] Set Elimination Schemes.

(** [v && typeof v === "object"]: arrays and objects, and not [null]. *)
Definition is_object (v : json) : bool :=
  match v with
  | JArr _ | JObj _ => true
  | _ => false
  end.

Fixpoint assoc {V} (k : string) (l : list (string * V)) : option V :=
  match l with
  | [] => None
  | (k', v) :: rest => if String.eqb k' k then Some v else assoc k rest
  end.

(** [v[k]] for a key that is not an array index. *)
Definition prop (v : json) (k : string) : option json :=
  match v with
  | JObj props => assoc k props
  | _ => None
  end.

(** What [readConfig] returns: the parsed value, and the values its
    properties [envs] and [current] have on return. *)
Record LoadedConfig := mkLoaded {
  parsed : json;
  loaded_envs : json;
  loaded_current : json
}.

(** [{ current: null, envs: {} }]. *)
Definition defaultConfig : LoadedConfig :=
  mkLoaded (JObj [("current", JNull); ("envs", JObj [])]) (JObj []) JNull.

(** The config in the shape of the data model: the current preset name
    (or [null]) and the presets, each a list of key/value pairs, in the
    order in which the object enumerates them. *)
Record Config := mkConfig {
  current : option string;
  envs : list (string * list (string * string))
}.

(** The members every object inherits from [Object.prototype]: for these
    names [o[name]] finds something, a function or the prototype itself,
    also when [o] has no such property of its own. What it finds has no
    enumerable property of its own. *)
Definition OBJECT_PROTOTYPE_MEMBERS : list string :=
  ["constructor"; "__defineGetter__"; "__defineSetter__"; "hasOwnProperty";
   "__lookupGetter__"; "__lookupSetter__"; "isPrototypeOf";
   "propertyIsEnumerable"; "toString"; "valueOf"; "__proto__";
   "toLocaleString"].

Definition has_own {V} (k : string) (o : list (string * V)) : bool :=
  match assoc k o with
  | Some _ => true
  | None => false
  end.

(** [o[name]] finds an inherited member and no property of [o]. *)
Definition inherited {V} (name : string) (o : list (string * V)) : bool :=
  negb (has_own name o)
  && existsb (String.eqb name) OBJECT_PROTOTYPE_MEMBERS.

Section Store.

(** The directory [~/.quick-env]; the platform's [JSON.parse] ([None] when
    it throws) and [JSON.stringify(cfg, null, 2)]; [Date.now()] and
    [process.pid]. *)
Variable CONFIG_DIR : string.
Variable JSON_parse : string -> option json.
Variable JSON_stringify : Config -> string.
Variables (now pid : N).

Definition CONFIG_PATH : string := CONFIG_DIR +:+ "/config.json".

Definition ensureDir : Proc unit := mkdirSync CONFIG_DIR.

(** The [catch] branch of [readConfig]. *)
Definition report_corrupted {A} : Proc A :=
  emit (console_error
          ("Config file is corrupted or unreadable: " +:+ CONFIG_PATH)) ;;
  emit (console_error "Please back up and fix the JSON, then retry.") ;;
  process_exit 1.

Definition readConfig : Proc LoadedConfig :=
  ensureDir ;;
  fun w =>
    match files w !! CONFIG_PATH with
    | None => ret defaultConfig w
    | Some raw =>
        if Str.is_blank raw then ret defaultConfig w
        else
          match JSON_parse raw with
          | None => report_corrupted w
          | Some cfg =>
              if negb (is_object cfg) then report_corrupted w
              else
                let envs' :=
                  match prop cfg "envs" with
                  | Some e => if is_object e then e else JObj []
                  | None => JObj []
                  end in
                let current' :=
                  match cfg with
                  | JObj props =>
                      match assoc "current" props with
                      | Some cur => cur
                      | None => JNull
                      end
                  | _ => JNull
                  end in
                ret (mkLoaded cfg envs' current') w
          end
    end.

Definition tmp_path : string :=
  CONFIG_DIR +:+ "/config." +:+ pretty now +:+ "." +:+ pretty pid +:+ ".tmp".

Definition writeConfig (cfg : Config) : Proc unit :=
  ensureDir ;;
  let tmp := tmp_path in
  let data := JSON_stringify cfg +:+ Str.lf in
  writeFileSync tmp data ;;
  renameSync tmp CONFIG_PATH.

(* ------------------------------------------------------------------- *)
(** *** [cmdUse] (lines 209-248) *)
(* ------------------------------------------------------------------- *)

(** [Array.prototype.sort] on strings, by insertion. *)
Fixpoint insert_sorted (x : string) (l : list string) : list string :=
  match l with
  | [] => [x]
  | y :: rest => if Str.js_leb x y then x :: l else y :: insert_sorted x rest
  end.

Definition sort_strings (l : list string) : list string :=
  foldr insert_sorted [] l.

(** [Object.keys(o)]. *)
Definition keys_of {V} (o : list (string * V)) : list string := map fst o.

(** What [await selectPresetInteractively(names, cfg.current)] yields:
    the writes of the session and the value it resolves with. *)
Record Awaited := mkAwaited {
  session_writes : list event;
  session_value : jsval
}.

(** The argument [name]: [None] when [argv[1]] is missing. *)
Definition name_given (name : option string) : option string :=
  match name with
  | Some n => if String.eqb n "" then None else Some n
  | None => None
  end.

(** Lines 211-223: the name that reaches line 224. *)
Definition choose_name (cfg : Config) (name : option string) (sel : Awaited)
    : Proc string :=
  match name_given name with
  | Some n => ret n
  | None =>
      let names := sort_strings (keys_of (envs cfg)) in
      match names with
      | [] =>
          emit (console_error (c.red
            "No presets available. Run `quickenv set` to create variables first.")) ;;
          process_exit 1
      | _ =>
          emit_all (session_writes sel) ;;
          match session_value sel with
          | VStr picked =>
              if String.eqb picked "" then
                emit (console_error (c.yellow "Cancelled.")) ;; process_exit 1
              else ret picked
          | _ => emit (console_error (c.yellow "Cancelled.")) ;; process_exit 1
          end
      end
  end.

(** The loop of lines 230-240: it stops at the first pair that fails. *)
Fixpoint validate (entries : list (string * string)) : Proc unit :=
  match entries with
  | [] => ret tt
  | (k, v) :: rest =>
      if negb (isValidKey k) then
        emit (console_error
                ("Invalid key name: " +:+ k +:+ ". Should match [A-Z0-9_]+")) ;;
        process_exit 1
      else if hasNewline v then
        emit (console_error ("Value contains newline; cannot export: " +:+ k)) ;;
        emit (console_error
                "Please make it a single line via `quickenv set`.") ;;
        process_exit 1
      else validate rest
  end.

Definition export_line (kv : string * string) : string :=
  "export " +:+ fst kv +:+ "=" +:+ shellQuote (snd kv) +:+ ";".

(** The text of lines 244-247. *)
Definition export_text (vars : list (string * string)) : string :=
  let out := Str.join Str.lf (map export_line vars) in
  out +:+ (if String.eqb out "" then "" else Str.lf).

(** [cfg.envs[name]] as lines 224-229 read it: the preset of that name;
    or a member inherited from [Object.prototype], which is truthy and
    has no entries ([Object.entries] lists own enumerable properties);
    or nothing. *)
Definition lookup_preset (cfg : Config) (name : string)
    : option (list (string * string)) :=
  match assoc name (envs cfg) with
  | Some vars => Some vars
  | None => if inherited name (envs cfg) then Some [] else None
  end.

(** Lines 224-247, for the name settled before. *)
Definition use_preset (cfg : Config) (name : string) : Proc unit :=
  match lookup_preset cfg name with
  | None =>
      emit (console_error ("Preset not found: " +:+ name)) ;;
      emit (console_error "Use `quickenv list` to view existing presets.") ;;
      process_exit 1
  | Some vars =>
      validate vars ;;
      writeConfig (mkConfig (Some name) (envs cfg)) ;;
      emit (Stdout (export_text vars))
  end.

(** [cmdUse(name)] after [const cfg = readConfig()]. *)
Definition cmdUse (cfg : Config) (name : option string) (sel : Awaited)
    : Proc unit :=
  n <- choose_name cfg name sel ;;
  use_preset cfg n.

End Store.

(** All pairs of a preset pass the validation of [cmdUse]. *)
Definition all_valid (vars : list (string * string)) : bool :=
  forallb (fun kv => isValidKey (fst kv) && negb (hasNewline (snd kv))) vars.

(* ===================================================================== *)
(** ** [cmdList] (lines 159-190) *)
(* ===================================================================== *)

(** [names.indexOf(x)]. *)
Fixpoint indexOf (l : list string) (x : string) : Z :=
  match l with
  | [] => -1
  | y :: rest =>
      if String.eqb y x then 0
      else let j := indexOf rest x in if j <? 0 then -1 else j + 1
  end.

(** [printAlignedVars]. *)
Definition printAlignedVars (vars : list (string * string)) : list event :=
  let keys := keys_of vars in
  match keys with
  | [] => [console_log (c.dim "(no variables)")]
  | _ =>
      let width := foldr Nat.max 0%nat (map Str.js_length keys) in
      map (fun k =>
             let val := default "undefined" (assoc k vars) in
             let keyCol := c.cyan (c.bold (padRight k width)) in
             console_log (keyCol +:+ " " +:+ c.dim "=" +:+ " " +:+ val))
          (sort_strings keys)
  end.

(** One line of the plain list of lines 171-182. *)
Definition preset_line (cfg : Config) (n : string) : string :=
  let isCurrent := match current cfg with
                   | Some cur => String.eqb cur n
                   | None => false
                   end in
  let bullet := if isCurrent then c.green "★" else c.gray "•" in
  let label := if isCurrent then c.green (c.bold n) else n in
  let count := length (default [] (assoc n (envs cfg))) in
  let meta := if isCurrent then [pretty count; "current"] else [pretty count] in
  " " +:+ bullet +:+ " " +:+ label +:+ " "
    +:+ c.dim ("[" +:+ Str.join " · " meta +:+ "]").

Definition plain_list (cfg : Config) (names : list string) : list event :=
  console_log (c.cyan (c.bold "Presets") +:+ " "
               +:+ c.dim ("(" +:+ pretty (length names) +:+ ")"))
  :: map (fun n => console_log (preset_line cfg n)) names.

(** [cmdList] after [const cfg = readConfig()], with the keys typed
    during the menu session: the session (when there was one) and
    everything written. *)
Definition cmdList (env : Env) (cfg : Config) (keys : list (option Key))
    : option Menu * list event :=
  let names := sort_strings (keys_of (envs cfg)) in
  match names with
  | [] => (None, [console_log (c.dim "(no presets)")])
  | _ =>
      let currentIdx :=
        Z.max 0 (match current cfg with
                 | Some cur => if String.eqb cur "" then 0 else indexOf names cur
                 | None => 0
                 end) in
      let m := run (selectMenuInteractively env names "Select a preset:"
                      currentIdx) keys in
      match resolved m with
      | None => (Some m, trace m)   (* the promise never settles *)
      | Some picked =>
          if negb (truthy picked) then
            (Some m, trace m ++ plain_list cfg names)
          else
            let p := match picked with VStr s => s | _ => "" end in
            let vars := default [] (assoc p (envs cfg)) in
            (Some m,
             trace m
               ++ [console_log (c.cyan (c.bold "Preset: ") +:+ p +:+ " "
                     +:+ c.dim ("[" +:+ pretty (length vars) +:+ "]"));
                   console_log ""]
               ++ printAlignedVars vars)
      end
  end.

(** Line feeds embedded in the title and the labels of a menu. *)
Definition embedded_lf (title : string) (its : list string) : nat :=
  (Str.lines_of title + list_sum (map Str.lines_of its))%nat.

(** The redraw invariant on an instrumented error stream: every render
    pass after the first erases as many lines as the pass before it
    wrote. *)
Definition redraw_consistent (tr : list event) : Prop :=
  forall (i : nat) (p q : Pass),
    render_passes tr !! i = Some p ->
    render_passes tr !! S i = Some q ->
    erased q = Str.lines_of (written p).

(** What holds of a session for a menu of labels [its] under header [h]:
    every block ends [n + 2] lines plus the embedded line feeds, every
    pass after the first erases [n + 2] lines, and while the session is
    open the recorded count is [n + 2]. *)
Definition menu_inv (its : list string) (h : string) (m : Menu) : Prop :=
  let n := length its in
  let x := (Str.lines_of h + list_sum (map Str.lines_of its))%nat in
  items m = its /\ hdr m = h /\
  Forall (fun p => Str.lines_of (written p) = (n + 2 + x)%nat)
    (render_passes (trace m)) /\
  Forall (fun p => erased p = (n + 2)%nat) (tail (render_passes (trace m))) /\
  (listening m = true ->
     fst (sink (trace m)) = 0%nat /\ renderedLines m = (n + 2)%nat /\
     render_passes (trace m) <> [] /\ resolved m = None) /\
  (listening m = false -> resolved m <> None).

(** A terminal is at hand: standard input is one, or [/dev/tty] opens. *)
Definition interactive (env : Env) : bool :=
  stdin_isTTY env || dev_tty_opens env.

(** The selected index points into the array. *)
Definition idx_in_range (m : Menu) : Prop :=
  exists i : Z, idx m = Num i /\ 0 <= i < Z.of_nat (length (items m)).

(** The state of the input stream and of the handle during a session
    started in [env] on the labels [its]. *)
Definition device_inv (env : Env) (its : list string) (m : Menu) : Prop :=
  needClose m = negb (stdin_isTTY env) /\
  tty_open_calls m = (if stdin_isTTY env then 0 else 1)%nat /\
  (listening m = true ->
     isRaw m = true /\ flowing m = true /\ own_handle m = needClose m) /\
  (listening m = false ->
     isRaw m = false /\ flowing m = false /\ own_handle m = false /\
     renderedLines m = 0%nat /\
     fst (sink (trace m)) = (length its + 2)%nat).

(** The example of the specification. *)
Definition scenario_items : list string := ["dev"; "staging"; "prod"].

Definition scenario_start : Menu :=
  selectMenuInteractively (mkEnv true true) scenario_items
    "Select a preset:" 1.

(** A preset name of two lines, as [quickenv set $'a\nb' K v] takes it
    ([cmdSetNonInteractive] only refuses an empty name), and the menu of
    [quickenv list] over it on a terminal: after one Down key, and after
    Escape. *)
Definition multiline_name : string := "a" +:+ Str.lf +:+ "b".

Definition multiline_session : Menu :=
  run (selectMenuInteractively (mkEnv true true)
         [multiline_name] "Select a preset:" 0) [DOWN].

Definition multiline_cancelled : Menu :=
  run (selectMenuInteractively (mkEnv true true)
         [multiline_name] "Select a preset:" 0) [ESCAPE].

(** How a POSIX shell reads a word built of single-quoted stretches and
    backslash-escaped characters (the reference against which the
    quoting of [shellQuote] is judged): inside single quotes every
    character up to the next quote stands for itself; outside, a
    backslash makes the next character stand for itself. [inq] tells
    whether a quote is open. Words with other unquoted characters are
    not read. *)
Fixpoint sh_word (inq : bool) (s : string) : option string :=
  match s with
  | EmptyString => if inq then None else Some ""
  | String a r =>
      if inq then
        if Ascii.eqb a Str.QUOTE then sh_word false r
        else String a <$> sh_word true r
      else if Ascii.eqb a Str.QUOTE then sh_word true r
      else if Ascii.eqb a Str.BACKSLASH then
        match r with
        | String b r' => String b <$> sh_word false r'
        | EmptyString => None
        end
      else None
  end.

(** The statements of an export text, each closed by a line feed. *)
Fixpoint statements (lines : list string) : string :=
  match lines with
  | [] => ""
  | l :: rest => l +:+ Str.lf +:+ statements rest
  end.

Definition scenario_vars : list (string * string) :=
  [("API_URL", "https://api.example.com"); ("GREETING", "it's me")].

(** A stand-in for [JSON.parse] in the examples: it reads the empty
    object and throws on everything else, which is what [JSON.parse] does
    on the texts of the examples. *)
Definition example_parse (raw : string) : option json :=
  if String.eqb raw "{}" then Some (JObj []) else None.

(** A stand-in for [JSON.stringify] in the examples: the name of the
    current preset only. *)
Definition example_stringify (cfg : Config) : string :=
  "{ current: " +:+ default "null" (current cfg) +:+ " }".

Definition example_dir : string := "/home/u/.quick-env".

(** A config file that holds two spaces and a line feed. *)
Definition blank_world : World :=
  mkWorld {[ CONFIG_PATH example_dir := "  " +:+ Str.lf ]} [] [].

(** A config file cut off in the middle. *)
Definition broken_world : World :=
  mkWorld {[ CONFIG_PATH example_dir := "{ envs: {" ]} [] [].

Definition example_config : Config :=
  mkConfig None [("dev", scenario_vars);
                 ("bad", [("OK", "1"); ("lower", "x"); ("B", "2")])].

(** A config whose preset names tell the order of UTF-16 code units from
    the order of the bytes: U+1F600 comes before U+FF5E. *)
Definition unicode_config : Config :=
  mkConfig (Some "😀")
    [("～", [("K", "v")]); ("dev", scenario_vars); ("😀", [])].

(** The config that holds the preset of two lines. *)
Definition multiline_config : Config :=
  mkConfig None [(multiline_name, [("K", "v")])].

Definition empty_world : World := mkWorld ∅ [] [].

Definition no_session : Awaited := mkAwaited [] VNull.

(** The report of a missing terminal. *)
Definition NON_INTERACTIVE : event :=
  console_error (c.red "Non-interactive environment. Use command form instead.").

(* ===================================================================== *)
(** ** The preset selector (lines 261-340) *)
(* ===================================================================== *)

(** The body of the promise of [selectPresetInteractively], up to the
    first [render]. Its nested [render], [cleanup], [onKeypress] and
    [stop] are those of [selectMenuInteractively] with [names] for
    [items], so a session is run with [run]. [current] is [cfg.current]:
    [None] for [null]. *)
Definition selectPresetInteractively
    (env : Env) (names : list string) (current : option string) : Menu :=
  let opened := negb (stdin_isTTY env) in
  if opened && negb (dev_tty_opens env) then
    mkMenu names "" (Num 0) 0 false 1 false false false false (Some VNull)
      [console_error
         (c.red "Non-interactive environment. Provide a name: quickenv use <name>")]
  else
    let hdr := c.cyan (c.bold "Select a preset:") in
    let idx0 := Z.max 0 (match current with
                         | Some cur =>
                             if String.eqb cur "" then 0 else indexOf names cur
                         | None => 0
                         end) in
    let idx1 := if idx0 =? -1 then 0 else idx0 in
    render
      (mkMenu names hdr (Num idx1) 0 opened (if opened then 1 else 0)%nat
         opened true true true None []).

(** What an [await] on the promise of a session yields once it is
    resolved; a pending promise yields nothing. *)
Definition await (m : Menu) : option Awaited :=
  match resolved m with
  | Some v => Some (mkAwaited (trace m) v)
  | None => None
  end.

(** The value a session on [its] may resolve with: [null] or one of the
    labels. *)
Definition resolved_ok (its : list string) (m : Menu) : Prop :=
  match resolved m with
  | Some v => v = VNull \/ exists s, v = VStr s /\ In s its
  | None => True
  end.

(** The keys [onKeypress] reacts to. *)
Definition handled (k : Key) : bool :=
  String.eqb (name k) "up" || String.eqb (name k) "down"
  || String.eqb (name k) "return" || String.eqb (name k) "enter"
  || String.eqb (name k) "escape" || (String.eqb (name k) "c" && ctrl k).

(** The report of [selectPresetInteractively] without a terminal. *)
Definition NON_INTERACTIVE_USE : event :=
  console_error
    (c.red "Non-interactive environment. Provide a name: quickenv use <name>").

(* ===================================================================== *)
(** ** [stripAnsi] (lines 90-92) and the delete menu (lines 422-431) *)
(* ===================================================================== *)

Definition is_digit (a : ascii) : bool :=
  let n := nat_of_ascii a in ((48 <=? n) && (n <=? 57))%nat.

(** The rest of [/\x1b\[[0-9;]*m/] after the bracket: the number of
    characters up to and including the closing [m]. The class holds no
    [m], so the greedy star has one way to match. *)
Fixpoint csi_params (s : string) : option nat :=
  match s with
  | EmptyString => None
  | String a r =>
      if Ascii.eqb a "m"%char then Some 1%nat
      else if is_digit a || Ascii.eqb a ";"%char then S <$> csi_params r
      else None
  end.

(** The number of characters that the pattern matches after an ESC. *)
Definition csi_len (s : string) : option nat :=
  match s with
  | String a r => if Ascii.eqb a "["%char then S <$> csi_params r else None
  | EmptyString => None
  end.

(** [s.replace(/\x1b\[[0-9;]*m/g, "")], scanning from the left; [skip]
    counts the characters of a match still to be dropped. *)
Fixpoint strip_go (skip : nat) (s : string) : string :=
  match s with
  | EmptyString => ""
  | String a r =>
      match skip with
      | S k => strip_go k r
      | O =>
          if Ascii.eqb a Str.ESC then
            match csi_len r with
            | Some n => strip_go n r
            | None => String a (strip_go 0 r)
            end
          else String a (strip_go 0 r)
      end
  end.

Definition stripAnsi (s : string) : string := strip_go 0 s.

(** [hay.includes(needle)]. *)
Fixpoint includes (hay needle : string) : bool :=
  String.prefix needle hay
  || match hay with
     | String _ r => includes r needle
     | EmptyString => false
     end.

(** [String(v)]. *)
Definition js_String (v : jsval) : string :=
  match v with
  | VStr s => s
  | VNull => "null"
  | VUndefined => "undefined"
  end.

(** The object that [selectKeyForDeleteInteractively] returns. *)
Inductive DeleteChoice :=
| ChoiceCancel
| ChoiceBack
| ChoiceDeletePreset
| ChoiceKey (key : string).

Definition delete_menu_items (keys : list string) : list string :=
  keys ++ [c.red "Delete entire preset…"; c.yellow "Back"; c.dim "Cancel"].

(** Lines 425-430, on the value the menu resolved with. *)
Definition classify_delete (ret : jsval) : DeleteChoice :=
  match ret with
  | VNull => ChoiceCancel
  | _ =>
      let plain := stripAnsi (js_String ret) in
      if String.eqb plain "Cancel" then ChoiceCancel
      else if String.eqb plain "Back" then ChoiceBack
      else if includes plain "Delete entire preset" then ChoiceDeletePreset
      else ChoiceKey plain
  end.

(** [selectKeyForDeleteInteractively], with the keys typed: the session,
    and the returned object once the promise is resolved. *)
Definition selectKeyForDeleteInteractively
    (env : Env) (presetName : string) (keys : list string)
    (typed : list (option Key)) : Menu * option DeleteChoice :=
  let m := run (selectMenuInteractively env (delete_menu_items keys)
                  ("Select a KEY to delete (preset: " +:+ presetName +:+ ")")
                  0) typed in
  (m, classify_delete <$> resolved m).

(* ===================================================================== *)
(** ** [presetApplyStatus] (lines 109-121) *)
(* ===================================================================== *)






(** A text that is empty or starts with ESC cannot complete or extend a
    match of [stripAnsi] that starts before it. *)
Definition boundary (t : string) : Prop :=
  t = "" \/ exists r, t = String Str.ESC r.

(* ===================================================================== *)
(** ** Objects as ordered dictionaries: assignment and [delete] *)
(* ===================================================================== *)

Fixpoint decimal (s : string) (acc : N) : option N :=
  match s with
  | EmptyString => Some acc
  | String a r =>
      if is_digit a
      then decimal r (acc * 10 + (N.of_nat (nat_of_ascii a) - 48))%N
      else None
  end.

(** A key that is an array index: the canonical decimal form of an
    integer from 0 to 2^32 - 2. Objects enumerate such keys first, in
    ascending order, and the other keys after them in the order of their
    creation. *)
Definition array_index (k : string) : option N :=
  match k with
  | EmptyString => None
  | String a r =>
      if Ascii.eqb a "0"%char then
        match r with EmptyString => Some 0%N | _ => None end
      else
        match decimal k 0 with
        | Some n => if (n <=? 4294967294)%N then Some n else None
        | None => None
        end
  end.

Fixpoint replace_value {V} (k : string) (v : V) (o : list (string * V))
    : list (string * V) :=
  match o with
  | [] => []
  | (k', v') :: rest =>
      if String.eqb k' k then (k, v) :: rest
      else (k', v') :: replace_value k v rest
  end.

Fixpoint insert_index {V} (n : N) (k : string) (v : V)
    (o : list (string * V)) : list (string * V) :=
  match o with
  | [] => [(k, v)]
  | (k', v') :: rest =>
      match array_index k' with
      | Some n' =>
          if (n' <? n)%N then (k', v') :: insert_index n k v rest
          else (k, v) :: o
      | None => (k, v) :: o
      end
  end.

(** [o[k] = v] on an object of its own properties. *)
Definition js_set {V} (k : string) (v : V) (o : list (string * V))
    : list (string * V) :=
  if has_own k o then replace_value k v o
  else
    match array_index k with
    | Some n => insert_index n k v o
    | None => o ++ [(k, v)]
    end.

(** [delete o[k]]. *)
Fixpoint js_delete {V} (k : string) (o : list (string * V))
    : list (string * V) :=
  match o with
  | [] => []
  | (k', v') :: rest =>
      if String.eqb k' k then js_delete k rest
      else (k', v') :: js_delete k rest
  end.

(* ===================================================================== *)
(** ** [cmdSetNonInteractive] (lines 727-746) and [cmdDel] (748-772) *)
(* ===================================================================== *)

(** The config in memory after lines 733 and 743, for a valid key. *)
Definition set_config (cfg : Config) (presetName key value : string)
    : Config :=
  let envs1 :=
    if has_own presetName (envs cfg) || inherited presetName (envs cfg)
    then envs cfg
    else js_set presetName [] (envs cfg) in
  match assoc presetName envs1 with
  | Some vars =>
      mkConfig (current cfg)
        (replace_value presetName (js_set key value vars) envs1)
  | None =>
      (* the assignment lands on the inherited member, not in the config *)
      mkConfig (current cfg) envs1
  end.

(** What [cmdDel] finds under [cfg.envs[name]] when it is no preset but an
    inherited member, asked for the key: no such own property, one that
    [delete] removes, or one whose [delete] throws in strict mode. *)
Inductive BuiltinSlot :=
| SlotAbsent
| SlotDeletable
| SlotFixed.

Section Crud.

Variable CONFIG_DIR : string.
Variable JSON_stringify : Config -> string.
Variables (now pid : N).
Variable builtin_slot : string -> string -> BuiltinSlot.

(** [cmdSetNonInteractive(presetName, key, value)] after
    [const cfg = readConfig()], for the strings that [main] passes. *)
Definition cmdSetNonInteractive (cfg : Config)
    (presetName key value : string) : Proc unit :=
  if String.eqb presetName "" then
    emit (console_error
            "Provide a preset: quickenv set <preset> <KEY> <VALUE>") ;;
    process_exit 1
  else if negb (isValidKey key) then
    emit (console_error
            "Invalid KEY. Use uppercase letters, digits, and underscores (^[A-Z0-9_]+$)") ;;
    process_exit 1
  else if hasNewline value then
    emit (console_error "Value contains newline. Use single-line string.") ;;
    process_exit 1
  else
    writeConfig CONFIG_DIR JSON_stringify now pid
      (set_config cfg presetName key value) ;;
    emit (console_log ("Saved: " +:+ presetName +:+ "." +:+ key)).

(** [cmdDel(name, key)] after [const cfg = readConfig()]; an empty string
    stands for a missing argument. *)
Definition cmdDel (cfg : Config) (name key : string) : Proc unit :=
  if String.eqb name ""
     || negb (has_own name (envs cfg) || inherited name (envs cfg)) then
    emit (console_error
            ("Preset not found: "
             +:+ (if String.eqb name "" then "(missing)" else name))) ;;
    emit (console_error "Use `quickenv list` to view existing presets.") ;;
    process_exit 1
  else if String.eqb key "" then
    let current' :=
      match current cfg with
      | Some cur => if String.eqb cur name then None else Some cur
      | None => None
      end in
    writeConfig CONFIG_DIR JSON_stringify now pid
      (mkConfig current' (js_delete name (envs cfg))) ;;
    emit (console_log ("Deleted preset: " +:+ name))
  else
    match assoc name (envs cfg) with
    | Some vars =>
        if negb (has_own key vars) then
          emit (console_error ("KEY not found: " +:+ key)) ;;
          process_exit 1
        else
          writeConfig CONFIG_DIR JSON_stringify now pid
            (mkConfig (current cfg)
               (replace_value name (js_delete key vars) (envs cfg))) ;;
          emit (console_log ("Deleted: " +:+ name +:+ "." +:+ key))
    | None =>
        match builtin_slot name key with
        | SlotAbsent =>
            emit (console_error ("KEY not found: " +:+ key)) ;;
            process_exit 1
        | SlotFixed => fun w => (Throw, w)
        | SlotDeletable =>
            writeConfig CONFIG_DIR JSON_stringify now pid cfg ;;
            emit (console_log ("Deleted: " +:+ name +:+ "." +:+ key))
        end
    end.

End Crud.

(** Two objects hold the same value under every key. *)
Definition same_lookups {V} (o1 o2 : list (string * V)) : Prop :=
  forall k, assoc k o1 = assoc k o2.

Definition example_slot (name key : string) : BuiltinSlot := SlotAbsent.

(* ===================================================================== *)
(** ** [main] (lines 853-912) *)
(* ===================================================================== *)

(** The call that [main] makes for the arguments after the program name;
    a missing argument is [None]. *)
Inductive Command :=
| RunRootInteractive
| RunInit
| RunList
| RunShow (name : option string)
| RunUse (name : option string)
| RunSetNonInteractive (presetName key value : string)
| RunSetInteractive
| RunDelInteractive
| RunDel (name key : string)
| RunEditInteractive
| RunCurrent
| RunUsage
| RunUnknown (cmd : string).

(** [!argv[i]]: the argument is missing or empty. *)
Definition missing (a : option string) : bool :=
  match a with
  | Some s => String.eqb s ""
  | None => true
  end.

Definition main (argv : list string) : Command :=
  match argv with
  | [] => RunRootInteractive
  | cmd :: _ =>
      if String.eqb cmd "init" then RunInit
      else if String.eqb cmd "init-internal" then RunInit
      else if String.eqb cmd "list" then RunList
      else if String.eqb cmd "show" then RunShow (argv !! 1%nat)
      else if String.eqb cmd "use" then RunUse (argv !! 1%nat)
      else if String.eqb cmd "set" then
        if (4 <=? length argv)%nat then
          RunSetNonInteractive (default "" (argv !! 1%nat))
            (default "" (argv !! 2%nat)) (Str.join " " (drop 3 argv))
        else RunSetInteractive
      else if String.eqb cmd "del" then
        if missing (argv !! 1%nat) then RunDelInteractive
        else if missing (argv !! 2%nat) then RunDelInteractive
        else RunDel (default "" (argv !! 1%nat)) (default "" (argv !! 2%nat))
      else if String.eqb cmd "edit" then RunEditInteractive
      else if String.eqb cmd "current" then RunCurrent
      else if String.eqb cmd "help" || String.eqb cmd "-h"
              || String.eqb cmd "--help" then RunUsage
      else RunUnknown cmd
  end.
(* ===================================================================== *)
(** * Properties of the selector *)
(* ===================================================================== *)

Section StringFacts.

Lemma count_app a s1 s2 :
  Str.count a (s1 +:+ s2) = (Str.count a s1 + Str.count a s2)%nat.
Proof.
  induction s1 as [|b s1 IH]; simpl; [reflexivity|].
  rewrite IH. lia.
Qed.

Lemma lines_of_app s1 s2 :
  Str.lines_of (s1 +:+ s2) = (Str.lines_of s1 + Str.lines_of s2)%nat.
Proof. apply count_app. Qed.

(** Line feeds of a joined array: one per separator plus the embedded
    ones. *)
Lemma lines_of_join_lf x l :
  Str.lines_of (Str.join Str.lf (x :: l)) =
  (length l + list_sum (map Str.lines_of (x :: l)))%nat.
Proof.
  revert x. induction l as [|y l IH]; intros x.
  - simpl. lia.
  - change (Str.join Str.lf (x :: y :: l))
      with (x +:+ Str.lf +:+ Str.join Str.lf (y :: l)).
    rewrite !lines_of_app, IH. simpl. lia.
Qed.

Lemma hasNewline_false_lines s :
  hasNewline s = false -> Str.lines_of s = 0%nat.
Proof.
  unfold hasNewline, Str.lines_of.
  induction s as [|b s IH]; cbn [Str.existsb Str.count]; [reflexivity|].
  intros H. apply orb_false_iff in H as [Hb Hs].
  apply orb_false_iff in Hb as [_ Hlf].
  rewrite (IH Hs).
  destruct (Ascii.eqb_spec Str.LF b) as [E|_]; [|reflexivity].
  subst b. rewrite Ascii.eqb_refl in Hlf. discriminate.
Qed.

End StringFacts.

Section SelectorSteps.

Lemma clearLines_spec n m :
  clearLines n m =
  mkMenu (items m) (hdr m) (idx m) (renderedLines m) (needClose m)
    (tty_open_calls m) (own_handle m) (isRaw m) (listening m) (flowing m)
    (resolved m) (trace m ++ replicate n (Stderr CLEAR_SEQ)).
Proof.
  revert m. induction n as [|n IH]; intros m.
  - destruct m; simpl. by rewrite app_nil_r.
  - cbn [clearLines]. rewrite IH. destruct m; simpl.
    by rewrite <- app_assoc.
Qed.

(** One render pass: as many erase sequences as the recorded count, then
    the block, and the count becomes the length of the array [lines]. *)
Lemma render_spec m :
  render m =
  mkMenu (items m) (hdr m) (idx m) (length (items m) + 2) (needClose m)
    (tty_open_calls m) (own_handle m) (isRaw m) (listening m) (flowing m)
    (resolved m)
    (trace m ++ replicate (renderedLines m) (Stderr CLEAR_SEQ)
       ++ [Stderr (block_text m)]).
Proof.
  unfold render, block_text.
  assert (Hlen : length (block_lines m) = (length (items m) + 2)%nat).
  { unfold block_lines. cbn [length]. rewrite length_app, length_imap.
    simpl. lia. }
  rewrite Hlen.
  destruct (renderedLines m) as [|k] eqn:Hk.
  - destruct m; simpl in *. by subst.
  - change (0 <? S k)%nat with true. cbv iota.
    rewrite clearLines_spec. unfold set_renderedLines, writeStderr.
    destruct m; cbn [items hdr idx renderedLines needClose tty_open_calls
      own_handle isRaw listening flowing resolved trace] in *. subst.
    by rewrite <- app_assoc.
Qed.

Lemma cleanup_spec m :
  cleanup m =
  mkMenu (items m) (hdr m) (idx m) 0 (needClose m)
    (tty_open_calls m) (own_handle m) (isRaw m) (listening m) (flowing m)
    (resolved m) (trace m ++ replicate (renderedLines m) (Stderr CLEAR_SEQ)).
Proof.
  unfold cleanup.
  destruct (renderedLines m) as [|k] eqn:Hk.
  - destruct m; simpl in *. subst. by rewrite app_nil_r.
  - change (0 <? S k)%nat with true. cbv iota.
    rewrite clearLines_spec. destruct m; simpl in *. by subst.
Qed.

(** A session that has stopped listening ignores every later key. *)
Lemma run_closed m keys : listening m = false -> run m keys = m.
Proof.
  intros H. unfold run. induction keys as [|k keys IH]; simpl; [done|].
  unfold keypress at 2. by rewrite H.
Qed.

Lemma run_app m ks1 ks2 : run m (ks1 ++ ks2) = run (run m ks1) ks2.
Proof. unfold run. apply fold_left_app. Qed.

Lemma run_snoc m ks k : run m (ks ++ [k]) = keypress (run m ks) k.
Proof. by rewrite run_app. Qed.

End SelectorSteps.

Section Redraw.

Lemma lines_of_item_line x i label :
  Str.lines_of (item_line x i label) = Str.lines_of label.
Proof.
  unfold item_line. destruct (num_is x i);
    unfold c.green, c.bold, _color; rewrite !lines_of_app;
    unfold Str.lines_of; simpl; lia.
Qed.

Lemma lines_of_imap (f : nat -> string -> string) l :
  (forall i s, Str.lines_of (f i s) = Str.lines_of s) ->
  list_sum (map Str.lines_of (imap f l)) = list_sum (map Str.lines_of l).
Proof.
  revert f. induction l as [|s l IH]; intros f Hf; [reflexivity|].
  cbn [imap map]. change (list_sum (?a :: ?r)) with (a + list_sum r)%nat.
  rewrite Hf. f_equal. apply IH. intros i s'. apply Hf.
Qed.

Lemma lines_of_hdr title :
  Str.lines_of (c.cyan (c.bold title)) = Str.lines_of title.
Proof.
  unfold c.cyan, c.bold, _color. rewrite !lines_of_app.
  unfold Str.lines_of. simpl. lia.
Qed.

(** The lines a block ends on the terminal: one per entry of [lines],
    plus one per line feed embedded in the header or in a label. *)
Lemma lines_of_block_text m :
  Str.lines_of (block_text m) =
  (length (items m) + 2 + (Str.lines_of (hdr m)
     + list_sum (map Str.lines_of (items m))))%nat.
Proof.
  unfold block_text, block_lines.
  rewrite lines_of_app, lines_of_join_lf.
  rewrite length_app, length_imap.
  cbn [map]. change (list_sum (?a :: ?r)) with (a + list_sum r)%nat.
  rewrite map_app, list_sum_app.
  rewrite lines_of_imap by apply lines_of_item_line.
  change (Str.lines_of Str.lf) with 1%nat.
  change (list_sum (map Str.lines_of [hint])) with 0%nat.
  simpl length. lia.
Qed.

Lemma block_text_not_clear m : String.eqb (block_text m) CLEAR_SEQ = false.
Proof.
  destruct (String.eqb_spec (block_text m) CLEAR_SEQ) as [E|]; [|done].
  apply (f_equal Str.lines_of) in E. rewrite lines_of_block_text in E.
  change (Str.lines_of CLEAR_SEQ) with 0%nat in E. lia.
Qed.

Lemma sink_app tr tr' : sink (tr ++ tr') = fold_left sink_step tr' (sink tr).
Proof. unfold sink. apply fold_left_app. Qed.

Lemma sink_clears n st :
  fold_left sink_step (replicate n (Stderr CLEAR_SEQ)) st =
  ((fst st + n)%nat, snd st).
Proof.
  revert st. induction n as [|n IH]; intros [k ps]; simpl.
  - f_equal. lia.
  - rewrite IH. simpl. f_equal. lia.
Qed.

(** What the sink holds after a render pass. *)
Lemma sink_render m :
  sink (trace (render m)) =
  (0%nat, snd (sink (trace m))
            ++ [mkPass (fst (sink (trace m)) + renderedLines m)
                  (block_text m)]).
Proof.
  rewrite render_spec. cbn [trace].
  rewrite sink_app, fold_left_app, sink_clears.
  cbn [fold_left sink_step fst snd]. by rewrite block_text_not_clear.
Qed.

Lemma sink_cleanup m :
  sink (trace (cleanup m)) =
  ((fst (sink (trace m)) + renderedLines m)%nat, snd (sink (trace m))).
Proof. rewrite cleanup_spec. cbn [trace]. by rewrite sink_app, sink_clears. Qed.

End Redraw.

Section Invariant.

Variables (its : list string) (h : string).

Lemma menu_inv_render m v :
  menu_inv its h m -> listening m = true ->
  menu_inv its h (render (set_idx v m)).
Proof.
  intros (Hi & Hh & Hw & He & Hopen & _) Hl.
  destruct (Hopen Hl) as (Hp & Hr & Hne & Hres).
  unfold menu_inv, render_passes. rewrite sink_render.
  rewrite render_spec. cbn [items hdr listening renderedLines resolved fst snd].
  assert (Ht : trace (set_idx v m) = trace m) by (by destruct m).
  assert (Hit : items (set_idx v m) = items m) by (by destruct m).
  assert (Hhd : hdr (set_idx v m) = hdr m) by (by destruct m).
  assert (Hrl : renderedLines (set_idx v m) = renderedLines m) by (by destruct m).
  assert (Hli : listening (set_idx v m) = listening m) by (by destruct m).
  assert (Hrs : resolved (set_idx v m) = resolved m) by (by destruct m).
  rewrite Ht, Hit, Hhd, Hrl, Hli, Hrs, Hp, Hr, Hi, Hh.
  split; [done|]. split; [done|].
  split; [|split].
  - apply Forall_app. split; [exact Hw|].
    constructor; [|constructor]. cbn [written].
    rewrite lines_of_block_text, Hit, Hhd, Hi, Hh. lia.
  - unfold render_passes in Hne, He.
    destruct (snd (sink (trace m))) as [|p0 ps]; [done|].
    cbn [tail app] in *. apply Forall_app. split; [exact He|].
    constructor; [|constructor]. cbn [erased]. lia.
  - split; [|congruence]. intros _. repeat split; try done.
    intros E. by apply app_eq_nil in E as [_ ?].
Qed.

Lemma menu_inv_closed m m' :
  menu_inv its h m ->
  items m' = items m -> hdr m' = hdr m -> listening m' = false ->
  resolved m' <> None ->
  render_passes (trace m') = render_passes (trace m) ->
  menu_inv its h m'.
Proof.
  intros (Hi & Hh & Hw & He & _) Hit Hhd Hl Hr Hp.
  unfold menu_inv. rewrite Hit, Hhd, Hp, Hl. repeat split; try done.
Qed.

Lemma menu_inv_exit m v :
  menu_inv its h m -> menu_inv its h (resolve v (stop (cleanup m))).
Proof.
  intros Hinv. eapply menu_inv_closed; [exact Hinv|..].
  - rewrite cleanup_spec. by destruct m.
  - rewrite cleanup_spec. by destruct m.
  - by destruct (cleanup m).
  - unfold resolve. cbn [resolved]. by destruct (resolved (stop (cleanup m))).
  - unfold render_passes.
    change (trace (resolve v (stop (cleanup m)))) with (trace (cleanup m)).
    by rewrite sink_cleanup.
Qed.

Lemma menu_inv_keypress m k :
  menu_inv its h m -> menu_inv its h (keypress m k).
Proof.
  intros Hinv. unfold keypress.
  destruct (listening m) eqn:Hl; [|done].
  destruct k as [k|]; [|done]. cbn [onKeypress].
  destruct (String.eqb (name k) "up"); [by apply menu_inv_render|].
  destruct (String.eqb (name k) "down"); [by apply menu_inv_render|].
  destruct (String.eqb (name k) "return" || String.eqb (name k) "enter");
    [by apply menu_inv_exit|].
  destruct (String.eqb (name k) "escape"
            || String.eqb (name k) "c" && ctrl k); [|done].
  by apply menu_inv_exit.
Qed.

Lemma menu_inv_run m keys :
  menu_inv its h m -> menu_inv its h (run m keys).
Proof.
  revert m. induction keys as [|k keys IH]; intros m Hinv; [done|].
  apply (IH (keypress m k)). by apply menu_inv_keypress.
Qed.

Lemma menu_inv_start env title init :
  interactive env = true ->
  h = c.cyan (c.bold title) ->
  menu_inv its h (selectMenuInteractively env its title init).
Proof.
  unfold interactive. intros Henv ->. unfold selectMenuInteractively.
  assert (E : negb (stdin_isTTY env) && negb (dev_tty_opens env) = false)
    by (destruct (stdin_isTTY env), (dev_tty_opens env); done).
  rewrite E. unfold menu_inv, render_passes. rewrite sink_render.
  rewrite render_spec. cbn [items hdr listening renderedLines resolved trace
    fst snd sink fold_left app tail written erased].
  repeat split; try done.
  constructor; [|constructor]. cbn [written].
  rewrite lines_of_block_text. cbn [items hdr]. lia.
Qed.

End Invariant.

(** Every session on a terminal satisfies the invariant. *)
Lemma session_inv env its title init keys :
  interactive env = true ->
  menu_inv its (c.cyan (c.bold title))
    (run (selectMenuInteractively env its title init) keys).
Proof. intros H. apply menu_inv_run. by apply menu_inv_start. Qed.

(** Without a terminal the session is over before any key. *)
Lemma session_no_terminal env its title init keys :
  interactive env = false ->
  run (selectMenuInteractively env its title init) keys =
  mkMenu its "" (Num 0) 0 false 1 false false false false (Some VNull)
    [console_error
       (c.red "Non-interactive environment. Use command form instead.")].
Proof.
  unfold interactive. intros H. apply orb_false_iff in H as [H1 H2].
  unfold selectMenuInteractively. rewrite H1, H2. cbn [negb andb].
  by apply run_closed.
Qed.

(** The account of a redraw: a pass after the first erases one line per
    entry of the previous block, which ended that many lines plus one
    for each line feed embedded in the title or in a label. *)
Lemma redraw_accounting env its title init keys i p q :
  let m := run (selectMenuInteractively env its title init) keys in
  render_passes (trace m) !! i = Some p ->
  render_passes (trace m) !! S i = Some q ->
  erased q = (length its + 2)%nat /\
  Str.lines_of (written p) = (erased q + embedded_lf title its)%nat.
Proof.
  intros m Hp Hq. destruct (interactive env) eqn:Henv.
  - destruct (session_inv env its title init keys Henv)
      as (_ & _ & Hw & He & _). fold m in Hw, He.
    assert (Eq : erased q = (length its + 2)%nat).
    { rewrite Forall_lookup in He. apply (He i).
      destruct (render_passes (trace m)); [done|]. exact Hq. }
    split; [exact Eq|].
    rewrite Forall_lookup in Hw. rewrite (Hw i p Hp), Eq.
    unfold embedded_lf. rewrite lines_of_hdr. lia.
  - unfold m in Hq. rewrite session_no_terminal in Hq by done.
    vm_compute in Hq. destruct i; discriminate.
Qed.


(* ===================================================================== *)
(** ** C1: redraw consistency *)
(* ===================================================================== *)

(** C1. The redraw invariant does not hold in the code for a label that
    holds a line feed. The preset name [a<LF>b] is stored by
    [quickenv set] like any other name; [quickenv list] on a terminal
    then opens the menu over it. The first block ends four lines on the
    terminal (title, a, b, hint) while the array [lines] has three
    entries, so the recorded [renderedLines] is 3 and the pass that the
    Down key triggers erases three lines, one less than the pass before
    it wrote: a line of the old block stays on the screen. *)
Lemma redraw_multiline_label_defect :
  set_config (mkConfig None []) multiline_name "K" "v" = multiline_config /\
  fst (cmdList (mkEnv true true) multiline_config [DOWN])
    = Some multiline_session /\
  map (fun p => (erased p, Str.lines_of (written p)))
      (render_passes (trace multiline_session)) = [(0, 4); (3, 4)]%nat /\
  renderedLines multiline_session = 3%nat /\
  ~ redraw_consistent (trace multiline_session).
Proof.
  split; [by vm_compute|]. split; [by vm_compute|].
  split; [by vm_compute|]. split; [by vm_compute|].
  intros H.
  destruct (render_passes (trace multiline_session)) as [|p [|q r]] eqn:E;
    [by vm_compute in E..|].
  specialize (H 0%nat p q). unfold render_passes in H.
  unfold render_passes in E. rewrite E in H.
  specialize (H eq_refl eq_refl).
  vm_compute in E. injection E as <- <- _. vm_compute in H. discriminate.
Qed.

(** X28. The account of every redraw of the menu selector: a render pass
    after the first erases one line per entry of the array [lines] (the
    title, the items, the hint), while the pass before it ended that many
    lines on the terminal plus one for every line feed embedded in the
    title or in a label. So when neither the title nor any label contains
    a line feed, every render pass after the first is preceded by exactly
    as many cursor-up-and-clear sequences as the pass before it wrote
    lines, and while the session is open the recorded [renderedLines]
    equals the number of lines of the block written last. *)
Theorem redraw_consistency env its title init keys :
  let m := run (selectMenuInteractively env its title init) keys in
  (forall i p q,
     render_passes (trace m) !! i = Some p ->
     render_passes (trace m) !! S i = Some q ->
     erased q = (length its + 2)%nat /\
     Str.lines_of (written p) = (erased q + embedded_lf title its)%nat) /\
  (Str.lines_of title = 0%nat ->
   Forall (fun s => Str.lines_of s = 0%nat) its ->
   redraw_consistent (trace m) /\
   (resolved m = None ->
    exists p, last (render_passes (trace m)) = Some p /\
              renderedLines m = Str.lines_of (written p))).
Proof.
  intros m. split; [apply redraw_accounting|]. intros Ht Hits.
  assert (Hx : embedded_lf title its = 0%nat).
  { unfold embedded_lf. rewrite Ht. clear -Hits.
    induction Hits as [|s l Hs _ IH]; [done|].
    cbn [map]. change (list_sum (?a :: ?r)) with (a + list_sum r)%nat. lia. }
  split.
  - intros i p q Hp Hq.
    destruct (redraw_accounting env its title init keys i p q Hp Hq)
      as [_ E]. lia.
  - intros Hres. destruct (interactive env) eqn:Henv.
    + destruct (session_inv env its title init keys Henv)
        as (_ & _ & Hw & _ & Hopen & Hclosed). fold m in Hw, Hopen, Hclosed.
      destruct (listening m) eqn:Hl; [|by destruct (Hclosed eq_refl)].
      destruct (Hopen eq_refl) as (_ & Hr & Hne & _).
      destruct (render_passes (trace m)) as [|p0 ps] eqn:Eps using rev_ind;
        [done|]. clear IHps.
      exists p0. rewrite last_snoc. split; [done|].
      apply Forall_app in Hw as [_ Hw]. apply Forall_inv in Hw.
      rewrite Hw, Hr. unfold embedded_lf in Hx. rewrite lines_of_hdr. lia.
    + unfold m in Hres. rewrite session_no_terminal in Hres by done.
      discriminate.
Qed.

Lemma redraw_consistency_witness :
  redraw_consistent (trace (run scenario_start [DOWN; UP; None; DOWN])) /\
  (resolved (run scenario_start [DOWN; UP; None; DOWN]) = None ->
   exists p,
     last (render_passes (trace (run scenario_start [DOWN; UP; None; DOWN])))
       = Some p /\
     renderedLines (run scenario_start [DOWN; UP; None; DOWN])
       = Str.lines_of (written p)).
Proof.
  apply (redraw_consistency (mkEnv true true)
           scenario_items "Select a preset:" 1 [DOWN; UP; None; DOWN]).
  - reflexivity.
  - repeat constructor.
Defined.

(* ===================================================================== *)
(** ** Key handling *)
(* ===================================================================== *)

Section Keys.

Lemma onKeypress_up m k :
  name k = "up" ->
  onKeypress m (Some k) =
  render (set_idx (num_rem (num_add (num_add (idx m) (-1))
                     (Z.of_nat (length (items m))))
                     (Z.of_nat (length (items m)))) m).
Proof. intros E. cbn [onKeypress]. by rewrite E. Qed.

Lemma onKeypress_down m k :
  name k = "down" ->
  onKeypress m (Some k) =
  render (set_idx (num_rem (num_add (idx m) 1)
                     (Z.of_nat (length (items m)))) m).
Proof. intros E. cbn [onKeypress]. by rewrite E. Qed.

Lemma onKeypress_enter m k :
  name k = "return" \/ name k = "enter" ->
  onKeypress m (Some k) =
  resolve (item_at (items m) (idx m)) (stop (cleanup m)).
Proof.
  intros E.
  assert (Hi : items (stop (cleanup m)) = items m)
    by (rewrite cleanup_spec; by destruct m).
  assert (Hx : idx (stop (cleanup m)) = idx m)
    by (rewrite cleanup_spec; by destruct m).
  rewrite <- Hi at 1. rewrite <- Hx at 1.
  destruct E as [E|E]; cbn [onKeypress]; rewrite E; reflexivity.
Qed.

Lemma onKeypress_cancel m k :
  name k = "escape" \/ (name k = "c" /\ ctrl k = true) ->
  onKeypress m (Some k) = resolve VNull (stop (cleanup m)).
Proof.
  intros [E|[E Ec]]; cbn [onKeypress]; rewrite E, ?Ec; reflexivity.
Qed.

(** The index after Up and after Down, for an index inside the array. *)
Lemma step_up_idx (i n : Z) :
  0 <= i < n ->
  num_rem (num_add (num_add (Num i) (-1)) n) n = Num ((i - 1 + n) mod n).
Proof.
  intros H. cbn [num_add num_rem].
  destruct (Z.eqb_spec n 0) as [->|_]; [lia|].
  f_equal. by rewrite Z.rem_mod_nonneg by lia.
Qed.

Lemma step_down_idx (i n : Z) :
  0 <= i < n ->
  num_rem (num_add (Num i) 1) n = Num ((i + 1) mod n).
Proof.
  intros H. cbn [num_add num_rem].
  destruct (Z.eqb_spec n 0) as [->|_]; [lia|].
  f_equal. by rewrite Z.rem_mod_nonneg by lia.
Qed.

Lemma block_text_render m : block_text (render m) = block_text m.
Proof. by rewrite render_spec. Qed.

End Keys.

(* ===================================================================== *)
(** ** C2: arrow keys step the index cyclically and redraw *)
(* ===================================================================== *)

(** C2. In an open session on [n] labels with selected index [i] in
    [0, n-1], an Up key sets the index to [(i - 1 + n) mod n] and a Down
    key sets it to [(i + 1) mod n]; each is followed by one render pass
    (the old block is erased and the block of the new selection is
    written). With the labels dev, staging, prod and initial index 1, Down
    gives index 2, a second Down gives index 0, and Enter then resolves
    with Picked dev. *)
Theorem arrow_key_stepping (m : Menu) (i : Z) :
  listening m = true ->
  idx m = Num i ->
  0 <= i < Z.of_nat (length (items m)) ->
  let n := Z.of_nat (length (items m)) in
  let redrawn (m' : Menu) :=
    trace m' = trace m ++ replicate (renderedLines m) (Stderr CLEAR_SEQ)
                 ++ [Stderr (block_text m')] /\
    renderedLines m' = length (block_lines m') in
  (idx (keypress m UP) = Num ((i - 1 + n) mod n) /\ redrawn (keypress m UP)) /\
  (idx (keypress m DOWN) = Num ((i + 1) mod n) /\
   redrawn (keypress m DOWN)) /\
  idx scenario_start = Num 1 /\
  idx (run scenario_start [DOWN]) = Num 2 /\
  idx (run scenario_start [DOWN; DOWN]) = Num 0 /\
  resolved (run scenario_start [DOWN; DOWN; ENTER])
    = Some (result_value (Picked "dev")).
Proof.
  intros Hl Hi Hr n redrawn.
  assert (Hlen : forall m', length (block_lines m')
                            = (length (items m') + 2)%nat).
  { intros m'. unfold block_lines. cbn [length].
    rewrite length_app, length_imap. simpl. lia. }
  split; [|split].
  - unfold keypress, UP. rewrite Hl, (onKeypress_up m (mkKey "up" false) eq_refl), Hi.
    rewrite step_up_idx by exact Hr. fold n.
    unfold redrawn. rewrite block_text_render, Hlen, render_spec.
    by destruct m.
  - unfold keypress, DOWN. rewrite Hl, (onKeypress_down m (mkKey "down" false) eq_refl), Hi.
    rewrite step_down_idx by exact Hr. fold n.
    unfold redrawn. rewrite block_text_render, Hlen, render_spec.
    by destruct m.
  - repeat split; by vm_compute.
Qed.

Lemma arrow_key_stepping_witness :
  (idx (keypress scenario_start UP) = Num ((1 - 1 + 3) mod 3) /\
   trace (keypress scenario_start UP)
     = trace scenario_start
         ++ replicate (renderedLines scenario_start) (Stderr CLEAR_SEQ)
         ++ [Stderr (block_text (keypress scenario_start UP))] /\
   renderedLines (keypress scenario_start UP)
     = length (block_lines (keypress scenario_start UP))) /\
  (idx (keypress scenario_start DOWN) = Num ((1 + 1) mod 3) /\
   trace (keypress scenario_start DOWN)
     = trace scenario_start
         ++ replicate (renderedLines scenario_start) (Stderr CLEAR_SEQ)
         ++ [Stderr (block_text (keypress scenario_start DOWN))] /\
   renderedLines (keypress scenario_start DOWN)
     = length (block_lines (keypress scenario_start DOWN))) /\
  idx scenario_start = Num 1 /\
  idx (run scenario_start [DOWN]) = Num 2 /\
  idx (run scenario_start [DOWN; DOWN]) = Num 0 /\
  resolved (run scenario_start [DOWN; DOWN; ENTER])
    = Some (result_value (Picked "dev")).
Proof.
  apply (arrow_key_stepping scenario_start 1).
  - reflexivity.
  - reflexivity.
  - vm_compute. split; [discriminate | reflexivity].
Defined.

(* ===================================================================== *)
(** ** Invariants of the index and of the input stream *)
(* ===================================================================== *)

Section MoreInvariants.

Lemma exit_fields m v :
  let m' := resolve v (stop (cleanup m)) in
  items m' = items m /\ hdr m' = hdr m /\ idx m' = idx m /\
  needClose m' = needClose m /\ tty_open_calls m' = tty_open_calls m /\
  listening m' = false /\ isRaw m' = false /\ flowing m' = false /\
  own_handle m' = (if needClose m then false else own_handle m) /\
  renderedLines m' = 0%nat /\
  trace m' = trace m ++ replicate (renderedLines m) (Stderr CLEAR_SEQ) /\
  resolved m' = Some (default v (resolved m)).
Proof.
  intros m'. unfold m'. rewrite cleanup_spec.
  destruct m as [? ? ? ? ? ? ? ? ? ? r ?]. cbn. by destruct r.
Qed.

Lemma idx_in_range_keypress m k : idx_in_range m -> idx_in_range (keypress m k).
Proof.
  intros (i & Hi & Hr). unfold keypress.
  destruct (listening m); [|by exists i].
  destruct k as [k|]; [|by exists i]. cbn [onKeypress].
  destruct (String.eqb (name k) "up").
  { rewrite Hi, step_up_idx by exact Hr. rewrite render_spec.
    eexists. split; [by destruct m|].
    assert (E : items (set_idx (Num ((i - 1 + Z.of_nat (length (items m)))
                  mod Z.of_nat (length (items m)))) m) = items m)
      by (by destruct m).
    cbn [items]. rewrite E. apply Z.mod_pos_bound. lia. }
  destruct (String.eqb (name k) "down").
  { rewrite Hi, step_down_idx by exact Hr. rewrite render_spec.
    eexists. split; [by destruct m|].
    assert (E : items (set_idx (Num ((i + 1) mod Z.of_nat (length (items m))))
                  m) = items m) by (by destruct m).
    cbn [items]. rewrite E. apply Z.mod_pos_bound. lia. }
  destruct (String.eqb (name k) "return" || String.eqb (name k) "enter").
  { cbv zeta.
    destruct (exit_fields m (item_at (items (stop (cleanup m)))
                               (idx (stop (cleanup m)))))
      as (E1 & _ & E2 & _).
    exists i. by rewrite E1, E2. }
  destruct (String.eqb (name k) "escape"
            || String.eqb (name k) "c" && ctrl k); [|by exists i].
  destruct (exit_fields m VNull) as (E1 & _ & E2 & _).
  exists i. by rewrite E1, E2.
Qed.

Lemma idx_in_range_run m keys : idx_in_range m -> idx_in_range (run m keys).
Proof.
  revert m. induction keys as [|k keys IH]; intros m H; [done|].
  apply (IH (keypress m k)). by apply idx_in_range_keypress.
Qed.

Lemma idx_in_range_start env its title init :
  interactive env = true -> its <> [] ->
  idx_in_range (selectMenuInteractively env its title init).
Proof.
  unfold interactive. intros Henv Hne. unfold selectMenuInteractively.
  assert (E : negb (stdin_isTTY env) && negb (dev_tty_opens env) = false)
    by (destruct (stdin_isTTY env), (dev_tty_opens env); done).
  rewrite E, render_spec. eexists. split; [reflexivity|]. cbn [items].
  destruct its as [|s its]; [done|]. cbn [length]. lia.
Qed.

Lemma device_inv_keypress env its h m k :
  menu_inv its h m -> device_inv env its m ->
  device_inv env its (keypress m k).
Proof.
  intros (_ & _ & _ & _ & Hopen & _) Hd. unfold keypress.
  destruct (listening m) eqn:Hl; [|done].
  destruct (Hopen eq_refl) as (Hp & Hr & _ & _).
  pose proof Hd as Hd0.
  destruct Hd as (Hn & Ht & Hdo & _).
  destruct (Hdo Hl) as (Hraw & Hfl & Hown).
  assert (Hrender : forall v, device_inv env its (render (set_idx v m))).
  { intros v. rewrite render_spec. unfold device_inv.
    destruct m; cbn in *. subst. repeat split; try done. }
  assert (Hexit : forall v, device_inv env its (resolve v (stop (cleanup m)))).
  { intros v.
    destruct (exit_fields m v)
      as (_ & _ & _ & E1 & E2 & E3 & E4 & E5 & E6 & E7 & E8 & _).
    unfold device_inv. rewrite E1, E2, E3, E4, E5, E6, E7, E8.
    repeat split; try done.
    - by destruct (needClose m).
    - rewrite sink_app, sink_clears. cbn [fst]. lia. }
  destruct k as [k|]; [|exact Hd0]. cbn [onKeypress].
  destruct (String.eqb (name k) "up"); [apply Hrender|].
  destruct (String.eqb (name k) "down"); [apply Hrender|].
  destruct (String.eqb (name k) "return" || String.eqb (name k) "enter");
    [apply Hexit|].
  destruct (String.eqb (name k) "escape"
            || String.eqb (name k) "c" && ctrl k); [apply Hexit|].
  exact Hd0.
Qed.

Lemma device_inv_session env its title init keys :
  interactive env = true ->
  device_inv env its (run (selectMenuInteractively env its title init) keys).
Proof.
  intros Henv.
  assert (H0 : menu_inv its (c.cyan (c.bold title))
                 (selectMenuInteractively env its title init))
    by (by apply menu_inv_start).
  assert (D0 : device_inv env its (selectMenuInteractively env its title init)).
  { unfold interactive in Henv. unfold selectMenuInteractively.
    assert (E : negb (stdin_isTTY env) && negb (dev_tty_opens env) = false)
      by (destruct (stdin_isTTY env), (dev_tty_opens env); done).
    rewrite E, render_spec. unfold device_inv.
    cbn [needClose tty_open_calls listening isRaw flowing own_handle].
    repeat split; try done. by destruct (stdin_isTTY env). }
  revert H0 D0. generalize (selectMenuInteractively env its title init).
  induction keys as [|k keys IH]; intros m H0 D0; [done|].
  apply (IH (keypress m k)).
  - by apply menu_inv_keypress.
  - by eapply device_inv_keypress.
Qed.

End MoreInvariants.

(* ===================================================================== *)
(** ** C3: Enter picks the selected item and never renders again *)
(* ===================================================================== *)

Lemma keypress_enter_resolved (m : Menu) (k : Key) (i : nat) (s : string) :
  listening m = true ->
  resolved m = None ->
  idx m = Num (Z.of_nat i) ->
  items m !! i = Some s ->
  name k = "return" \/ name k = "enter" ->
  resolved (keypress m (Some k)) = Some (VStr s).
Proof.
  intros Hl Hres Hi Hs Hk. unfold keypress. rewrite Hl.
  rewrite (onKeypress_enter m k Hk).
  destruct (exit_fields m (item_at (items m) (idx m)))
    as (_ & _ & _ & _ & _ & _ & _ & _ & _ & _ & _ & Er).
  rewrite Er, Hres, Hi. cbn [default item_at].
  destruct (Z.ltb_spec (Z.of_nat i) 0) as [?|_]; [lia|].
  by rewrite Nat2Z.id, Hs.
Qed.

(** C3. In an open session whose selected index is [i], a Return or Enter
    key resolves the promise with Picked [items[i]]; the only output of
    the step is the erasure of the block rendered before (one
    cursor-up-and-clear per recorded line), no render pass is added, and
    no later key changes anything. *)
Theorem enter_resolves_picked (m : Menu) (k : Key) (i : nat) (s : string) :
  listening m = true ->
  resolved m = None ->
  idx m = Num (Z.of_nat i) ->
  items m !! i = Some s ->
  name k = "return" \/ name k = "enter" ->
  resolved (keypress m (Some k)) = Some (result_value (Picked s)) /\
  trace (keypress m (Some k))
    = trace m ++ replicate (renderedLines m) (Stderr CLEAR_SEQ) /\
  render_passes (trace (keypress m (Some k))) = render_passes (trace m) /\
  forall keys, run (keypress m (Some k)) keys = keypress m (Some k).
Proof.
  intros Hl Hres Hi Hs Hk.
  split; [by apply (keypress_enter_resolved m k i s)|].
  unfold keypress. rewrite Hl, (onKeypress_enter m k Hk).
  destruct (exit_fields m (item_at (items m) (idx m)))
    as (_ & _ & _ & _ & _ & El & _ & _ & _ & _ & Et & _).
  rewrite Et. repeat split.
  - unfold render_passes. by rewrite sink_app, sink_clears.
  - intros keys. by apply run_closed.
Qed.

Lemma enter_resolves_picked_witness :
  resolved (keypress (run scenario_start [DOWN; DOWN]) ENTER)
    = Some (result_value (Picked "dev")) /\
  trace (keypress (run scenario_start [DOWN; DOWN]) ENTER)
    = trace (run scenario_start [DOWN; DOWN])
        ++ replicate (renderedLines (run scenario_start [DOWN; DOWN]))
             (Stderr CLEAR_SEQ) /\
  render_passes (trace (keypress (run scenario_start [DOWN; DOWN]) ENTER))
    = render_passes (trace (run scenario_start [DOWN; DOWN])) /\
  forall keys,
    run (keypress (run scenario_start [DOWN; DOWN]) ENTER) keys
    = keypress (run scenario_start [DOWN; DOWN]) ENTER.
Proof.
  apply (enter_resolves_picked (run scenario_start [DOWN; DOWN])
           (mkKey "enter" false) 0 "dev").
  - reflexivity.
  - reflexivity.
  - reflexivity.
  - reflexivity.
  - right. reflexivity.
Defined.

(* ===================================================================== *)
(** ** C4: cancellation and cleanup on every exit path *)
(* ===================================================================== *)

Section ExitPaths.

(** A session on a terminal has rendered at least once. *)
Lemma passes_keypress m k :
  render_passes (trace m) <> [] -> render_passes (trace (keypress m k)) <> [].
Proof.
  intros Hne. unfold keypress.
  destruct (listening m); [|done].
  destruct k as [k|]; [|done]. cbn [onKeypress].
  assert (Hr : forall v, render_passes (trace (render (set_idx v m))) <> []).
  { intros v. unfold render_passes. rewrite sink_render.
    cbn [snd]. intros E. by apply app_eq_nil in E as [_ ?]. }
  assert (Hx : forall v,
            render_passes (trace (resolve v (stop (cleanup m)))) <> []).
  { intros v. unfold render_passes.
    change (trace (resolve v (stop (cleanup m)))) with (trace (cleanup m)).
    by rewrite sink_cleanup. }
  destruct (String.eqb (name k) "up"); [apply Hr|].
  destruct (String.eqb (name k) "down"); [apply Hr|].
  destruct (String.eqb (name k) "return" || String.eqb (name k) "enter");
    [apply Hx|].
  destruct (String.eqb (name k) "escape"
            || String.eqb (name k) "c" && ctrl k); [apply Hx|done].
Qed.

Lemma session_has_pass env its title init keys :
  interactive env = true ->
  render_passes (trace (run (selectMenuInteractively env its title init) keys))
  <> [].
Proof.
  intros Henv.
  assert (H0 : render_passes
                 (trace (selectMenuInteractively env its title init)) <> []).
  { unfold interactive in Henv. unfold selectMenuInteractively.
    assert (E : negb (stdin_isTTY env) && negb (dev_tty_opens env) = false)
      by (destruct (stdin_isTTY env), (dev_tty_opens env); done).
    rewrite E. unfold render_passes. rewrite sink_render. cbn [snd].
    intros E'. by apply app_eq_nil in E' as [_ ?]. }
  generalize dependent (selectMenuInteractively env its title init).
  induction keys as [|k keys IH]; intros m Hm; [done|].
  apply (IH (keypress m k)). by apply passes_keypress.
Qed.

End ExitPaths.

(** C4. The cleanup does not erase all the lines it rendered when a label
    holds a line feed; the defect is the one of C1, met on the way out.
    In the menu that [quickenv list] opens over the preset name [a<LF>b],
    Escape resolves the session with Cancelled, takes the input out of
    raw mode, removes the listener and resets the recorded count; but the
    only block written ended four lines on the terminal and [cleanup]
    emits three cursor-up-and-clear sequences, the length of the array
    [lines]: one rendered line is left on the screen. *)
Lemma cancel_multiline_label_defect :
  fst (cmdList (mkEnv true true) multiline_config [ESCAPE])
    = Some multiline_cancelled /\
  resolved multiline_cancelled = Some (result_value Cancelled) /\
  isRaw multiline_cancelled = false /\
  listening multiline_cancelled = false /\
  renderedLines multiline_cancelled = 0%nat /\
  map (fun p => (erased p, Str.lines_of (written p)))
      (render_passes (trace multiline_cancelled)) = [(0, 4)]%nat /\
  fst (sink (trace multiline_cancelled)) = 3%nat.
Proof. by vm_compute. Qed.

(** X29. Cancellation and cleanup of the menu selector. At any point of
    an open session an Escape key, or the key c with Ctrl held, resolves
    the promise with Cancelled. Whenever a session has ended (picked,
    cancelled, or no terminal at hand) the recorded line count is back to
    zero, the input is out of raw mode, the keypress listener is removed,
    and no handle opened by the selector is left open; in a session that
    rendered, the block written last is followed by one
    cursor-up-and-clear per entry of the array [lines], which is the
    number of lines the block ended less the line feeds embedded in the
    title and the labels; and in a session without a terminal nothing was
    rendered. *)
Theorem cancel_and_cleanup env its title init keys :
  let m := run (selectMenuInteractively env its title init) keys in
  (resolved m = None ->
   forall k, name k = "escape" \/ (name k = "c" /\ ctrl k = true) ->
     resolved (keypress m (Some k)) = Some (result_value Cancelled)) /\
  (resolved m <> None ->
   renderedLines m = 0%nat /\ isRaw m = false /\ listening m = false /\
   own_handle m = false /\
   (interactive env = true ->
      needClose m = negb (stdin_isTTY env) /\
      fst (sink (trace m)) = length (block_lines m) /\
      exists p, last (render_passes (trace m)) = Some p /\
                Str.lines_of (written p)
                = (fst (sink (trace m)) + embedded_lf title its)%nat) /\
   (interactive env = false ->
      render_passes (trace m) =
      [mkPass 0 (c.red "Non-interactive environment. Use command form instead."
                 +:+ Str.lf)])).
Proof.
  intros m. destruct (interactive env) eqn:Henv.
  - pose proof (session_inv env its title init keys Henv)
      as (Hit & _ & Hw & _ & Hopen & Hclosed).
    pose proof (device_inv_session env its title init keys Henv)
      as (Hn & _ & _ & Hd).
    pose proof (session_has_pass env its title init keys Henv) as Hne.
    fold m in Hit, Hw, Hopen, Hclosed, Hn, Hd, Hne. split.
    + intros Hres k Hk.
      destruct (listening m) eqn:Hl; [|by destruct (Hclosed eq_refl)].
      unfold keypress. rewrite Hl, (onKeypress_cancel m k Hk).
      destruct (exit_fields m VNull)
        as (_ & _ & _ & _ & _ & _ & _ & _ & _ & _ & _ & Er).
      by rewrite Er, Hres.
    + intros Hres.
      destruct (listening m) eqn:Hl.
      { destruct (Hopen eq_refl) as (_ & _ & _ & ?). done. }
      destruct (Hd eq_refl) as (? & ? & ? & ? & Hs).
      do 4 (split; [done|]). split; [|done]. intros _.
      split; [done|]. split.
      * rewrite Hs. unfold block_lines. cbn [length].
        rewrite length_app, length_imap, Hit. simpl. lia.
      * destruct (render_passes (trace m)) as [|p0 ps] using rev_ind;
          [done|]. clear IHps.
        exists p0. rewrite last_snoc. split; [done|].
        apply Forall_app in Hw as [_ Hw]. apply Forall_inv in Hw.
        rewrite Hw, Hs. unfold embedded_lf. rewrite lines_of_hdr. lia.
  - unfold m. rewrite session_no_terminal by done. split; [done|].
    intros _. repeat split; try done.
Qed.

Lemma cancel_and_cleanup_witness :
  resolved (keypress (run scenario_start [DOWN]) ESCAPE)
    = Some (result_value Cancelled) /\
  resolved (keypress (run scenario_start [DOWN]) CTRL_C)
    = Some (result_value Cancelled) /\
  isRaw (run scenario_start [DOWN; ESCAPE]) = false /\
  listening (run scenario_start [DOWN; ESCAPE]) = false /\
  fst (sink (trace (run scenario_start [DOWN; ESCAPE]))) = 5%nat.
Proof.
  pose proof (cancel_and_cleanup (mkEnv true true) scenario_items
                "Select a preset:" 1 [DOWN]) as [Hc _].
  pose proof (cancel_and_cleanup (mkEnv true true) scenario_items
                "Select a preset:" 1 [DOWN; ESCAPE]) as [_ He].
  split; [|split].
  - apply (Hc eq_refl (mkKey "escape" false)). left. reflexivity.
  - apply (Hc eq_refl (mkKey "c" true)). right. split; reflexivity.
  - assert (Hres : resolved (run scenario_start [DOWN; ESCAPE]) <> None)
      by (vm_compute; discriminate).
    destruct (He Hres) as (_ & Hraw & Hl & _ & Hi & _).
    destruct (Hi eq_refl) as (_ & Hs & _).
    split; [exact Hraw|]. split; [exact Hl|]. exact Hs.
Defined.

(* ===================================================================== *)
(** ** C6: the selector writes to the error stream only *)
(* ===================================================================== *)

Lemma no_stdout_keypress m k :
  Forall (fun e => is_stdout e = false) (trace m) ->
  Forall (fun e => is_stdout e = false) (trace (keypress m k)).
Proof.
  intros H. unfold keypress. destruct (listening m); [|done].
  assert (Hclear : forall n, Forall (fun e => is_stdout e = false)
                               (replicate n (Stderr CLEAR_SEQ))).
  { intros n. apply Forall_replicate. reflexivity. }
  assert (Hrender : forall v, Forall (fun e => is_stdout e = false)
                                (trace (render (set_idx v m)))).
  { intros v. rewrite render_spec. cbn [trace].
    replace (trace (set_idx v m)) with (trace m) by (by destruct m).
    apply Forall_app. split; [done|]. apply Forall_app. split; [done|].
    by constructor. }
  assert (Hexit : forall v, Forall (fun e => is_stdout e = false)
                              (trace (resolve v (stop (cleanup m))))).
  { intros v.
    destruct (exit_fields m v)
      as (_ & _ & _ & _ & _ & _ & _ & _ & _ & _ & Et & _).
    rewrite Et. apply Forall_app. by split. }
  destruct k as [k|]; [|done]. cbn [onKeypress].
  destruct (String.eqb (name k) "up"); [apply Hrender|].
  destruct (String.eqb (name k) "down"); [apply Hrender|].
  destruct (String.eqb (name k) "return" || String.eqb (name k) "enter");
    [apply Hexit|].
  destruct (String.eqb (name k) "escape"
            || String.eqb (name k) "c" && ctrl k); [apply Hexit|done].
Qed.

(** C6. In every session, whatever the environment, the labels and the
    keys, every write of the selector (title, labels, hint, cursor and
    erase sequences, and the report of a missing terminal) goes to the
    error stream; nothing is written to standard output. *)
Theorem stream_separation env its title init keys :
  Forall (fun e => is_stdout e = false)
    (trace (run (selectMenuInteractively env its title init) keys)) /\
  filter (fun e => is_stdout e = true)
    (trace (run (selectMenuInteractively env its title init) keys)) = [].
Proof.
  assert (H : Forall (fun e => is_stdout e = false)
    (trace (run (selectMenuInteractively env its title init) keys))).
  { assert (H0 : Forall (fun e => is_stdout e = false)
                   (trace (selectMenuInteractively env its title init))).
    { unfold selectMenuInteractively.
      destruct (negb (stdin_isTTY env) && negb (dev_tty_opens env)).
      - by repeat constructor.
      - rewrite render_spec. by repeat constructor. }
    revert H0. generalize (selectMenuInteractively env its title init).
    induction keys as [|k keys IH]; intros m H0; [done|].
    apply (IH (keypress m k)). by apply no_stdout_keypress. }
  split; [exact H|].
  induction H as [|e l He _ IH]; [done|].
  rewrite filter_cons_False; [exact IH|]. rewrite He. discriminate.
Qed.

(* ===================================================================== *)
(** ** C7: Down is cyclic *)
(* ===================================================================== *)

Lemma keypress_down_fields m i :
  listening m = true -> idx m = Num i ->
  0 <= i < Z.of_nat (length (items m)) ->
  listening (keypress m DOWN) = true /\
  items (keypress m DOWN) = items m /\
  resolved (keypress m DOWN) = resolved m /\
  idx (keypress m DOWN) = Num ((i + 1) mod Z.of_nat (length (items m))).
Proof.
  intros Hl Hi Hr. unfold keypress, DOWN.
  rewrite Hl, (onKeypress_down m (mkKey "down" false) eq_refl), Hi.
  rewrite step_down_idx by exact Hr. rewrite render_spec. by destruct m.
Qed.

Lemma keypress_up_fields m i :
  listening m = true -> idx m = Num i ->
  0 <= i < Z.of_nat (length (items m)) ->
  listening (keypress m UP) = true /\
  items (keypress m UP) = items m /\
  resolved (keypress m UP) = resolved m /\
  idx (keypress m UP) = Num ((i - 1 + Z.of_nat (length (items m)))
                             mod Z.of_nat (length (items m))).
Proof.
  intros Hl Hi Hr. unfold keypress, UP.
  rewrite Hl, (onKeypress_up m (mkKey "up" false) eq_refl), Hi.
  rewrite step_up_idx by exact Hr. rewrite render_spec. by destruct m.
Qed.

(** The index after [k] Down keys. *)
Lemma downs_idx k : forall m i,
  listening m = true -> idx m = Num i ->
  0 <= i < Z.of_nat (length (items m)) ->
  idx (run m (replicate k DOWN))
    = Num ((i + Z.of_nat k) mod Z.of_nat (length (items m))).
Proof.
  induction k as [|k IH]; intros m i Hl Hi Hr.
  - cbn [replicate run fold_left]. rewrite Hi, Z.add_0_r.
    by rewrite Z.mod_small.
  - change (run m (replicate (S k) DOWN))
      with (run (keypress m DOWN) (replicate k DOWN)).
    destruct (keypress_down_fields m i Hl Hi Hr) as (Hl' & Hit & _ & Hi').
    rewrite (IH _ _ Hl' Hi'); rewrite Hit.
    + f_equal. rewrite Zplus_mod_idemp_l. f_equal. lia.
    + apply Z.mod_pos_bound. lia.
Qed.

Lemma start_fields env its title init :
  interactive env = true ->
  let m0 := selectMenuInteractively env its title init in
  listening m0 = true /\ resolved m0 = None /\ items m0 = its /\
  idx m0 = Num (Z.max 0 (Z.min init (Z.max (Z.of_nat (length its) - 1) 0))).
Proof.
  unfold interactive. intros Henv. unfold selectMenuInteractively.
  assert (E : negb (stdin_isTTY env) && negb (dev_tty_opens env) = false)
    by (destruct (stdin_isTTY env), (dev_tty_opens env); done).
  by rewrite E, render_spec.
Qed.

(** C7. For a session on a terminal with a non-empty list and an initial
    index inside it, the session starts on that index and pressing Down
    as many times as there are labels returns to it. On a list of one
    label a single Up or Down leaves the index where it was, and Enter
    (pressed at once, or after such a key) resolves with Picked of that
    label. *)
Theorem down_is_cyclic env its title init :
  interactive env = true ->
  0 <= init < Z.of_nat (length its) ->
  let m0 := selectMenuInteractively env its title init in
  idx m0 = Num init /\
  idx (run m0 (replicate (length its) DOWN)) = Num init /\
  (forall s, its = [s] ->
     idx (run m0 [UP]) = idx m0 /\ idx (run m0 [DOWN]) = idx m0 /\
     resolved (run m0 [ENTER]) = Some (result_value (Picked s)) /\
     resolved (run m0 [UP; ENTER]) = Some (result_value (Picked s)) /\
     resolved (run m0 [DOWN; ENTER]) = Some (result_value (Picked s))).
Proof.
  intros Henv Hr m0.
  destruct (start_fields env its title init Henv) as (Hl & Hres & Hit & Hi).
  fold m0 in Hl, Hres, Hit, Hi.
  assert (Hi0 : idx m0 = Num init) by (rewrite Hi; f_equal; lia).
  assert (Hr0 : 0 <= init < Z.of_nat (length (items m0))) by (by rewrite Hit).
  split; [exact Hi0|]. split.
  - rewrite <- Hit at 1. rewrite (downs_idx _ m0 init Hl Hi0 Hr0).
    f_equal. rewrite <- (Z.add_0_l (Z.of_nat (length (items m0)))) at 1.
    rewrite Z.add_assoc, Z.add_0_r.
    rewrite <- (Z.mul_1_l (Z.of_nat (length (items m0)))) at 1.
    rewrite Z.mod_add by lia. by apply Z.mod_small.
  - intros s Hs.
    assert (Hinit : init = 0) by (rewrite Hs in Hr; simpl in Hr; lia).
    assert (Hn : Z.of_nat (length (items m0)) = 1) by (by rewrite Hit, Hs).
    destruct (keypress_up_fields m0 init Hl Hi0 Hr0) as (Ul & Uit & Ur & Ui).
    destruct (keypress_down_fields m0 init Hl Hi0 Hr0) as (Dl & Dit & Dr & Di).
    rewrite Hn, Hinit in Ui, Di. change ((0 - 1 + 1) mod 1) with 0 in Ui.
    change ((0 + 1) mod 1) with 0 in Di.
    assert (Hpick : forall m, listening m = true -> resolved m = None ->
              idx m = Num 0 -> items m = [s] ->
              resolved (keypress m ENTER) = Some (result_value (Picked s))).
    { intros m Ml Mr Mi Mit.
      apply (keypress_enter_resolved m (mkKey "enter" false) 0%nat s);
        try done.
      - by rewrite Mit.
      - by right. }
    cbn [run fold_left]. rewrite Ui, Di, Hi0, Hinit. repeat split.
    + apply Hpick; try done. { by rewrite Hi0, Hinit. } { by rewrite Hit. }
    + apply Hpick; try done. { by rewrite Ur. } { by rewrite Uit, Hit. }
    + apply Hpick; try done. { by rewrite Dr. } { by rewrite Dit, Hit. }
Qed.

Lemma down_is_cyclic_witness :
  idx scenario_start = Num 1 /\
  idx (run scenario_start (replicate 3 DOWN)) = Num 1 /\
  idx (run (selectMenuInteractively (mkEnv false true) ["only"] "Select:" 0)
         [UP]) = Num 0 /\
  resolved (run (selectMenuInteractively (mkEnv false true) ["only"]
                   "Select:" 0) [DOWN; ENTER])
    = Some (result_value (Picked "only")).
Proof.
  assert (R3 : 0 <= 1 < Z.of_nat (length scenario_items))
    by (simpl; lia).
  assert (R1 : 0 <= 0 < Z.of_nat (length ["only"])) by (simpl; lia).
  destruct (down_is_cyclic (mkEnv true true) scenario_items
              "Select a preset:" 1 eq_refl R3) as (A & B & _).
  destruct (down_is_cyclic (mkEnv false true) ["only"] "Select:" 0
              eq_refl R1) as (C & _ & D).
  destruct (D "only" eq_refl) as (E & _ & _ & _ & F).
  split; [exact A|]. split; [exact B|]. split; [|exact F].
  rewrite E. exact C.
Defined.

(* ===================================================================== *)
(** ** C8: the export text *)
(* ===================================================================== *)

Section ExportText.

Lemma append_assoc (a b d : string) : (a +:+ b) +:+ d = a +:+ (b +:+ d).
Proof.
  induction a as [|x a IH]; [reflexivity|].
  change (String x ((a +:+ b) +:+ d) = String x (a +:+ (b +:+ d))).
  by rewrite IH.
Qed.

Lemma lines_of_escape_quotes v :
  Str.lines_of (escape_quotes v) = Str.lines_of v.
Proof.
  unfold Str.lines_of. induction v as [|a v IH]; [done|].
  cbn [escape_quotes]. destruct (Ascii.eqb_spec a Str.QUOTE) as [->|_].
  - cbn. by rewrite IH.
  - cbn [Str.count]. by rewrite IH.
Qed.

Lemma key_chars_no_lf k :
  Str.forallb is_key_char k = true -> Str.lines_of k = 0%nat.
Proof.
  unfold Str.lines_of. induction k as [|a k IH]; [done|].
  cbn [Str.forallb Str.count]. intros H.
  apply andb_true_iff in H as [Ha Hk]. rewrite (IH Hk).
  destruct (Ascii.eqb_spec Str.LF a) as [<-|_]; [|done].
  by vm_compute in Ha.
Qed.

Lemma isValidKey_no_lf k : isValidKey k = true -> Str.lines_of k = 0%nat.
Proof.
  destruct k as [|a k]; [done|]. intros H. by apply key_chars_no_lf.
Qed.

(** A valid pair gives a statement that stays on one line. *)
Lemma export_line_one_line k v :
  isValidKey k = true -> hasNewline v = false ->
  Str.lines_of (export_line (k, v)) = 0%nat.
Proof.
  intros Hk Hv. unfold export_line, shellQuote. cbn [fst snd].
  rewrite !lines_of_app, lines_of_escape_quotes.
  rewrite (isValidKey_no_lf k Hk), (hasNewline_false_lines v Hv).
  reflexivity.
Qed.

Lemma export_text_statements vars :
  export_text vars = statements (map export_line vars).
Proof.
  unfold export_text. destruct vars as [|kv vars]; [done|].
  assert (Hne : forall l r, String.eqb (Str.join Str.lf (export_line l :: r)) ""
                            = false).
  { intros l r. by destruct r. }
  cbn [map]. rewrite Hne. clear Hne.
  revert kv. induction vars as [|kv' vars IH]; intros kv; [done|].
  cbn [map]. change (Str.join Str.lf (export_line kv :: export_line kv'
                                        :: map export_line vars))
    with (export_line kv +:+ Str.lf
          +:+ Str.join Str.lf (export_line kv' :: map export_line vars)).
  rewrite !append_assoc. cbn [statements]. f_equal. f_equal.
  apply (IH kv').
Qed.

Lemma append_cons a s t : String a s +:+ t = String a (s +:+ t).
Proof. reflexivity. Qed.

(** Reading a quoted value back gives the value. *)
Lemma sh_word_escape v : sh_word true (escape_quotes v +:+ "'") = Some v.
Proof.
  induction v as [|a v IH]; [done|].
  cbn [escape_quotes]. destruct (Ascii.eqb_spec a Str.QUOTE) as [->|Hne].
  - rewrite !append_cons. cbn [sh_word].
    rewrite !Ascii.eqb_refl. change (Ascii.eqb Str.BACKSLASH Str.QUOTE) with false.
    cbv iota. by rewrite IH.
  - rewrite append_cons. cbn [sh_word].
    destruct (Ascii.eqb_spec a Str.QUOTE) as [?|_]; [done|].
    by rewrite IH.
Qed.

Lemma sh_word_shellQuote v : sh_word false (shellQuote v) = Some v.
Proof. unfold shellQuote. cbn. apply sh_word_escape. Qed.

End ExportText.

(** C8. For validated pairs (every key matches [^[A-Z0-9_]+$], no value
    holds a carriage return or line feed) the export text is the
    statements [export KEY='value';] of the pairs in order, each closed by
    one line feed and none containing one, so there is exactly one
    statement per line; each value is wrapped in single quotes with every
    embedded single quote written as quote, backslash, quote, quote, and a
    shell reading the quoted word gets the value back. *)
Theorem shell_export_format (vars : list (string * string)) :
  all_valid vars = true ->
  export_text vars = statements (map export_line vars) /\
  Str.lines_of (export_text vars) = length vars /\
  Forall (fun kv =>
            export_line kv
              = "export " +:+ fst kv +:+ "='" +:+ escape_quotes (snd kv)
                  +:+ "';" /\
            Str.lines_of (export_line kv) = 0%nat /\
            sh_word false (shellQuote (snd kv)) = Some (snd kv)) vars /\
  (forall a v,
     escape_quotes (String a v) =
     (if Ascii.eqb a Str.QUOTE then "'\''" else String a "")
       +:+ escape_quotes v).
Proof.
  intros Hv.
  assert (Hall : Forall (fun kv => isValidKey (fst kv) = true
                                   /\ hasNewline (snd kv) = false) vars).
  { unfold all_valid in Hv. rewrite forallb_forall in Hv.
    apply Forall_forall. intros kv Hin. apply list_elem_of_In in Hin.
    specialize (Hv kv Hin). apply andb_true_iff in Hv as [? Hn].
    split; [done|]. by apply negb_true_iff in Hn. }
  split; [apply export_text_statements|]. split; [|split].
  - rewrite export_text_statements. clear Hv.
    induction Hall as [|[k v] l [Hk Hn] _ IH]; [done|].
    cbn [map statements length]. rewrite !lines_of_app, IH.
    rewrite (export_line_one_line k v Hk Hn). reflexivity.
  - eapply Forall_impl; [exact Hall|]. intros [k v] [Hk Hn]. cbn [fst snd].
    split; [|split].
    + unfold export_line, shellQuote. cbn [fst snd].
      by rewrite !append_assoc.
    + by apply export_line_one_line.
    + apply sh_word_shellQuote.
  - intros a v. cbn [escape_quotes]. by destruct (Ascii.eqb a Str.QUOTE).
Qed.

Lemma shell_export_format_witness :
  export_text scenario_vars
    = "export API_URL='https://api.example.com';" +:+ Str.lf
      +:+ "export GREETING='it'\''s me';" +:+ Str.lf /\
  Str.lines_of (export_text scenario_vars) = 2%nat.
Proof.
  destruct (shell_export_format scenario_vars eq_refl) as (H1 & H2 & _).
  split; [|exact H2]. rewrite H1. reflexivity.
Defined.

(* ===================================================================== *)
(** ** C9: the config store *)
(* ===================================================================== *)

Section StoreFacts.

Variable CONFIG_DIR : string.
Variable JSON_parse : string -> option json.
Variable JSON_stringify : Config -> string.
Variables (now pid : N).

Lemma length_append (a b : string) :
  String.length (a +:+ b) = (String.length a + String.length b)%nat.
Proof.
  induction a as [|x a IH]; [reflexivity|].
  rewrite append_cons. cbn [String.length]. by rewrite IH.
Qed.

(** The temporary file is never the target. *)
Lemma tmp_path_fresh : tmp_path CONFIG_DIR now pid <> CONFIG_PATH CONFIG_DIR.
Proof.
  unfold tmp_path, CONFIG_PATH. intros E.
  apply (inj (String.append CONFIG_DIR)) in E.
  apply (f_equal String.length) in E.
  rewrite !length_append in E. cbn [String.length] in E. lia.
Qed.

Lemma readConfig_corrupted w raw :
  files w !! CONFIG_PATH CONFIG_DIR = Some raw ->
  Str.is_blank raw = false ->
  (JSON_parse raw = None \/
   exists v, JSON_parse raw = Some v /\ is_object v = false) ->
  readConfig CONFIG_DIR JSON_parse w =
  (Exit 1,
   mkWorld (files w) (fslog w ++ [Mkdir CONFIG_DIR])
     (out w ++ [console_error ("Config file is corrupted or unreadable: "
                               +:+ CONFIG_PATH CONFIG_DIR);
                console_error "Please back up and fix the JSON, then retry."])).
Proof.
  intros Hf Hb Hp. unfold readConfig, bind, ensureDir, mkdirSync.
  cbn [files]. rewrite Hf, Hb.
  destruct Hp as [Hp|(v & Hp & Hv)]; rewrite Hp, ?Hv; cbn [negb];
    unfold report_corrupted, bind, emit, process_exit; cbn [files fslog out];
    by rewrite <- app_assoc.
Qed.

Lemma readConfig_blank w raw :
  files w !! CONFIG_PATH CONFIG_DIR = Some raw ->
  Str.is_blank raw = true ->
  readConfig CONFIG_DIR JSON_parse w =
  (Ret defaultConfig, mkWorld (files w) (fslog w ++ [Mkdir CONFIG_DIR]) (out w)).
Proof.
  intros Hf Hb. unfold readConfig, bind, ensureDir, mkdirSync.
  cbn [files]. by rewrite Hf, Hb.
Qed.

Lemma writeConfig_spec cfg w :
  let tmp := tmp_path CONFIG_DIR now pid in
  let data := JSON_stringify cfg +:+ Str.lf in
  writeConfig CONFIG_DIR JSON_stringify now pid cfg w =
  (Ret tt,
   mkWorld (<[CONFIG_PATH CONFIG_DIR := data]>
              (delete tmp (<[tmp := data]> (files w))))
     (fslog w ++ [Mkdir CONFIG_DIR; WriteFile tmp data;
                  Rename tmp (CONFIG_PATH CONFIG_DIR)])
     (out w)).
Proof.
  intros tmp data.
  unfold writeConfig, bind, ensureDir, mkdirSync, writeFileSync, renameSync.
  cbn [files fslog out]. fold tmp. fold data.
  rewrite lookup_insert_eq. by rewrite <- !app_assoc.
Qed.

End StoreFacts.

(** C9 (as amended). Loading a config file whose content is not blank and
    is malformed ([JSON.parse] throws on it, or the parsed value is not an
    object) reports the two lines of the corruption error on the error
    stream and exits with status 1, returning no configuration; a file
    whose content is blank (empty or white space only) loads as the
    default configuration. Saving writes the serialized config to a
    temporary path, different from the target, and then renames it over
    the target: after it the target holds the serialized config, the
    temporary file is gone and every other file is as before. *)
Theorem config_store_load_and_save
    (CONFIG_DIR : string) (JSON_parse : string -> option json)
    (JSON_stringify : Config -> string) (now pid : N) :
  let target := CONFIG_PATH CONFIG_DIR in
  let tmp := tmp_path CONFIG_DIR now pid in
  (forall w raw,
     files w !! target = Some raw ->
     Str.is_blank raw = false ->
     (JSON_parse raw = None \/
      exists v, JSON_parse raw = Some v /\ is_object v = false) ->
     exists w',
       readConfig CONFIG_DIR JSON_parse w = (Exit 1, w') /\
       files w' = files w /\
       out w' = out w ++
         [console_error ("Config file is corrupted or unreadable: "
                         +:+ target);
          console_error "Please back up and fix the JSON, then retry."]) /\
  (forall w raw,
     files w !! target = Some raw ->
     Str.is_blank raw = true ->
     exists w',
       readConfig CONFIG_DIR JSON_parse w = (Ret defaultConfig, w') /\
       files w' = files w /\ out w' = out w) /\
  (forall cfg w,
     let data := JSON_stringify cfg +:+ Str.lf in
     exists w',
       writeConfig CONFIG_DIR JSON_stringify now pid cfg w = (Ret tt, w') /\
       tmp <> target /\
       fslog w' = fslog w ++ [Mkdir CONFIG_DIR; WriteFile tmp data;
                              Rename tmp target] /\
       files w' !! target = Some data /\
       files w' !! tmp = None /\
       (forall p, p <> target -> p <> tmp -> files w' !! p = files w !! p) /\
       out w' = out w).
Proof.
  intros target tmp. split; [|split].
  - intros w raw Hf Hb Hp. eexists. split.
    + by apply readConfig_corrupted with (raw := raw).
    + done.
  - intros w raw Hf Hb. eexists. split.
    + by apply readConfig_blank with (raw := raw).
    + done.
  - intros cfg w data. eexists. split; [apply writeConfig_spec|].
    assert (Hne : tmp <> target) by apply tmp_path_fresh.
    cbn [files fslog out]. repeat split; try done.
    + apply lookup_insert_eq.
    + rewrite lookup_insert_ne by done. apply lookup_delete_eq.
    + intros p Hp1 Hp2. rewrite lookup_insert_ne by done.
      rewrite lookup_delete_ne by done. by rewrite lookup_insert_ne.
Qed.

Lemma config_store_load_and_save_witness :
  (exists w',
     readConfig example_dir example_parse broken_world = (Exit 1, w') /\
     files w' = files broken_world /\
     out w' = out broken_world ++
       [console_error ("Config file is corrupted or unreadable: "
                       +:+ CONFIG_PATH example_dir);
        console_error "Please back up and fix the JSON, then retry."]) /\
  (exists w',
     readConfig example_dir example_parse blank_world
       = (Ret defaultConfig, w') /\
     files w' = files blank_world /\ out w' = out blank_world).
Proof.
  destruct (config_store_load_and_save example_dir example_parse
              example_stringify 1700000000000 4242) as (Hbad & Hblank & _).
  split.
  - apply (Hbad broken_world "{ envs: {").
    + reflexivity.
    + reflexivity.
    + left. reflexivity.
  - apply (Hblank blank_world ("  " +:+ Str.lf)).
    + reflexivity.
    + reflexivity.
Defined.

(** C9 as stated fails on a blank file: its content is not JSON (the
    parser is not even asked), and still the load returns the default
    configuration and reports nothing. *)
Lemma blank_config_counterexample :
  files blank_world !! CONFIG_PATH example_dir = Some ("  " +:+ Str.lf) /\
  example_parse ("  " +:+ Str.lf) = None /\
  fst (readConfig example_dir example_parse blank_world) = Ret defaultConfig /\
  out (snd (readConfig example_dir example_parse blank_world)) = [].
Proof. repeat split. Qed.

(* ===================================================================== *)
(** ** C10: [cmdUse] validates before it acts *)
(* ===================================================================== *)

Section UseFacts.

Variable CONFIG_DIR : string.
Variable JSON_stringify : Config -> string.
Variables (now pid : N).

Lemma bind_exit {A B} (p : Proc A) (k : A -> Proc B) w code w' :
  p w = (Exit code, w') -> bind p k w = (Exit code, w').
Proof. intros E. unfold bind. by rewrite E. Qed.

Lemma bind_ret {A B} (p : Proc A) (k : A -> Proc B) w a w' :
  p w = (Ret a, w') -> bind p k w = k a w'.
Proof. intros E. unfold bind. by rewrite E. Qed.

Lemma stdout_of_app es1 es2 :
  stdout_of (es1 ++ es2) = stdout_of es1 ++ stdout_of es2.
Proof. unfold stdout_of. apply filter_app. Qed.

Lemma validate_ok vars w :
  all_valid vars = true -> validate vars w = (Ret tt, w).
Proof.
  induction vars as [|[k v] vars IH]; [done|].
  cbn [all_valid forallb fst snd validate]. intros H.
  apply andb_true_iff in H as [H1 H2].
  apply andb_true_iff in H1 as [Hk Hv]. apply negb_true_iff in Hv.
  rewrite Hk, Hv. cbn [negb]. by apply IH.
Qed.

(** A failing pair ends the process with status 1 after writes to the
    error stream only. *)
Lemma validate_fail vars w :
  all_valid vars = false ->
  exists errs,
    validate vars w = (Exit 1, mkWorld (files w) (fslog w) (out w ++ errs)) /\
    stdout_of errs = [].
Proof.
  induction vars as [|[k v] vars IH]; [done|].
  cbn [all_valid forallb fst snd validate]. intros H.
  destruct (isValidKey k) eqn:Hk; cbn [negb].
  - destruct (hasNewline v) eqn:Hv.
    + eexists. unfold bind, emit, process_exit. cbn [files fslog out].
      rewrite <- app_assoc. split; [reflexivity|reflexivity].
    + apply IH. exact H.
  - eexists. unfold bind, emit, process_exit. cbn [files fslog out].
    split; [reflexivity|reflexivity].
Qed.

(** A preset of the config is what [cfg.envs[name]] finds. *)
Lemma lookup_preset_own cfg n vars :
  assoc n (envs cfg) = Some vars -> lookup_preset cfg n = Some vars.
Proof. intros H. unfold lookup_preset. by rewrite H. Qed.

Lemma export_line_explicit kv :
  export_line kv
    = "export " +:+ fst kv +:+ "='" +:+ escape_quotes (snd kv) +:+ "';".
Proof. unfold export_line, shellQuote. by rewrite !append_assoc. Qed.

Lemma export_text_explicit vars :
  export_text vars
    = statements
        (map (fun kv => "export " +:+ fst kv +:+ "='"
                          +:+ escape_quotes (snd kv) +:+ "';") vars).
Proof.
  rewrite export_text_statements. f_equal. apply map_ext.
  intros kv. apply export_line_explicit.
Qed.

Lemma export_text_line_count vars :
  all_valid vars = true -> Str.lines_of (export_text vars) = length vars.
Proof.
  rewrite export_text_statements.
  induction vars as [|[k v] vars IH]; [done|].
  cbn [all_valid forallb fst snd]. intros H.
  apply andb_true_iff in H as [H1 H2].
  apply andb_true_iff in H1 as [Hk Hv]. apply negb_true_iff in Hv.
  cbn [map statements length]. rewrite !lines_of_app, (IH H2).
  rewrite (export_line_one_line k v Hk Hv). reflexivity.
Qed.

(** Choosing the name touches neither the files nor the file system. *)
Lemma choose_name_frame cfg name sel w r w1 :
  choose_name cfg name sel w = (r, w1) ->
  files w1 = files w /\ fslog w1 = fslog w.
Proof.
  unfold choose_name. destruct (name_given name) as [n|].
  { intros [= <- <-]. done. }
  destruct (sort_strings (keys_of (envs cfg))) as [|n0 ns].
  { unfold bind, emit, process_exit. intros [= <- <-]. done. }
  unfold bind, emit_all, emit, process_exit, ret.
  destruct (session_value sel) as [| |p]; try (intros [= <- <-]; done).
  destruct (String.eqb p ""); intros [= <- <-]; done.
Qed.

End UseFacts.

(** C10. Let [n] be the preset name that [cmdUse] settles on (given on the
    command line or picked in the menu) and let it exist in the loaded
    config. If some pair of the preset fails validation (a key outside
    [^[A-Z0-9_]+$] or a value with a carriage return or line feed), the
    process exits with status 1, no file is written or renamed, and
    nothing reaches standard output. Only when every pair passes does it
    store the config with [current] set to [n] (temporary file, then
    rename) and then write the export lines to standard output: one
    write holding, for each pair of the preset in order, the statement
    [export KEY='value';] (every single quote of the value written as
    quote, backslash, quote, quote) closed by a line feed, as many lines
    as the preset has pairs. *)
Theorem use_is_atomic
    (CONFIG_DIR : string) (JSON_stringify : Config -> string) (now pid : N)
    (cfg : Config) (name : option string) (sel : Awaited)
    (n : string) (vars : list (string * string)) (w w1 : World) :
  choose_name cfg name sel w = (Ret n, w1) ->
  assoc n (envs cfg) = Some vars ->
  let run_use := cmdUse CONFIG_DIR JSON_stringify now pid cfg name sel w in
  let target := CONFIG_PATH CONFIG_DIR in
  let tmp := tmp_path CONFIG_DIR now pid in
  let data := JSON_stringify (mkConfig (Some n) (envs cfg)) +:+ Str.lf in
  (all_valid vars = false ->
     fst run_use = Exit 1 /\
     files (snd run_use) = files w /\
     fslog (snd run_use) = fslog w /\
     stdout_of (out (snd run_use)) = stdout_of (out w1)) /\
  (all_valid vars = true ->
     fst run_use = Ret tt /\
     fslog (snd run_use) = fslog w ++ [Mkdir CONFIG_DIR; WriteFile tmp data;
                                       Rename tmp target] /\
     files (snd run_use) !! target = Some data /\
     out (snd run_use) = out w1 ++ [Stdout (export_text vars)] /\
     out (snd run_use)
       = out w1
         ++ [Stdout (statements
                       (map (fun kv => "export " +:+ fst kv +:+ "='"
                                         +:+ escape_quotes (snd kv) +:+ "';")
                            vars))] /\
     Str.lines_of (export_text vars) = length vars).
Proof.
  intros Hn Hvars run_use target tmp data.
  destruct (choose_name_frame cfg name sel w _ _ Hn) as [Hf Hl].
  assert (Erun : run_use =
            use_preset CONFIG_DIR JSON_stringify now pid cfg n w1).
  { unfold run_use, cmdUse, bind. by rewrite Hn. }
  rewrite Erun. unfold use_preset.
  rewrite (lookup_preset_own cfg n vars Hvars). split.
  - intros Hbad. destruct (validate_fail vars w1 Hbad) as (errs & Hv & He).
    rewrite (bind_exit _ _ _ _ _ Hv). cbn [fst snd files fslog out].
    rewrite stdout_of_app, He, app_nil_r. done.
  - intros Hok. rewrite (bind_ret _ _ _ _ _ (validate_ok vars w1 Hok)).
    rewrite (bind_ret _ _ _ _ _ (writeConfig_spec CONFIG_DIR JSON_stringify
                                   now pid _ w1)).
    unfold emit. cbn [fst snd files fslog out].
    fold tmp. fold target. fold data.
    rewrite Hl. split; [done|]. split; [done|].
    split; [apply lookup_insert_eq|]. split; [done|].
    split; [by rewrite <- export_text_explicit|].
    by apply export_text_line_count.
Qed.

Lemma use_is_atomic_witness :
  (fst (cmdUse example_dir example_stringify 1700000000000 4242
          example_config (Some "bad") no_session empty_world) = Exit 1 /\
   files (snd (cmdUse example_dir example_stringify 1700000000000 4242
                 example_config (Some "bad") no_session empty_world)) = ∅ /\
   stdout_of (out (snd (cmdUse example_dir example_stringify 1700000000000
                          4242 example_config (Some "bad") no_session
                          empty_world))) = []) /\
  (fst (cmdUse example_dir example_stringify 1700000000000 4242
          example_config (Some "dev") no_session empty_world) = Ret tt /\
   out (snd (cmdUse example_dir example_stringify 1700000000000 4242
               example_config (Some "dev") no_session empty_world))
     = [Stdout ("export API_URL='https://api.example.com';" +:+ Str.lf
                +:+ "export GREETING='it'\''s me';" +:+ Str.lf)]).
Proof.
  split.
  - destruct (use_is_atomic example_dir example_stringify 1700000000000 4242
                example_config (Some "bad") no_session "bad"
                [("OK", "1"); ("lower", "x"); ("B", "2")]
                empty_world empty_world eq_refl eq_refl) as [Hbad _].
    destruct (Hbad eq_refl) as (H1 & H2 & _ & H4). by repeat split.
  - destruct (use_is_atomic example_dir example_stringify 1700000000000 4242
                example_config (Some "dev") no_session "dev" scenario_vars
                empty_world empty_world eq_refl eq_refl) as [_ Hok].
    destruct (Hok eq_refl) as (H1 & _ & _ & _ & H5 & _).
    split; [exact H1|exact H5].
Defined.

(* ===================================================================== *)
(** ** C5: no terminal at hand *)
(* ===================================================================== *)

Section Fallback.

Lemma insert_sorted_not_nil x l : insert_sorted x l <> [].
Proof. destruct l as [|y l]; cbn; [done|]. by destruct (Str.js_leb x y). Qed.

Lemma sort_strings_not_nil l : l <> [] -> sort_strings l <> [].
Proof.
  destruct l as [|x l]; [done|]. intros _. cbn [sort_strings foldr].
  apply insert_sorted_not_nil.
Qed.

Lemma insert_sorted_In x y l : In y (insert_sorted x l) <-> y = x \/ In y l.
Proof.
  induction l as [|z l IH]; cbn [insert_sorted In]; [intuition congruence|].
  destruct (Str.js_leb x z); cbn [In]; [intuition congruence|].
  rewrite IH. intuition congruence.
Qed.

Lemma sort_strings_In y l : In y (sort_strings l) <-> In y l.
Proof.
  unfold sort_strings. induction l as [|x l IH]; [done|].
  cbn [foldr In]. rewrite insert_sorted_In, IH. intuition congruence.
Qed.

Lemma insert_sorted_length x l :
  length (insert_sorted x l) = S (length l).
Proof.
  induction l as [|z l IH]; [done|]. cbn [insert_sorted].
  destruct (Str.js_leb x z); [done|]. cbn [length]. by rewrite IH.
Qed.

Lemma sort_strings_length l : length (sort_strings l) = length l.
Proof.
  unfold sort_strings. induction l as [|x l IH]; [done|].
  cbn [foldr length]. by rewrite insert_sorted_length, IH.
Qed.

(** The order of [sort] is total: of two strings one comes first. *)
Lemma js_compare_antisym s t :
  Str.js_compare t s = CompOpp (Str.js_compare s t).
Proof.
  revert t. induction s as [|a s IH]; intros [|b t]; try reflexivity.
  cbn [Str.js_compare]. rewrite (Nat.compare_antisym (Str.js_rank a)).
  destruct (Nat.compare (Str.js_rank a) (Str.js_rank b)); cbn [CompOpp];
    [apply IH|reflexivity|reflexivity].
Qed.

Lemma js_leb_total s t : Str.js_leb s t = false -> Str.js_leb t s = true.
Proof.
  unfold Str.js_leb. rewrite (js_compare_antisym s t).
  by destruct (Str.js_compare s t).
Qed.

Lemma insert_sorted_perm x l : Permutation (insert_sorted x l) (x :: l).
Proof.
  induction l as [|y l IH]; [done|]. cbn [insert_sorted].
  destruct (Str.js_leb x y); [done|].
  rewrite IH. apply perm_swap.
Qed.

Lemma sort_strings_perm l : Permutation (sort_strings l) l.
Proof.
  unfold sort_strings. induction l as [|x l IH]; [done|].
  cbn [foldr]. rewrite insert_sorted_perm. by constructor.
Qed.

Lemma insert_sorted_sorted x l :
  Sorted (fun a b => Str.js_leb a b = true) l ->
  Sorted (fun a b => Str.js_leb a b = true) (insert_sorted x l).
Proof.
  induction 1 as [|y l Hs IH Hhd]; [by repeat constructor|].
  cbn [insert_sorted]. destruct (Str.js_leb x y) eqn:E.
  - constructor; [by constructor|by constructor].
  - constructor; [exact IH|].
    destruct l as [|z l]; cbn [insert_sorted].
    + constructor. by apply js_leb_total.
    + destruct (Str.js_leb x z).
      * constructor. by apply js_leb_total.
      * constructor. by inversion Hhd.
Qed.

Lemma sort_strings_sorted l :
  Sorted (fun a b => Str.js_leb a b = true) (sort_strings l).
Proof.
  unfold sort_strings. induction l as [|x l IH]; [constructor|].
  cbn [foldr]. by apply insert_sorted_sorted.
Qed.

(** The line of a preset in the plain list, written out. *)
Lemma preset_line_explicit cfg n :
  preset_line cfg n
  = let count := pretty (length (default [] (assoc n (envs cfg)))) in
    if bool_decide (current cfg = Some n)
    then " " +:+ c.green "★" +:+ " " +:+ c.green (c.bold n) +:+ " "
           +:+ c.dim ("[" +:+ count +:+ " · current]")
    else " " +:+ c.gray "•" +:+ " " +:+ n +:+ " "
           +:+ c.dim ("[" +:+ count +:+ "]").
Proof.
  unfold preset_line. cbv zeta.
  destruct (current cfg) as [cur|].
  - destruct (String.eqb_spec cur n) as [->|Hne].
    + rewrite bool_decide_eq_true_2 by done.
      cbn [Str.join]. do 5 f_equal. by rewrite !append_assoc.
    + rewrite bool_decide_eq_false_2 by congruence. reflexivity.
  - rewrite bool_decide_eq_false_2 by done. reflexivity.
Qed.

Lemma plain_list_explicit cfg names :
  plain_list cfg names
  = Stdout ((c.cyan (c.bold "Presets") +:+ " "
             +:+ c.dim ("(" +:+ pretty (length names) +:+ ")")) +:+ Str.lf)
    :: map (fun n =>
              let count := pretty (length (default [] (assoc n (envs cfg)))) in
              Stdout ((if bool_decide (current cfg = Some n)
                       then " " +:+ c.green "★" +:+ " " +:+ c.green (c.bold n)
                              +:+ " "
                              +:+ c.dim ("[" +:+ count +:+ " · current]")
                       else " " +:+ c.gray "•" +:+ " " +:+ n +:+ " "
                              +:+ c.dim ("[" +:+ count +:+ "]"))
                      +:+ Str.lf))
           names.
Proof.
  unfold plain_list. f_equal. apply map_ext. intros n.
  by rewrite preset_line_explicit.
Qed.

Lemma stdout_of_logs {A} (f : A -> string) l :
  stdout_of (map (fun a => console_log (f a)) l)
  = map (fun a => console_log (f a)) l.
Proof.
  unfold stdout_of. induction l as [|a l IH]; [done|].
  cbn [map]. rewrite filter_cons_True by done. by rewrite IH.
Qed.

Lemma stdout_of_plain_list cfg names :
  stdout_of (plain_list cfg names) = plain_list cfg names.
Proof.
  unfold plain_list, stdout_of. rewrite filter_cons_True by done.
  f_equal. apply (stdout_of_logs (preset_line cfg)).
Qed.

End Fallback.

(** C5. When standard input is not a terminal the selector calls
    [fs.openSync] on [/dev/tty] exactly once, whatever happens later. If
    that fails too, the session is over at once and for good: it has
    reported the non-interactive environment on the error stream, the
    promise is resolved with [null] (the cancellation outcome), no key
    changes anything and no second open is tried. [cmdList], called with
    presets in the config, then prints the plain list on standard output:
    the heading with the number of presets, and one line per preset name,
    in the order of [sort] (UTF-16 code units), with a star, the name in
    bold green and the mark [current] for the current preset, a bullet
    and the bare name for the others, and the number of variables of the
    preset in brackets. *)
Theorem non_interactive_fallback env its title init keys cfg :
  stdin_isTTY env = false ->
  let m := run (selectMenuInteractively env its title init) keys in
  let report :=
    Stderr (c.red "Non-interactive environment. Use command form instead."
            +:+ Str.lf) in
  tty_open_calls m = 1%nat /\
  (dev_tty_opens env = false ->
     m = selectMenuInteractively env its title init /\
     resolved m = Some (result_value Cancelled) /\
     trace m = [report] /\
     listening m = false /\ isRaw m = false /\ own_handle m = false /\
     (envs cfg <> [] ->
        let names := sort_strings (keys_of (envs cfg)) in
        let listing :=
          Stdout ((c.cyan (c.bold "Presets") +:+ " "
                   +:+ c.dim ("(" +:+ pretty (length (envs cfg)) +:+ ")"))
                  +:+ Str.lf)
          :: map (fun n =>
                    let count :=
                      pretty (length (default [] (assoc n (envs cfg)))) in
                    Stdout ((if bool_decide (current cfg = Some n)
                             then " " +:+ c.green "★" +:+ " "
                                    +:+ c.green (c.bold n) +:+ " "
                                    +:+ c.dim ("[" +:+ count +:+ " · current]")
                             else " " +:+ c.gray "•" +:+ " " +:+ n +:+ " "
                                    +:+ c.dim ("[" +:+ count +:+ "]"))
                            +:+ Str.lf))
                 names in
        snd (cmdList env cfg keys) = report :: listing /\
        stdout_of (snd (cmdList env cfg keys)) = listing /\
        length listing = S (length (envs cfg)) /\
        Permutation names (keys_of (envs cfg)) /\
        Sorted (fun a b => Str.js_leb a b = true) names)).
Proof.
  intros Hin m report. split.
  - destruct (interactive env) eqn:Henv.
    + destruct (device_inv_session env its title init keys Henv)
        as (_ & Ht & _). fold m in Ht. by rewrite Hin in Ht.
    + unfold m. by rewrite session_no_terminal.
  - intros Hopen.
    assert (Henv : interactive env = false)
      by (unfold interactive; by rewrite Hin, Hopen).
    unfold m. rewrite session_no_terminal by done.
    split.
    { unfold selectMenuInteractively. by rewrite Hin, Hopen. }
    do 5 (split; [done|]).
    intros Hne. set (names := sort_strings (keys_of (envs cfg))).
    match goal with |- _ = report :: ?l /\ _ => set (listing := l) end.
    assert (Hlen : length names = length (envs cfg)).
    { unfold names. rewrite sort_strings_length. unfold keys_of.
      apply length_map. }
    assert (El : plain_list cfg names = listing).
    { rewrite plain_list_explicit. unfold listing. by rewrite Hlen. }
    assert (Ec : snd (cmdList env cfg keys) = report :: listing).
    { unfold cmdList. fold names.
      destruct names as [|n0 ns] eqn:En; [by destruct (envs cfg)|].
      rewrite session_no_terminal by done.
      cbn [resolved truthy negb snd trace result_value].
      rewrite El. reflexivity. }
    split; [exact Ec|]. split; [|split; [|split]].
    + rewrite Ec, <- El.
      change (stdout_of (report :: plain_list cfg names))
        with (stdout_of (plain_list cfg names)).
      apply stdout_of_plain_list.
    + unfold listing. cbn [length]. by rewrite length_map, Hlen.
    + apply sort_strings_perm.
    + apply sort_strings_sorted.
Qed.

Lemma non_interactive_fallback_witness :
  tty_open_calls (run (selectMenuInteractively (mkEnv false false)
                         ["bad"; "dev"] "Select a preset:" 0) [DOWN; ENTER])
    = 1%nat /\
  resolved (run (selectMenuInteractively (mkEnv false false)
                   ["bad"; "dev"] "Select a preset:" 0) [DOWN; ENTER])
    = Some (result_value Cancelled) /\
  snd (cmdList (mkEnv false false) unicode_config [DOWN; ENTER])
    = [Stderr (c.red "Non-interactive environment. Use command form instead."
               +:+ Str.lf);
       Stdout (c.cyan (c.bold "Presets") +:+ " " +:+ c.dim "(3)" +:+ Str.lf);
       Stdout (" " +:+ c.gray "•" +:+ " dev " +:+ c.dim "[2]" +:+ Str.lf);
       Stdout (" " +:+ c.green "★" +:+ " " +:+ c.green (c.bold "😀") +:+ " "
               +:+ c.dim "[0 · current]" +:+ Str.lf);
       Stdout (" " +:+ c.gray "•" +:+ " ～ " +:+ c.dim "[1]" +:+ Str.lf)].
Proof.
  destruct (non_interactive_fallback (mkEnv false false) ["bad"; "dev"]
              "Select a preset:" 0 [DOWN; ENTER] unicode_config eq_refl)
    as [H1 H2].
  destruct (H2 eq_refl) as (_ & H3 & _ & _ & _ & _ & H4).
  split; [exact H1|]. split; [exact H3|].
  assert (Hne : envs unicode_config <> []) by discriminate.
  destruct (H4 Hne) as (H5 & _). exact H5.
Defined.

(* ===================================================================== *)
(** * Further properties of the selectors *)
(* ===================================================================== *)

(** X1. A key event without a key object, and a key that is none of up,
    down, return, enter, escape and ctrl+c, changes nothing: no index
    change, no write, no render pass. *)
Theorem other_keys_ignored (m : Menu) (key : option Key) :
  (key = None \/ exists k, key = Some k /\ handled k = false) ->
  keypress m key = m /\
  forall n : nat, run m (replicate n key) = m.
Proof.
  intros Hk.
  assert (E : keypress m key = m).
  { unfold keypress. destruct (listening m); [|done].
    destruct Hk as [->|(k & -> & Hh)]; [done|].
    unfold handled in Hh. cbn [onKeypress].
    destruct (String.eqb (name k) "up"); [done|].
    destruct (String.eqb (name k) "down"); [done|].
    destruct (String.eqb (name k) "return"); [done|].
    destruct (String.eqb (name k) "enter"); [done|].
    destruct (String.eqb (name k) "escape"); [done|].
    cbn [orb] in *. by rewrite Hh. }
  split; [exact E|].
  induction n as [|n IH]; [done|].
  cbn [replicate run fold_left]. rewrite E. exact IH.
Qed.

Lemma other_keys_ignored_witness :
  keypress scenario_start (Some (mkKey "tab" false)) = scenario_start /\
  keypress scenario_start (Some (mkKey "c" false)) = scenario_start.
Proof.
  split.
  - apply (other_keys_ignored scenario_start (Some (mkKey "tab" false))).
    right. exists (mkKey "tab" false). split; reflexivity.
  - apply (other_keys_ignored scenario_start (Some (mkKey "c" false))).
    right. exists (mkKey "c" false). split; reflexivity.
Defined.

Section Sessions.

(** The facts below hold of any start state [m0] that satisfies the
    invariants, so they serve both selectors. *)

Lemma resolved_ok_keypress its m k :
  items m = its -> idx_in_range m -> resolved_ok its m ->
  resolved_ok its (keypress m k).
Proof.
  intros Hit (i & Hi & Hr) Hok. unfold keypress.
  destruct (listening m); [|done].
  destruct k as [k|]; [|done]. cbn [onKeypress].
  assert (Hrender : forall v, resolved_ok its (render (set_idx v m))).
  { intros v. rewrite render_spec. unfold resolved_ok in *. cbn [resolved].
    by destruct m. }
  assert (Hexit : forall v,
    (v = VNull \/ exists s, v = VStr s /\ In s its) ->
    resolved_ok its (resolve v (stop (cleanup m)))).
  { intros v Hv.
    destruct (exit_fields m v)
      as (_ & _ & _ & _ & _ & _ & _ & _ & _ & _ & _ & Er).
    unfold resolved_ok in *. rewrite Er.
    destruct (resolved m) as [old|]; cbn [default]; done. }
  destruct (String.eqb (name k) "up"); [apply Hrender|].
  destruct (String.eqb (name k) "down"); [apply Hrender|].
  destruct (String.eqb (name k) "return" || String.eqb (name k) "enter").
  { cbv zeta.
    destruct (exit_fields m VNull) as (E1 & _ & E2 & _).
    assert (E1' : items (stop (cleanup m)) = items m)
      by (rewrite cleanup_spec; by destruct m).
    assert (E2' : idx (stop (cleanup m)) = idx m)
      by (rewrite cleanup_spec; by destruct m).
    rewrite E1', E2'. apply Hexit. right.
    rewrite Hi. cbn [item_at].
    destruct (Z.ltb_spec i 0) as [?|_]; [lia|].
    destruct (items m !! Z.to_nat i) as [s|] eqn:Es.
    - exists s. split; [done|]. rewrite <- Hit.
      apply list_elem_of_In. by eapply list_elem_of_lookup_2.
    - apply lookup_ge_None in Es. lia. }
  destruct (String.eqb (name k) "escape"
            || String.eqb (name k) "c" && ctrl k); [|done].
  apply Hexit. by left.
Qed.

Lemma items_keypress m k : items (keypress m k) = items m.
Proof.
  unfold keypress. destruct (listening m); [|done].
  destruct k as [k|]; [|done]. cbn [onKeypress].
  destruct (String.eqb (name k) "up");
    [rewrite render_spec; by destruct m|].
  destruct (String.eqb (name k) "down");
    [rewrite render_spec; by destruct m|].
  destruct (String.eqb (name k) "return" || String.eqb (name k) "enter").
  { cbv zeta. by destruct (exit_fields m (item_at (items (stop (cleanup m)))
                                            (idx (stop (cleanup m)))))
      as (E1 & _). }
  destruct (String.eqb (name k) "escape"
            || String.eqb (name k) "c" && ctrl k); [|done].
  by destruct (exit_fields m VNull) as (E1 & _).
Qed.

Lemma resolved_ok_run its keys : forall m,
  items m = its -> idx_in_range m -> resolved_ok its m ->
  resolved_ok its (run m keys).
Proof.
  induction keys as [|k keys IH]; intros m Hit Hi Hok; [done|].
  apply (IH (keypress m k)).
  - by rewrite items_keypress.
  - by apply idx_in_range_keypress.
  - by apply resolved_ok_keypress.
Qed.

Lemma device_inv_run env its h keys : forall m,
  menu_inv its h m -> device_inv env its m ->
  device_inv env its (run m keys).
Proof.
  induction keys as [|k keys IH]; intros m Hm Hd; [done|].
  apply (IH (keypress m k)).
  - by apply menu_inv_keypress.
  - by eapply device_inv_keypress.
Qed.

Lemma no_stdout_run keys : forall m,
  Forall (fun e => is_stdout e = false) (trace m) ->
  Forall (fun e => is_stdout e = false) (trace (run m keys)).
Proof.
  induction keys as [|k keys IH]; intros m H; [done|].
  apply (IH (keypress m k)). by apply no_stdout_keypress.
Qed.

End Sessions.

(** X2. The promise of a menu session is settled once: when it is
    resolved after some keys, no further key changes the value, the
    output or anything else of the session. *)
Theorem session_resolves_once env its title init keys keys' v :
  resolved (run (selectMenuInteractively env its title init) keys) = Some v ->
  run (selectMenuInteractively env its title init) (keys ++ keys')
  = run (selectMenuInteractively env its title init) keys.
Proof.
  intros Hres. rewrite run_app. apply run_closed.
  destruct (interactive env) eqn:Henv.
  - destruct (session_inv env its title init keys Henv)
      as (_ & _ & _ & _ & Hopen & _).
    destruct (listening (run (selectMenuInteractively env its title init) keys))
      eqn:Hl; [|done].
    destruct (Hopen eq_refl) as (_ & _ & _ & Hn). congruence.
  - by rewrite session_no_terminal.
Qed.

Lemma session_resolves_once_witness :
  run scenario_start ([DOWN; ESCAPE] ++ [UP; ENTER])
  = run scenario_start [DOWN; ESCAPE].
Proof.
  apply (session_resolves_once (mkEnv true true) scenario_items
           "Select a preset:" 1 [DOWN; ESCAPE] [UP; ENTER] VNull).
  reflexivity.
Defined.

(** X3. While a menu session is open (the promise is pending) the input
    is in raw mode, flowing, and the keypress listener is registered; a
    terminal handle opened by the selector is held exactly when standard
    input is not a terminal, and [/dev/tty] was opened once in that case
    and never otherwise. *)
Theorem open_session_holds_terminal env its title init keys :
  let m := run (selectMenuInteractively env its title init) keys in
  resolved m = None ->
  isRaw m = true /\ flowing m = true /\ listening m = true /\
  own_handle m = negb (stdin_isTTY env) /\
  tty_open_calls m = (if stdin_isTTY env then 0 else 1)%nat /\
  renderedLines m = (length its + 2)%nat.
Proof.
  intros m Hres. destruct (interactive env) eqn:Henv.
  - destruct (session_inv env its title init keys Henv)
      as (_ & _ & _ & _ & Hopen & Hclosed).
    destruct (device_inv_session env its title init keys Henv)
      as (Hn & Ht & Hdo & _).
    fold m in Hopen, Hclosed, Hn, Ht, Hdo.
    destruct (listening m) eqn:Hl; [|by destruct (Hclosed eq_refl)].
    destruct (Hdo eq_refl) as (? & ? & Ho).
    destruct (Hopen eq_refl) as (_ & ? & _).
    rewrite Ho, Hn. done.
  - unfold m in Hres. by rewrite session_no_terminal in Hres.
Qed.

Lemma open_session_holds_terminal_witness :
  isRaw (run (selectMenuInteractively (mkEnv false true) scenario_items
                "Select:" 0) [DOWN]) = true /\
  own_handle (run (selectMenuInteractively (mkEnv false true) scenario_items
                     "Select:" 0) [DOWN]) = true.
Proof.
  destruct (open_session_holds_terminal (mkEnv false true) scenario_items
              "Select:" 0 [DOWN] eq_refl) as (H1 & _ & _ & H2 & _).
  split; [exact H1 | exact H2].
Defined.

(** X4. A menu session on a non-empty list never resolves with
    [undefined]: whatever the initial index and the keys, the value is
    [null] or one of the labels. *)
Theorem session_resolves_with_item env its title init keys v :
  its <> [] ->
  resolved (run (selectMenuInteractively env its title init) keys) = Some v ->
  v = VNull \/ exists s, v = VStr s /\ In s its.
Proof.
  intros Hne Hres. destruct (interactive env) eqn:Henv.
  - destruct (start_fields env its title init Henv) as (_ & Hr0 & Hit & _).
    assert (H : resolved_ok its
                  (run (selectMenuInteractively env its title init) keys)).
    { apply resolved_ok_run; [exact Hit| |].
      - by apply idx_in_range_start.
      - unfold resolved_ok. by rewrite Hr0. }
    unfold resolved_ok in H. by rewrite Hres in H.
  - rewrite session_no_terminal in Hres by done.
    injection Hres as <-. by left.
Qed.

Lemma session_resolves_with_item_witness :
  VStr "staging" = VNull \/ exists s, VStr "staging" = VStr s /\ In s scenario_items.
Proof.
  apply (session_resolves_with_item (mkEnv true true) scenario_items
           "Select a preset:" 7 [UP; UP; DOWN; RETURN] (VStr "staging")).
  - discriminate.
  - reflexivity.
Defined.

(** X5. The initial index is clamped into the list: on a terminal and
    with a non-empty list, a negative [initialIndex] starts on the first
    label, one past the end starts on the last, and any other starts
    where it says. *)
Theorem initial_index_is_clamped env its title init :
  interactive env = true -> its <> [] ->
  let n := Z.of_nat (length its) in
  exists i,
    idx (selectMenuInteractively env its title init) = Num i /\
    0 <= i < n /\
    (init < 0 -> i = 0) /\ (n <= init -> i = n - 1) /\
    (0 <= init < n -> i = init).
Proof.
  intros Henv Hne n.
  destruct (start_fields env its title init Henv) as (_ & _ & _ & Hi).
  assert (0 < n) by (unfold n; destruct its; [done|simpl; lia]).
  eexists. split; [exact Hi|]. fold n. lia.
Qed.

Lemma initial_index_is_clamped_witness :
  exists i,
    idx (selectMenuInteractively (mkEnv true true) scenario_items "Select:" 9)
      = Num i /\
    0 <= i < 3 /\ (9 < 0 -> i = 0) /\ (3 <= 9 -> i = 3 - 1) /\
    (0 <= 9 < 3 -> i = 9).
Proof.
  apply (initial_index_is_clamped (mkEnv true true) scenario_items
           "Select:" 9 eq_refl).
  discriminate.
Defined.

(** X6. The empty list is not guarded against: on a terminal a session on
    no labels renders title and hint only, every arrow key leaves it
    open, and Enter resolves with [undefined] (neither a label nor
    [null]). *)
Theorem empty_list_resolves_undefined env title init keys :
  interactive env = true ->
  let m := run (selectMenuInteractively env [] title init) keys in
  resolved m = None ->
  renderedLines m = 2%nat /\
  resolved (keypress m ENTER) = Some VUndefined /\
  resolved (keypress m RETURN) = Some VUndefined /\
  idx (keypress m UP) = NaN /\ idx (keypress m DOWN) = NaN.
Proof.
  intros Henv m Hres.
  destruct (session_inv env [] title init keys Henv)
    as (Hit & _ & _ & _ & Hopen & Hclosed). fold m in Hit, Hopen, Hclosed.
  destruct (listening m) eqn:Hl; [|by destruct (Hclosed eq_refl)].
  destruct (Hopen eq_refl) as (_ & Hr & _).
  assert (Hitem : forall x, item_at [] x = VUndefined).
  { intros [z|]; [|done]. cbn. by destruct (z <? 0). }
  assert (Hent : forall k, name k = "return" \/ name k = "enter" ->
            resolved (keypress m (Some k)) = Some VUndefined).
  { intros k Hk. unfold keypress. rewrite Hl, (onKeypress_enter m k Hk).
    destruct (exit_fields m (item_at (items m) (idx m)))
      as (_ & _ & _ & _ & _ & _ & _ & _ & _ & _ & _ & Er).
    by rewrite Er, Hres, Hit, Hitem. }
  split; [exact Hr|].
  split; [apply Hent; by right|]. split; [apply Hent; by left|].
  unfold keypress, UP, DOWN. rewrite Hl.
  rewrite (onKeypress_up m (mkKey "up" false) eq_refl).
  rewrite (onKeypress_down m (mkKey "down" false) eq_refl).
  rewrite !render_spec, Hit. cbn [idx length Z.of_nat].
  split.
  - destruct m as [? ? [z|] ? ? ? ? ? ? ? ? ?]; reflexivity.
  - destruct m as [? ? [z|] ? ? ? ? ? ? ? ? ?]; reflexivity.
Qed.

Lemma empty_list_resolves_undefined_witness :
  resolved (keypress (run (selectMenuInteractively (mkEnv true true) []
                             "Select:" 0) [DOWN; UP]) ENTER)
    = Some VUndefined.
Proof.
  destruct (empty_list_resolves_undefined (mkEnv true true) "Select:" 0
              [DOWN; UP] eq_refl eq_refl) as (_ & H & _).
  exact H.
Defined.

(* ===================================================================== *)
(** ** The preset selector *)
(* ===================================================================== *)

Section PresetSelector.

Lemma indexOf_range l x : -1 <= indexOf l x < Z.of_nat (length l).
Proof.
  induction l as [|y l IH]; [simpl; lia|].
  cbn [indexOf length]. destruct (String.eqb y x); [lia|].
  destruct (Z.ltb_spec (indexOf l x) 0); lia.
Qed.

Lemma indexOf_In l x :
  In x l -> 0 <= indexOf l x /\ l !! Z.to_nat (indexOf l x) = Some x.
Proof.
  induction l as [|y l IH]; [done|]. intros Hin. cbn [indexOf].
  destruct (String.eqb_spec y x) as [->|Hne]; [done|].
  destruct Hin as [?|Hin]; [done|]. destruct (IH Hin) as [H0 Hl].
  destruct (Z.ltb_spec (indexOf l x) 0) as [?|_]; [lia|].
  split; [lia|]. rewrite Z2Nat.inj_add by lia.
  rewrite Nat.add_comm. exact Hl.
Qed.

Lemma indexOf_not_In l x : ~ In x l -> indexOf l x = -1.
Proof.
  induction l as [|y l IH]; [done|]. intros Hn. cbn [indexOf].
  destruct (String.eqb_spec y x) as [->|Hne]; [destruct Hn; by left|].
  rewrite IH; [done|]. intros ?. apply Hn. by right.
Qed.

(** The first render of either selector establishes the invariants. *)
Lemma first_render_inv env its h x :
  let opened := negb (stdin_isTTY env) in
  let m0 := render (mkMenu its h x 0 opened (if opened then 1 else 0)%nat
                      opened true true true None []) in
  menu_inv its h m0 /\ device_inv env its m0 /\
  Forall (fun e => is_stdout e = false) (trace m0) /\
  listening m0 = true /\ resolved m0 = None /\ items m0 = its /\ idx m0 = x.
Proof.
  intros opened m0. unfold m0. split; [|split; [|split]].
  - unfold menu_inv, render_passes. rewrite sink_render, render_spec.
    cbn [items hdr listening renderedLines resolved trace
      fst snd sink fold_left app tail written erased].
    repeat split; try done.
    constructor; [|constructor]. cbn [written].
    rewrite lines_of_block_text. cbn [items hdr]. lia.
  - rewrite render_spec. unfold device_inv.
    cbn [needClose tty_open_calls listening isRaw flowing own_handle].
    repeat split; try done. unfold opened. by destruct (stdin_isTTY env).
  - rewrite render_spec. by repeat constructor.
  - by rewrite render_spec.
Qed.

Lemma preset_start env names current :
  interactive env = true ->
  selectPresetInteractively env names current =
  render (mkMenu names (c.cyan (c.bold "Select a preset:"))
            (Num (Z.max 0 (match current with
                           | Some cur => if String.eqb cur "" then 0
                                         else indexOf names cur
                           | None => 0
                           end)))
            0 (negb (stdin_isTTY env))
            (if negb (stdin_isTTY env) then 1 else 0)%nat
            (negb (stdin_isTTY env)) true true true None []).
Proof.
  unfold interactive. intros Henv. unfold selectPresetInteractively.
  assert (E : negb (stdin_isTTY env) && negb (dev_tty_opens env) = false)
    by (destruct (stdin_isTTY env), (dev_tty_opens env); done).
  rewrite E.
  destruct (Z.eqb_spec (Z.max 0 (match current with
                                 | Some cur => if String.eqb cur "" then 0
                                               else indexOf names cur
                                 | None => 0
                                 end)) (-1)) as [?|_]; [lia|done].
Qed.

Lemma preset_no_terminal env names current keys :
  interactive env = false ->
  run (selectPresetInteractively env names current) keys =
  mkMenu names "" (Num 0) 0 false 1 false false false false (Some VNull)
    [NON_INTERACTIVE_USE].
Proof.
  unfold interactive. intros H. apply orb_false_iff in H as [H1 H2].
  unfold selectPresetInteractively. rewrite H1, H2. cbn [negb andb].
  by apply run_closed.
Qed.

End PresetSelector.

(** X7. On a terminal the preset menu opens on the current preset when it
    is one of the names, so that Enter alone picks it again; with no
    current preset, or one that is not among the names, it opens on the
    first name. *)
Theorem preset_menu_opens_on_current env names current :
  interactive env = true -> names <> [] ->
  let m0 := selectPresetInteractively env names current in
  idx_in_range m0 /\
  (forall cur, current = Some cur -> cur <> "" -> In cur names ->
     item_at names (idx m0) = VStr cur /\
     resolved (keypress m0 ENTER) = Some (VStr cur)) /\
  (current = None \/ current = Some "" \/
   (exists cur, current = Some cur /\ ~ In cur names) ->
   idx m0 = Num 0).
Proof.
  intros Henv Hne m0. unfold m0. rewrite (preset_start _ _ _ Henv).
  set (i0 := Z.max 0 _).
  destruct (first_render_inv env names (c.cyan (c.bold "Select a preset:"))
              (Num i0)) as (_ & _ & _ & Hl & Hr & Hit & Hi).
  assert (Hrange : 0 <= i0 < Z.of_nat (length names)).
  { unfold i0. destruct names as [|n0 ns]; [done|].
    destruct current as [cur|]; [|cbn [length]; lia].
    destruct (String.eqb cur ""); [cbn [length]; lia|].
    pose proof (indexOf_range (n0 :: ns) cur). cbn [length] in *. lia. }
  split; [|split].
  - exists i0. rewrite Hit. by split.
  - intros cur -> Hcur Hin. rewrite Hi.
    assert (E : i0 = indexOf names cur).
    { unfold i0. destruct (String.eqb_spec cur ""); [done|].
      destruct (indexOf_In names cur Hin). lia. }
    destruct (indexOf_In names cur Hin) as [H0 Hlk].
    assert (Hitem : item_at names (Num i0) = VStr cur).
    { cbn [item_at]. rewrite E.
      destruct (Z.ltb_spec (indexOf names cur) 0) as [?|_]; [lia|].
      by rewrite Hlk. }
    split; [exact Hitem|].
    apply (keypress_enter_resolved _ (mkKey "enter" false)
             (Z.to_nat i0) cur); try done.
    + rewrite Hi. f_equal. lia.
    + rewrite Hit, E. exact Hlk.
    + by right.
  - intros H. rewrite Hi. f_equal. unfold i0.
    destruct H as [->|[->|(cur & -> & Hn)]]; [done|done|].
    destruct (String.eqb cur ""); [done|].
    rewrite (indexOf_not_In _ _ Hn). done.
Qed.

Lemma preset_menu_opens_on_current_witness :
  resolved (keypress (selectPresetInteractively (mkEnv true true)
                        scenario_items (Some "prod")) ENTER)
    = Some (VStr "prod") /\
  idx (selectPresetInteractively (mkEnv true true) scenario_items
         (Some "gone")) = Num 0.
Proof.
  assert (Hne : scenario_items <> []) by discriminate.
  destruct (preset_menu_opens_on_current (mkEnv true true) scenario_items
              (Some "prod") eq_refl Hne) as (_ & H1 & _).
  destruct (preset_menu_opens_on_current (mkEnv true true) scenario_items
              (Some "gone") eq_refl Hne) as (_ & _ & H2).
  split.
  - apply (H1 "prod" eq_refl); [discriminate|].
    right. right. left. reflexivity.
  - apply H2. right. right. exists "gone". split; [reflexivity|].
    intros [H|[H|[H|[]]]]; discriminate.
Defined.

(** X8. The preset selector keeps the discipline of the menu selector:
    in every session it writes to the error stream only; once the promise
    is resolved the recorded line count is zero, raw mode is off, the
    listener is removed and no handle of its own is left open; with a
    non-empty list it resolves with [null] or one of the names; and
    without a terminal it has tried [/dev/tty] once, reported that a name
    must be given, and resolved with [null] whatever the keys. *)
Theorem preset_selector_discipline env names current keys :
  let m := run (selectPresetInteractively env names current) keys in
  Forall (fun e => is_stdout e = false) (trace m) /\
  (resolved m <> None ->
     renderedLines m = 0%nat /\ isRaw m = false /\ listening m = false /\
     own_handle m = false) /\
  (names <> [] -> forall v, resolved m = Some v ->
     v = VNull \/ exists s, v = VStr s /\ In s names) /\
  (interactive env = false ->
     resolved m = Some VNull /\ trace m = [NON_INTERACTIVE_USE] /\
     tty_open_calls m = 1%nat).
Proof.
  intros m. destruct (interactive env) eqn:Henv.
  - unfold m. rewrite (preset_start _ _ _ Henv).
    set (i0 := Z.max 0 _). set (h := c.cyan (c.bold "Select a preset:")).
    destruct (first_render_inv env names h (Num i0))
      as (Hm & Hd & Hs & Hl & Hr & Hit & Hi).
    set (m0 := render _) in *.
    pose proof (menu_inv_run names h m0 keys Hm)
      as (_ & _ & _ & _ & Hopen & _).
    pose proof (device_inv_run env names h keys m0 Hm Hd) as (_ & _ & _ & Hdc).
    split; [by apply no_stdout_run|]. split; [|split; [|done]].
    + intros Hres. destruct (listening (run m0 keys)) eqn:El.
      { destruct (Hopen eq_refl) as (_ & _ & _ & ?). done. }
      destruct (Hdc eq_refl) as (? & ? & ? & ? & _). done.
    + intros Hne v Hv.
      assert (Hok : resolved_ok names (run m0 keys)).
      { apply resolved_ok_run; [exact Hit| |].
        - exists i0. rewrite Hi, Hit. split; [done|].
          unfold i0. destruct names as [|n0 ns]; [done|].
          destruct current as [cur|]; [|cbn [length]; lia].
          destruct (String.eqb cur ""); [cbn [length]; lia|].
          pose proof (indexOf_range (n0 :: ns) cur). cbn [length] in *. lia.
        - unfold resolved_ok. by rewrite Hr. }
      unfold resolved_ok in Hok. by rewrite Hv in Hok.
  - unfold m. rewrite preset_no_terminal by done.
    split; [by repeat constructor|]. split; [done|]. split; [|done].
    intros _ v [= <-]. by left.
Qed.

Lemma preset_selector_discipline_witness :
  isRaw (run (selectPresetInteractively (mkEnv false true) scenario_items
                None) [DOWN; ENTER]) = false /\
  own_handle (run (selectPresetInteractively (mkEnv false true)
                     scenario_items None) [DOWN; ENTER]) = false.
Proof.
  destruct (preset_selector_discipline (mkEnv false true) scenario_items
              None [DOWN; ENTER]) as (_ & H & _).
  assert (Hres : resolved (run (selectPresetInteractively (mkEnv false true)
                                  scenario_items None) [DOWN; ENTER]) <> None)
    by (vm_compute; discriminate).
  destruct (H Hres) as (_ & H1 & _ & H2). split; [exact H1 | exact H2].
Defined.

(* ===================================================================== *)
(** * Strings: quoting, stripping, padding *)
(* ===================================================================== *)

Section Stripping.

Lemma csi_params_le s n : csi_params s = Some n -> (n <= String.length s)%nat.
Proof.
  revert n. induction s as [|a s IH]; intros n; [done|].
  cbn [csi_params String.length].
  destruct (Ascii.eqb a "m"); [intros [= <-]; lia|].
  destruct (is_digit a || Ascii.eqb a ";"); [|done].
  destruct (csi_params s) as [k|]; [|done].
  intros [= <-]. specialize (IH k eq_refl). lia.
Qed.

Lemma csi_len_le s n : csi_len s = Some n -> (n <= String.length s)%nat.
Proof.
  destruct s as [|a s]; [done|]. cbn [csi_len String.length].
  destruct (Ascii.eqb a "["); [|done].
  destruct (csi_params s) as [k|] eqn:E; [|done].
  intros [= <-]. apply csi_params_le in E. lia.
Qed.

Lemma csi_params_app s t :
  boundary t -> csi_params (s +:+ t) = csi_params s.
Proof.
  intros Ht. induction s as [|a s IH].
  - cbn [String.append]. destruct Ht as [->|(r & ->)]; reflexivity.
  - rewrite append_cons. cbn [csi_params]. by rewrite IH.
Qed.

Lemma csi_len_app s t :
  boundary t -> s <> "" -> csi_len (s +:+ t) = csi_len s.
Proof.
  intros Ht Hs. destruct s as [|a s]; [done|].
  rewrite append_cons. cbn [csi_len]. by rewrite csi_params_app.
Qed.

Lemma strip_go_app t : boundary t -> forall s k,
  (k <= String.length s)%nat ->
  strip_go k (s +:+ t) = strip_go k s +:+ strip_go 0 t.
Proof.
  intros Ht. induction s as [|a s IH]; intros k Hk.
  - cbn [String.length] in Hk. assert (k = 0%nat) as -> by lia. reflexivity.
  - rewrite append_cons. cbn [strip_go String.length] in *.
    destruct k as [|k]; [|apply IH; lia].
    destruct (Ascii.eqb a Str.ESC).
    + destruct s as [|b s].
      * cbn [String.append csi_len strip_go].
        destruct Ht as [->|(r & ->)]; reflexivity.
      * rewrite csi_len_app by done.
        destruct (csi_len (String b s)) as [n|] eqn:En.
        -- apply IH. by apply csi_len_le.
        -- rewrite IH by lia. reflexivity.
    + rewrite IH by lia. reflexivity.
Qed.

Lemma stripAnsi_app s t :
  boundary t -> stripAnsi (s +:+ t) = stripAnsi s +:+ stripAnsi t.
Proof. intros Ht. apply strip_go_app; [done|lia]. Qed.

Lemma append_empty_r s : s +:+ "" = s.
Proof.
  induction s as [|a s IH]; [done|]. rewrite append_cons. by rewrite IH.
Qed.

Lemma stripAnsi_no_esc s :
  Str.count Str.ESC s = 0%nat -> stripAnsi s = s.
Proof.
  unfold stripAnsi. induction s as [|a s IH]; [done|].
  cbn [Str.count strip_go]. rewrite Ascii.eqb_sym.
  destruct (Ascii.eqb a Str.ESC); [done|]. intros H. by rewrite IH.
Qed.

Lemma key_chars_count a k :
  is_key_char a = false ->
  Str.forallb is_key_char k = true -> Str.count a k = 0%nat.
Proof.
  intros Ha. induction k as [|b k IH]; [done|].
  cbn [Str.forallb Str.count]. intros H.
  apply andb_true_iff in H as [Hb Hk]. rewrite (IH Hk).
  destruct (Ascii.eqb_spec a b) as [<-|_]; [congruence|done].
Qed.

End Stripping.

(** X9. The table [c] has nine helpers: bold and dim wrap a text in the
    sequences 1 and 2, both closed by 22; red, green, yellow, blue,
    magenta, cyan and gray wrap it in 31, 32, 33, 34, 35, 36 and 90, all
    closed by 39. [stripAnsi] undoes every one of them: for every text
    [s], stripping [f s] gives what stripping [s] gives; and a text
    without an ESC character is left as it is. So a plain label comes
    back unchanged however it was styled. *)
Theorem stripAnsi_undoes_colors (s : string) :
  map (fun f : string -> string => f s)
      [c.bold; c.dim; c.red; c.green; c.yellow; c.blue; c.magenta; c.cyan;
       c.gray]
    = map (fun p : string * string =>
             Str.esc +:+ "[" +:+ fst p +:+ "m" +:+ s
               +:+ Str.esc +:+ "[" +:+ snd p +:+ "m")
          [("1", "22"); ("2", "22"); ("31", "39"); ("32", "39");
           ("33", "39"); ("34", "39"); ("35", "39"); ("36", "39");
           ("90", "39")] /\
  (forall f,
     In f [c.bold; c.dim; c.red; c.green; c.yellow; c.blue; c.magenta;
           c.cyan; c.gray] ->
     stripAnsi (f s) = stripAnsi s) /\
  (Str.count Str.ESC s = 0%nat ->
     stripAnsi s = s /\
     stripAnsi (c.cyan (c.bold s)) = s /\ stripAnsi (c.green (c.bold s)) = s).
Proof.
  assert (Hwrap : forall t op cl,
            stripAnsi cl = "" -> boundary cl ->
            (forall r, strip_go 0 (op +:+ r) = strip_go 0 r) ->
            stripAnsi (_color op cl t) = stripAnsi t).
  { intros t op cl Hcl Hb Hop. unfold _color, stripAnsi.
    rewrite Hop. fold (stripAnsi (t +:+ cl)).
    rewrite stripAnsi_app by done. rewrite Hcl. apply append_empty_r. }
  assert (Hall : forall t f,
    In f [c.bold; c.dim; c.red; c.green; c.yellow; c.blue; c.magenta;
          c.cyan; c.gray] ->
    stripAnsi (f t) = stripAnsi t).
  { intros t f Hf. cbn [In] in Hf.
    destruct Hf as [<-|[<-|[<-|[<-|[<-|[<-|[<-|[<-|[<-|[]]]]]]]]]];
      (apply Hwrap;
       [reflexivity | right; eexists; reflexivity | intros r; reflexivity]). }
  split; [reflexivity|]. split; [apply Hall|]. intros Hs.
  pose proof (stripAnsi_no_esc s Hs) as E.
  split; [exact E|]. split.
  - rewrite (Hall _ c.cyan) by (cbn; tauto).
    rewrite (Hall _ c.bold) by (cbn; tauto). exact E.
  - rewrite (Hall _ c.green) by (cbn; tauto).
    rewrite (Hall _ c.bold) by (cbn; tauto). exact E.
Qed.

Lemma stripAnsi_undoes_colors_witness :
  stripAnsi "Back" = "Back" /\ stripAnsi (c.cyan (c.bold "Back")) = "Back".
Proof.
  destruct (stripAnsi_undoes_colors "Back") as (_ & _ & H).
  destruct (H eq_refl) as (H1 & H2 & _). split; [exact H1 | exact H2].
Defined.

(** X10. [shellQuote] loses nothing: for every string, also one with line
    breaks, quotes or backslashes, a shell reading the quoted word gets
    the string back; hence different values never quote alike, and the
    quoted word is never empty. *)
Theorem shellQuote_round_trip (v v' : string) :
  sh_word false (shellQuote v) = Some v /\
  (shellQuote v = shellQuote v' -> v = v') /\
  (2 <= String.length (shellQuote v))%nat.
Proof.
  split; [apply sh_word_shellQuote|]. split.
  - intros E. pose proof (sh_word_shellQuote v) as H.
    rewrite E, sh_word_shellQuote in H. congruence.
  - unfold shellQuote. rewrite !length_append. cbn [String.length]. lia.
Qed.

Lemma shellQuote_round_trip_witness :
  sh_word false (shellQuote ("it's" +:+ Str.lf +:+ "me"))
    = Some ("it's" +:+ Str.lf +:+ "me") /\
  (shellQuote "a" = shellQuote "a" -> "a" = "a").
Proof.
  destruct (shellQuote_round_trip ("it's" +:+ Str.lf +:+ "me") "") as (H & _).
  destruct (shellQuote_round_trip "a" "a") as (_ & H' & _).
  split; [exact H | exact H'].
Defined.

Section Padding.

Lemma js_length_append (a b : string) :
  Str.js_length (a +:+ b) = (Str.js_length a + Str.js_length b)%nat.
Proof.
  induction a as [|x a IH]; [done|].
  rewrite append_cons. cbn [Str.js_length]. rewrite IH. lia.
Qed.

Lemma js_length_spaces n : Str.js_length (Str.spaces n) = n.
Proof.
  induction n as [|n IH]; [done|].
  cbn [Str.spaces Str.js_length]. rewrite IH. reflexivity.
Qed.

Lemma js_length_padRight s len :
  Str.js_length (padRight s len) = Nat.max (Str.js_length s) len.
Proof.
  unfold padRight. destruct (Nat.leb_spec len (Str.js_length s)); [lia|].
  rewrite js_length_append, js_length_spaces. lia.
Qed.

Lemma padRight_explicit s len :
  padRight s len = s +:+ Str.spaces (len - Str.js_length s).
Proof.
  unfold padRight. destruct (Nat.leb_spec len (Str.js_length s)); [|done].
  replace (len - Str.js_length s)%nat with 0%nat by lia.
  by rewrite append_empty_r.
Qed.

End Padding.

(** X11. [padRight] pads on the right with spaces up to the wanted length
    and never cuts, where the length of a string is [s.length], its
    number of UTF-16 code units (one for a character of the basic plane,
    whatever the number of its bytes, two for a character outside it):
    the result starts with the string, its length is the larger of the
    two lengths, a string that is long enough is returned as it is, a
    shorter one gets exactly the missing number of spaces, and padding
    twice is padding once. *)
Theorem padRight_length (s : string) (len : nat) :
  Str.js_length (padRight s len) = Nat.max (Str.js_length s) len /\
  padRight s len = s +:+ Str.spaces (len - Str.js_length s) /\
  ((len <= Str.js_length s)%nat -> padRight s len = s) /\
  ((Str.js_length s < len)%nat ->
     exists n, padRight s len = s +:+ Str.spaces (S n) /\
               (Str.js_length s + S n = len)%nat) /\
  padRight (padRight s len) len = padRight s len.
Proof.
  split; [apply js_length_padRight|]. split; [|split; [|split]].
  - unfold padRight. destruct (Nat.leb_spec len (Str.js_length s)); [|done].
    replace (len - Str.js_length s)%nat with 0%nat by lia.
    by rewrite append_empty_r.
  - intros H. unfold padRight.
    destruct (Nat.leb_spec len (Str.js_length s)); [done|lia].
  - intros H. exists (len - Str.js_length s - 1)%nat. unfold padRight.
    destruct (Nat.leb_spec len (Str.js_length s)); [lia|].
    split; [|lia]. do 2 f_equal. lia.
  - unfold padRight at 1. rewrite js_length_padRight.
    destruct (Nat.leb_spec len (Nat.max (Str.js_length s) len)); [done|lia].
Qed.

Lemma padRight_length_witness :
  padRight "API_URL" 3 = "API_URL" /\ padRight "A" 4 = "A   " /\
  padRight "é" 1 = "é" /\ padRight "é" 2 = "é " /\
  (exists n, padRight "😀" 4 = "😀" +:+ Str.spaces (S n) /\
             (Str.js_length "😀" + S n = 4)%nat).
Proof.
  destruct (padRight_length "API_URL" 3) as (_ & _ & H & _).
  destruct (padRight_length "A" 4) as (_ & H2 & _).
  destruct (padRight_length "é" 1) as (_ & _ & H3 & _).
  destruct (padRight_length "é" 2) as (_ & H4 & _).
  destruct (padRight_length "😀" 4) as (_ & _ & _ & H5 & _).
  split; [apply H; vm_compute; lia|]. split; [exact H2|].
  split; [apply H3; vm_compute; lia|]. split; [exact H4|].
  apply H5. vm_compute. lia.
Defined.

(* ===================================================================== *)
(** * The delete menu *)
(* ===================================================================== *)

Section DeleteMenu.

Lemma prefix_forallb p n : forall h,
  String.prefix n h = true ->
  Str.forallb p h = true -> Str.forallb p n = true.
Proof.
  induction n as [|a n IH]; intros h; [done|].
  destruct h as [|b h]; [done|]. cbn [String.prefix Str.forallb].
  destruct (ascii_dec a b) as [->|_]; [|done].
  intros Hp Hh. apply andb_true_iff in Hh as [Hb Hh].
  rewrite Hb. cbn [andb]. by apply (IH h).
Qed.

Lemma includes_forallb p n h :
  includes h n = true ->
  Str.forallb p h = true -> Str.forallb p n = true.
Proof.
  induction h as [|b h IH]; cbn [includes].
  - rewrite orb_false_r. intros Hp Hh. by apply (prefix_forallb p n "").
  - intros H Hh. apply orb_true_iff in H as [H|H].
    + by apply (prefix_forallb p n (String b h)).
    + apply IH; [done|]. cbn [Str.forallb] in Hh.
      by apply andb_true_iff in Hh as [_ ?].
Qed.

Lemma valid_key_chars k :
  isValidKey k = true -> Str.forallb is_key_char k = true.
Proof. by destruct k. Qed.

Lemma classify_valid_key k :
  isValidKey k = true -> classify_delete (VStr k) = ChoiceKey k.
Proof.
  intros Hk. pose proof (valid_key_chars k Hk) as Hc.
  unfold classify_delete. cbn [js_String].
  rewrite (stripAnsi_no_esc k) by (by apply key_chars_count).
  destruct (String.eqb_spec k "Cancel") as [->|_]; [done|].
  destruct (String.eqb_spec k "Back") as [->|_]; [done|].
  destruct (includes k "Delete entire preset") eqn:Hi; [|done].
  by pose proof (includes_forallb is_key_char _ _ Hi Hc).
Qed.

Lemma menu_session_resolved_ok env its title init keys :
  its <> [] ->
  resolved_ok its (run (selectMenuInteractively env its title init) keys).
Proof.
  intros Hne. destruct (interactive env) eqn:Henv.
  - destruct (start_fields env its title init Henv) as (_ & Hr0 & Hit & _).
    apply resolved_ok_run; [exact Hit| |].
    + by apply idx_in_range_start.
    + unfold resolved_ok. by rewrite Hr0.
  - rewrite session_no_terminal by done. unfold resolved_ok. cbn. by left.
Qed.

End DeleteMenu.

(** X12. The delete menu tells its entries apart after stripping the
    colours: [null] and the entry Cancel give a cancel, Back gives a
    back, the entry that deletes the preset gives delete-preset, and a
    key that is a valid key name comes back as that key. So for a preset
    whose keys are all valid, whatever is typed, the answer is one of the
    three actions or one of the preset's keys. *)
Theorem delete_menu_classification env presetName keys typed choice :
  Forall (fun k => isValidKey k = true) keys ->
  snd (selectKeyForDeleteInteractively env presetName keys typed)
    = Some choice ->
  (choice = ChoiceCancel \/ choice = ChoiceBack \/
   choice = ChoiceDeletePreset \/
   exists k, In k keys /\ choice = ChoiceKey k) /\
  classify_delete VNull = ChoiceCancel /\
  classify_delete (VStr (c.dim "Cancel")) = ChoiceCancel /\
  classify_delete (VStr (c.yellow "Back")) = ChoiceBack /\
  classify_delete (VStr (c.red "Delete entire preset…")) = ChoiceDeletePreset /\
  (forall k, In k keys -> classify_delete (VStr k) = ChoiceKey k).
Proof.
  intros Hkeys Hsel.
  assert (Hk : forall k, In k keys -> classify_delete (VStr k) = ChoiceKey k).
  { intros k Hin. apply classify_valid_key.
    rewrite Forall_forall in Hkeys. apply Hkeys. by apply list_elem_of_In. }
  split; [|repeat split; try reflexivity; exact Hk].
  unfold selectKeyForDeleteInteractively in Hsel. cbn [snd] in Hsel.
  pose proof (menu_session_resolved_ok env (delete_menu_items keys)
    ("Select a KEY to delete (preset: " +:+ presetName +:+ ")") 0 typed) as Hok.
  unfold resolved_ok in Hok.
  destruct (resolved _) as [v|]; [|done]. injection Hsel as <-.
  destruct Hok as [->|(s & -> & Hin)].
  - unfold delete_menu_items. by destruct keys.
  - by left.
  - unfold delete_menu_items in Hin. apply in_app_or in Hin as [Hin|Hin].
    + right. right. right. exists s. split; [done|]. by apply Hk.
    + cbn [In] in Hin. destruct Hin as [<-|[<-|[<-|[]]]].
      * right. right. by left.
      * right. by left.
      * by left.
Qed.

Lemma delete_menu_classification_witness :
  (ChoiceKey "GREETING" = ChoiceCancel \/ ChoiceKey "GREETING" = ChoiceBack \/
   ChoiceKey "GREETING" = ChoiceDeletePreset \/
   exists k, In k ["API_URL"; "GREETING"]
             /\ ChoiceKey "GREETING" = ChoiceKey k).
Proof.
  apply (delete_menu_classification (mkEnv true true) "dev"
           ["API_URL"; "GREETING"] [DOWN; ENTER] (ChoiceKey "GREETING")).
  - repeat constructor.
  - reflexivity.
Defined.

(* ===================================================================== *)
(** * Listing variables and the apply status *)
(* ===================================================================== *)

Section Listing.

Lemma max_length_bound k l :
  In k l -> (Str.js_length k <= foldr Nat.max 0 (map Str.js_length l))%nat.
Proof.
  induction l as [|x l IH]; [done|]. cbn [In map foldr].
  intros [->|Hin]; [lia|]. specialize (IH Hin). lia.
Qed.

Lemma assoc_In {V} k (l : list (string * V)) :
  In k (keys_of l) -> exists v, assoc k l = Some v.
Proof.
  unfold keys_of. induction l as [|[k' v'] l IH]; [done|].
  cbn [map In fst assoc]. intros H.
  destruct (String.eqb_spec k' k) as [->|Hne]; [by eexists|].
  destruct H as [?|H]; [done|]. by apply IH.
Qed.

Lemma assoc_None {V} k (l : list (string * V)) :
  ~ In k (keys_of l) -> assoc k l = None.
Proof.
  unfold keys_of. induction l as [|[k' v'] l IH]; [done|].
  cbn [map In fst assoc]. intros H.
  destruct (String.eqb_spec k' k) as [->|Hne]; [tauto|].
  apply IH. tauto.
Qed.

Lemma printAlignedVars_stdout vars :
  stdout_of (printAlignedVars vars) = printAlignedVars vars.
Proof.
  unfold printAlignedVars. destruct (keys_of vars) as [|k ks]; [done|].
  apply (stdout_of_logs (fun k0 =>
    c.cyan (c.bold (padRight k0 (foldr Nat.max 0%nat
                                   (map Str.js_length (k :: ks)))))
    +:+ " " +:+ c.dim "=" +:+ " " +:+ default "undefined" (assoc k0 vars))).
Qed.

(** The lines of [printAlignedVars], written out. *)
Lemma printAlignedVars_explicit vars :
  let width := foldr Nat.max 0%nat (map Str.js_length (keys_of vars)) in
  printAlignedVars vars
  = match vars with
    | [] => [Stdout (c.dim "(no variables)" +:+ Str.lf)]
    | _ =>
        map (fun k =>
               Stdout ((c.cyan (c.bold (k +:+ Str.spaces
                                          (width - Str.js_length k)))
                        +:+ " " +:+ c.dim "=" +:+ " "
                        +:+ default "undefined" (assoc k vars)) +:+ Str.lf))
            (sort_strings (keys_of vars))
    end.
Proof.
  intros width. destruct vars as [|[k0 v0] vars]; [reflexivity|].
  unfold printAlignedVars. fold width. cbn [keys_of map fst].
  apply map_ext. intros k. by rewrite padRight_explicit.
Qed.

End Listing.

(** X13. [printAlignedVars] prints to standard output only: the single
    line (no variables) for an empty preset, and otherwise one line per
    key, in the order of [sort] (UTF-16 code units): the key in bold
    cyan, padded with spaces to the length of the longest key, a dim
    equals sign, and the value of that key. Lengths are [k.length], the
    number of UTF-16 code units, so the key column of every line has the
    same width. *)
Theorem printAlignedVars_aligned (vars : list (string * string)) :
  let width := foldr Nat.max 0%nat (map Str.js_length (keys_of vars)) in
  stdout_of (printAlignedVars vars) = printAlignedVars vars /\
  length (printAlignedVars vars) = Nat.max 1 (length vars) /\
  (vars = [] -> printAlignedVars vars = [console_log (c.dim "(no variables)")]) /\
  (vars <> [] ->
     printAlignedVars vars
     = map (fun k =>
              Stdout ((c.cyan (c.bold (padRight k width)) +:+ " "
                       +:+ c.dim "=" +:+ " "
                       +:+ default "undefined" (assoc k vars)) +:+ Str.lf))
           (sort_strings (keys_of vars))) /\
  Permutation (sort_strings (keys_of vars)) (keys_of vars) /\
  Sorted (fun a b => Str.js_leb a b = true) (sort_strings (keys_of vars)) /\
  (forall k, In k (keys_of vars) ->
     Str.js_length (padRight k width) = width /\
     padRight k width = k +:+ Str.spaces (width - Str.js_length k) /\
     exists v, assoc k vars = Some v /\
       In (console_log (c.cyan (c.bold (padRight k width)) +:+ " "
                        +:+ c.dim "=" +:+ " " +:+ v))
          (printAlignedVars vars)).
Proof.
  intros width.
  split; [apply printAlignedVars_stdout|].
  assert (Hperm := sort_strings_perm (keys_of vars)).
  assert (Hsorted := sort_strings_sorted (keys_of vars)).
  destruct vars as [|[k0 v0] vars]; [by repeat split|].
  set (vs := (k0, v0) :: vars) in *.
  assert (E : printAlignedVars vs =
    map (fun k => console_log
           (c.cyan (c.bold (padRight k width)) +:+ " " +:+ c.dim "=" +:+ " "
            +:+ default "undefined" (assoc k vs)))
        (sort_strings (keys_of vs))) by reflexivity.
  rewrite E. split; [|split; [|split; [|split; [|split]]]];
    [| done | done | exact Hperm | exact Hsorted |].
  - rewrite length_map, sort_strings_length. unfold keys_of.
    rewrite length_map. unfold vs. cbn [length]. lia.
  - intros k Hin.
    pose proof (max_length_bound k (keys_of vs) Hin) as Hle. fold width in Hle.
    split; [rewrite js_length_padRight; lia|]. split.
    + unfold padRight.
      destruct (Nat.leb_spec width (Str.js_length k)); [|done].
      replace (width - Str.js_length k)%nat with 0%nat by lia.
      by rewrite append_empty_r.
    + destruct (assoc_In k vs Hin) as [v Hv]. exists v. split; [done|].
      apply in_map_iff. exists k. rewrite Hv. split; [done|].
      by apply sort_strings_In.
Qed.

Lemma printAlignedVars_aligned_witness :
  Str.js_length (padRight "API_URL" 8) = 8%nat /\
  length (printAlignedVars scenario_vars) = 2%nat /\
  printAlignedVars [("é", "1"); ("ab", "2")]
    = [Stdout (c.cyan (c.bold "ab") +:+ " " +:+ c.dim "=" +:+ " 2" +:+ Str.lf);
       Stdout (c.cyan (c.bold "é ") +:+ " " +:+ c.dim "=" +:+ " 1" +:+ Str.lf)].
Proof.
  destruct (printAlignedVars_aligned scenario_vars) as (_ & H2 & _ & _ & _ & _ & H4).
  destruct (printAlignedVars_aligned [("é", "1"); ("ab", "2")])
    as (_ & _ & _ & H5 & _).
  split; [|split; [exact H2|]].
  - apply (H4 "API_URL"). left. reflexivity.
  - apply H5. discriminate.
Defined.

Section ApplyStatus.

Variable penv : gmap string string.
Variable vars : list (string * string).




End ApplyStatus.



(* ===================================================================== *)
(** * Loading the config *)
(* ===================================================================== *)

(** X15. [readConfig] never changes a file: whatever the config file
    holds, the only call into the file system is the [mkdir] of the config
    directory. It either returns a config whose [envs] is an object (an
    array counts), having written nothing, or exits with status 1 after
    writing to the error stream only; no exception escapes. *)
Theorem readConfig_reads_only
    (CONFIG_DIR : string) (JSON_parse : string -> option json) (w : World) :
  let r := readConfig CONFIG_DIR JSON_parse w in
  files (snd r) = files w /\
  fslog (snd r) = fslog w ++ [Mkdir CONFIG_DIR] /\
  ((exists cfg, fst r = Ret cfg /\ is_object (loaded_envs cfg) = true /\
                out (snd r) = out w) \/
   (fst r = Exit 1 /\ stdout_of (out (snd r)) = stdout_of (out w))).
Proof.
  cbv zeta. unfold readConfig, bind, ensureDir, mkdirSync. cbn [files].
  assert (Hbad : forall w0 : World,
    let r := @report_corrupted CONFIG_DIR LoadedConfig w0 in
    files (snd r) = files w0 /\ fslog (snd r) = fslog w0 /\
    fst r = Exit 1 /\ stdout_of (out (snd r)) = stdout_of (out w0)).
  { intros w0. unfold report_corrupted, bind, emit, process_exit.
    cbn [fst snd files fslog out]. repeat split.
    rewrite <- app_assoc, stdout_of_app. cbn. by rewrite app_nil_r. }
  set (w1 := mkWorld (files w) (fslog w ++ [Mkdir CONFIG_DIR]) (out w)).
  destruct (files w !! CONFIG_PATH CONFIG_DIR) as [raw|];
    [|split; [done|]; split; [done|]; left; by eexists].
  destruct (Str.is_blank raw);
    [split; [done|]; split; [done|]; left; by eexists|].
  destruct (JSON_parse raw) as [cfg|].
  - destruct (is_object cfg) eqn:Ho; cbn [negb].
    + split; [done|]. split; [done|]. left. eexists. split; [done|].
      split; [|done]. cbn [loaded_envs].
      destruct (prop cfg "envs") as [e|]; [|done].
      by destruct (is_object e) eqn:He.
    + destruct (Hbad w1) as (? & ? & ? & ?). split; [done|]. split; [done|].
      by right.
  - destruct (Hbad w1) as (? & ? & ? & ?). split; [done|]. split; [done|].
    by right.
Qed.

(** X16. What a load returns: the default config when there is no file;
    for a file that parses to an object with an object under [envs] and a
    [current] property, exactly those two values; an [envs] that is
    missing or is not an object is replaced by the empty object, and a
    missing [current] by [null]. *)
Theorem readConfig_normalises
    (CONFIG_DIR : string) (JSON_parse : string -> option json) (w : World) :
  (files w !! CONFIG_PATH CONFIG_DIR = None ->
     fst (readConfig CONFIG_DIR JSON_parse w) = Ret defaultConfig) /\
  (forall raw props,
     files w !! CONFIG_PATH CONFIG_DIR = Some raw ->
     Str.is_blank raw = false ->
     JSON_parse raw = Some (JObj props) ->
     exists cfg,
       fst (readConfig CONFIG_DIR JSON_parse w) = Ret cfg /\
       parsed cfg = JObj props /\
       (forall e, assoc "envs" props = Some e -> is_object e = true ->
                  loaded_envs cfg = e) /\
       ((assoc "envs" props = None \/
         exists e, assoc "envs" props = Some e /\ is_object e = false) ->
        loaded_envs cfg = JObj []) /\
       (forall cur, assoc "current" props = Some cur ->
                    loaded_current cfg = cur) /\
       (assoc "current" props = None -> loaded_current cfg = JNull)).
Proof.
  split.
  - intros Hf. unfold readConfig, bind, ensureDir, mkdirSync. cbn [files].
    by rewrite Hf.
  - intros raw props Hf Hb Hp.
    unfold readConfig, bind, ensureDir, mkdirSync. cbn [files].
    rewrite Hf, Hb, Hp. cbn [is_object negb prop ret fst].
    eexists. split; [reflexivity|]. cbn [parsed loaded_envs loaded_current].
    split; [done|]. split; [|split; [|split]].
    + intros e -> ->. done.
    + intros [->|(e & -> & ->)]; done.
    + by intros cur ->.
    + by intros ->.
Qed.

Lemma readConfig_normalises_witness :
  fst (readConfig example_dir example_parse empty_world) = Ret defaultConfig.
Proof.
  destruct (readConfig_normalises example_dir example_parse empty_world)
    as [H _].
  apply H. reflexivity.
Defined.

(* ===================================================================== *)
(** * [cmdUse]: the ways out *)
(* ===================================================================== *)

Section UseExits.

Variable CONFIG_DIR : string.
Variable JSON_stringify : Config -> string.
Variables (now pid : N).

(** Choosing the name writes the menu's output and error lines only. *)
Lemma choose_name_out cfg name sel w r w1 :
  choose_name cfg name sel w = (r, w1) ->
  r <> Throw /\ (forall code, r = Exit code -> code = 1) /\
  exists es, out w1 = out w ++ es /\
             (stdout_of (session_writes sel) = [] -> stdout_of es = []).
Proof.
  unfold choose_name. destruct (name_given name) as [n|].
  { intros [= <- <-]. split; [done|]. split; [done|].
    exists []. by rewrite app_nil_r. }
  destruct (sort_strings (keys_of (envs cfg))) as [|n0 ns].
  { unfold bind, emit, process_exit. intros [= <- <-].
    split; [done|]. split; [by intros ? [= <-]|]. by eexists. }
  unfold bind, emit_all, emit, process_exit, ret. cbn [files fslog out].
  assert (Hc : forall es, stdout_of (session_writes sel ++ es) =
                          stdout_of (session_writes sel) ++ stdout_of es)
    by (intros; apply stdout_of_app).
  destruct (session_value sel) as [| |p].
  - intros [= <- <-]. split; [done|]. split; [by intros ? [= <-]|].
    eexists. rewrite <- app_assoc. split; [done|].
    intros H. by rewrite Hc, H.
  - intros [= <- <-]. split; [done|]. split; [by intros ? [= <-]|].
    eexists. rewrite <- app_assoc. split; [done|].
    intros H. by rewrite Hc, H.
  - destruct (String.eqb p "").
    + intros [= <- <-]. split; [done|]. split; [by intros ? [= <-]|].
      eexists. rewrite <- app_assoc. split; [done|].
      intros H. by rewrite Hc, H.
    + intros [= <- <-]. split; [done|]. split; [done|].
      eexists. split; [done|]. done.
Qed.

End UseExits.

(** X17. [cmdUse] leaves no trace when it gives up: on every path that
    ends in [process.exit] (no presets, menu cancelled or no terminal,
    preset not found, a key or value that fails validation) the status is
    1, no file-system call has been made and, the menu writing to the
    error stream only, nothing has reached standard output. A name that
    is no preset of the config is reported as not found on the error
    stream, unless it names a member that every object inherits
    ([constructor], [toString], [__proto__], ...): [cfg.envs[name]] is
    truthy then and has no entries, so [cmdUse] stores the config with
    [current] set to that name and writes the empty text to standard
    output. *)
Theorem cmdUse_exit_leaves_no_trace
    (CONFIG_DIR : string) (JSON_stringify : Config -> string) (now pid : N)
    (cfg : Config) (name : option string) (sel : Awaited) (w : World) :
  let r := cmdUse CONFIG_DIR JSON_stringify now pid cfg name sel w in
  stdout_of (session_writes sel) = [] ->
  (forall code, fst r = Exit code ->
     code = 1 /\ files (snd r) = files w /\ fslog (snd r) = fslog w /\
     stdout_of (out (snd r)) = stdout_of (out w)) /\
  (forall n, name = Some n -> n <> "" -> assoc n (envs cfg) = None ->
     let tmp := tmp_path CONFIG_DIR now pid in
     let data := JSON_stringify (mkConfig (Some n) (envs cfg)) +:+ Str.lf in
     if existsb (String.eqb n) OBJECT_PROTOTYPE_MEMBERS
     then fst r = Ret tt /\
          fslog (snd r) = fslog w ++ [Mkdir CONFIG_DIR; WriteFile tmp data;
                                      Rename tmp (CONFIG_PATH CONFIG_DIR)] /\
          files (snd r) !! CONFIG_PATH CONFIG_DIR = Some data /\
          out (snd r) = out w ++ [Stdout ""]
     else r = (Exit 1,
               mkWorld (files w) (fslog w)
                 (out w ++ [Stderr (("Preset not found: " +:+ n) +:+ Str.lf);
                            Stderr ("Use `quickenv list` to view existing presets."
                                    +:+ Str.lf)]))).
Proof.
  cbv zeta. intros Hsel. split.
  - unfold cmdUse.
    destruct (choose_name cfg name sel w) as [r1 w1] eqn:Hc.
    destruct (choose_name_frame cfg name sel w _ _ Hc) as [Hf Hl].
    destruct (choose_name_out cfg name sel w _ _ Hc)
      as (Hnt & Hex & es & Hout & Hes).
    specialize (Hes Hsel).
    assert (Hso : stdout_of (out w1) = stdout_of (out w))
      by (by rewrite Hout, stdout_of_app, Hes, app_nil_r).
    destruct r1 as [n|code|]; [| |done].
    + rewrite (bind_ret _ _ _ _ _ Hc).
      unfold use_preset. destruct (lookup_preset cfg n) as [vars|].
      * destruct (all_valid vars) eqn:Hv.
        -- rewrite (bind_ret _ _ _ _ _ (validate_ok vars w1 Hv)).
           rewrite (bind_ret _ _ _ _ _ (writeConfig_spec CONFIG_DIR
                                          JSON_stringify now pid _ w1)).
           unfold emit. cbn [fst]. intros code Hx. discriminate Hx.
        -- destruct (validate_fail vars w1 Hv) as (errs & He & Hs).
           rewrite (bind_exit _ _ _ _ _ He). cbn [fst snd files fslog out].
           intros code [= <-].
           rewrite stdout_of_app, Hs, app_nil_r. done.
      * unfold bind, emit, process_exit. cbn [fst snd files fslog out].
        intros code [= <-].
        rewrite <- app_assoc, stdout_of_app. cbn. rewrite app_nil_r. done.
    + rewrite (bind_exit _ _ _ _ _ Hc). cbn [fst snd].
      intros c [= <-]. by rewrite (Hex code eq_refl).
  - intros n -> Hn Hnone.
    assert (Hc : choose_name cfg (Some n) sel w = (Ret n, w)).
    { unfold choose_name, name_given.
      destruct (String.eqb_spec n "") as [?|_]; [done|reflexivity]. }
    unfold cmdUse. rewrite (bind_ret _ _ _ _ _ Hc).
    unfold use_preset, lookup_preset, inherited, has_own. rewrite Hnone.
    cbn [negb andb].
    destruct (existsb (String.eqb n) OBJECT_PROTOTYPE_MEMBERS).
    + rewrite (bind_ret _ _ _ _ _ (validate_ok [] w eq_refl)).
      rewrite (bind_ret _ _ _ _ _ (writeConfig_spec CONFIG_DIR
                                     JSON_stringify now pid _ w)).
      unfold emit. cbn [fst snd files fslog out].
      split; [done|]. split; [done|]. split; [apply lookup_insert_eq|done].
    + unfold bind, emit, process_exit. cbn [fst snd files fslog out].
      by rewrite <- app_assoc.
Qed.

Lemma cmdUse_exit_leaves_no_trace_witness :
  (files (snd (cmdUse example_dir example_stringify 1700000000000 4242
                 example_config (Some "nowhere") no_session empty_world)) = ∅ /\
   stdout_of (out (snd (cmdUse example_dir example_stringify 1700000000000
                          4242 example_config (Some "nowhere") no_session
                          empty_world))) = []) /\
  (fst (cmdUse example_dir example_stringify 1700000000000 4242
          example_config (Some "constructor") no_session empty_world)
     = Ret tt /\
   out (snd (cmdUse example_dir example_stringify 1700000000000 4242
               example_config (Some "constructor") no_session empty_world))
     = [Stdout ""]).
Proof.
  split.
  - destruct (cmdUse_exit_leaves_no_trace example_dir example_stringify
                1700000000000 4242 example_config (Some "nowhere") no_session
                empty_world eq_refl) as [H _].
    destruct (H 1 eq_refl) as (_ & H1 & _ & H2). split; [exact H1 | exact H2].
  - destruct (cmdUse_exit_leaves_no_trace example_dir example_stringify
                1700000000000 4242 example_config (Some "constructor")
                no_session empty_world eq_refl) as [_ H].
    specialize (H "constructor" eq_refl).
    assert (Hn : "constructor" <> "") by discriminate.
    destruct (H Hn eq_refl) as (H1 & _ & _ & H4). split; [exact H1 | exact H4].
Defined.

(** X18. Picking a preset in the menu is the same as naming it: when no
    name is given, the config has presets and the menu resolves with a
    non-empty name, [cmdUse] goes on exactly as if that name had been
    given, after the writes of the menu. *)
Theorem cmdUse_pick_is_name
    (CONFIG_DIR : string) (JSON_stringify : Config -> string) (now pid : N)
    (cfg : Config) (name : option string) (sel : Awaited) (p : string)
    (w : World) :
  name_given name = None ->
  envs cfg <> [] ->
  session_value sel = VStr p -> p <> "" ->
  cmdUse CONFIG_DIR JSON_stringify now pid cfg name sel w =
  cmdUse CONFIG_DIR JSON_stringify now pid cfg (Some p) sel
    (mkWorld (files w) (fslog w) (out w ++ session_writes sel)).
Proof.
  intros Hn Hne Hv Hp. unfold cmdUse, bind, choose_name. rewrite Hn.
  cbn [name_given]. destruct (String.eqb_spec p "") as [?|_]; [done|].
  destruct (sort_strings (keys_of (envs cfg))) as [|n0 ns] eqn:En.
  { exfalso. apply (sort_strings_not_nil (keys_of (envs cfg))); [|done].
    unfold keys_of. by destruct (envs cfg). }
  unfold bind, emit_all, ret. rewrite Hv.
  destruct (String.eqb_spec p "") as [?|_]; [done|]. reflexivity.
Qed.

Lemma cmdUse_pick_is_name_witness :
  cmdUse example_dir example_stringify 1700000000000 4242 example_config
    None (mkAwaited [] (VStr "dev")) empty_world =
  cmdUse example_dir example_stringify 1700000000000 4242 example_config
    (Some "dev") (mkAwaited [] (VStr "dev"))
    (mkWorld (files empty_world) (fslog empty_world)
       (out empty_world ++ session_writes (mkAwaited [] (VStr "dev")))).
Proof.
  apply (cmdUse_pick_is_name example_dir example_stringify 1700000000000 4242
           example_config None (mkAwaited [] (VStr "dev")) "dev" empty_world).
  - reflexivity.
  - discriminate.
  - reflexivity.
  - discriminate.
Defined.

(** X19. [cmdUse] without a name: with no presets stored it reports that
    on the error stream and exits with status 1 without asking; with
    presets but no terminal at hand, the preset menu reports the
    non-interactive environment, [cmdUse] adds the line Cancelled. and
    exits with status 1. In both cases nothing is stored and nothing is
    written to standard output. *)
Theorem cmdUse_without_name
    (CONFIG_DIR : string) (JSON_stringify : Config -> string) (now pid : N)
    (env : Env) (cfg : Config) (name : option string)
    (keys : list (option Key)) (w : World) :
  name_given name = None ->
  let names := sort_strings (keys_of (envs cfg)) in
  let m := run (selectPresetInteractively env names (current cfg)) keys in
  (envs cfg = [] -> forall sel,
     cmdUse CONFIG_DIR JSON_stringify now pid cfg name sel w =
     (Exit 1,
      mkWorld (files w) (fslog w)
        (out w ++ [console_error (c.red
           "No presets available. Run `quickenv set` to create variables first.")]))) /\
  (envs cfg <> [] -> interactive env = false ->
     exists sel,
       await m = Some sel /\
       cmdUse CONFIG_DIR JSON_stringify now pid cfg name sel w =
       (Exit 1,
        mkWorld (files w) (fslog w)
          (out w ++ [NON_INTERACTIVE_USE;
                     console_error (c.yellow "Cancelled.")]))).
Proof.
  intros Hn names m. split.
  - intros He sel. unfold cmdUse, bind, choose_name. rewrite Hn, He.
    reflexivity.
  - intros Hne Henv. unfold m. rewrite preset_no_terminal by done.
    eexists. split; [reflexivity|].
    unfold cmdUse, bind, choose_name. rewrite Hn.
    destruct (sort_strings (keys_of (envs cfg))) as [|n0 ns] eqn:En.
    { exfalso. apply (sort_strings_not_nil (keys_of (envs cfg))); [|done].
      unfold keys_of. by destruct (envs cfg). }
    unfold bind, emit_all, emit, process_exit.
    cbn [session_value session_writes files fslog out].
    by rewrite <- app_assoc.
Qed.

Lemma cmdUse_without_name_witness :
  exists sel,
    await (run (selectPresetInteractively (mkEnv false false)
                  (sort_strings (keys_of (envs example_config)))
                  (current example_config)) [ENTER]) = Some sel /\
    cmdUse example_dir example_stringify 1700000000000 4242 example_config
      None sel empty_world =
    (Exit 1,
     mkWorld (files empty_world) (fslog empty_world)
       (out empty_world ++ [NON_INTERACTIVE_USE;
                            console_error (c.yellow "Cancelled.")])).
Proof.
  destruct (cmdUse_without_name example_dir example_stringify 1700000000000
              4242 (mkEnv false false) example_config None [ENTER]
              empty_world eq_refl) as [_ H].
  apply H; [discriminate | reflexivity].
Defined.

(* ===================================================================== *)
(** * [cmdList]: the other branches *)
(* ===================================================================== *)

Section ListFacts.

Lemma stdout_of_none es :
  Forall (fun e => is_stdout e = false) es -> stdout_of es = [].
Proof.
  unfold stdout_of. induction 1 as [|e es He _ IH]; [done|].
  rewrite filter_cons_False; [done|]. rewrite He. discriminate.
Qed.

Lemma menu_session_no_stdout env its title init keys :
  stdout_of (trace (run (selectMenuInteractively env its title init) keys))
  = [].
Proof.
  apply stdout_of_none, no_stdout_run. unfold selectMenuInteractively.
  destruct (negb (stdin_isTTY env) && negb (dev_tty_opens env)).
  - by repeat constructor.
  - rewrite render_spec. by repeat constructor.
Qed.

Lemma names_not_nil cfg :
  envs cfg <> [] -> sort_strings (keys_of (envs cfg)) <> [].
Proof.
  intros H. apply sort_strings_not_nil. unfold keys_of. by destruct (envs cfg).
Qed.

End ListFacts.

(** X20. What [cmdList] prints on standard output. With no presets it
    prints (no presets) and opens no menu. Otherwise it runs one menu
    over the preset names in the order of [sort] (UTF-16 code units):
    while the menu is pending nothing is printed; when the menu ends
    without a pick (Escape, ctrl+c, no terminal, or a preset whose name
    is the empty string) it prints the plain list: the heading with the
    number of presets and one line per name, starred, bold green and
    marked [current] for the current preset, with a bullet otherwise,
    each with the number of variables in brackets; when a preset is
    picked, that preset exists in the config, and the heading with its
    name and its number of variables, an empty line, and its variables
    are printed: (no variables), or one line per key in sorted order,
    the key in bold cyan padded with spaces to the [length] of the
    longest key, a dim equals sign and the value. *)
Theorem cmdList_prints env cfg keys :
  let names := sort_strings (keys_of (envs cfg)) in
  let currentIdx :=
    Z.max 0 (match current cfg with
             | Some cur => if String.eqb cur "" then 0 else indexOf names cur
             | None => 0
             end) in
  let m := run (selectMenuInteractively env names "Select a preset:"
                  currentIdx) keys in
  (envs cfg = [] ->
     cmdList env cfg keys
     = (None, [Stdout (c.dim "(no presets)" +:+ Str.lf)])) /\
  Permutation names (keys_of (envs cfg)) /\
  Sorted (fun a b => Str.js_leb a b = true) names /\
  (envs cfg <> [] ->
     fst (cmdList env cfg keys) = Some m /\
     (resolved m = None -> stdout_of (snd (cmdList env cfg keys)) = []) /\
     (forall v, resolved m = Some v -> truthy v = false ->
        stdout_of (snd (cmdList env cfg keys))
        = Stdout ((c.cyan (c.bold "Presets") +:+ " "
                   +:+ c.dim ("(" +:+ pretty (length (envs cfg)) +:+ ")"))
                  +:+ Str.lf)
          :: map (fun n =>
                    let count :=
                      pretty (length (default [] (assoc n (envs cfg)))) in
                    Stdout ((if bool_decide (current cfg = Some n)
                             then " " +:+ c.green "★" +:+ " "
                                    +:+ c.green (c.bold n) +:+ " "
                                    +:+ c.dim ("[" +:+ count +:+ " · current]")
                             else " " +:+ c.gray "•" +:+ " " +:+ n +:+ " "
                                    +:+ c.dim ("[" +:+ count +:+ "]"))
                            +:+ Str.lf))
                 names) /\
     (forall p, resolved m = Some (VStr p) -> p <> "" ->
        exists vars,
          assoc p (envs cfg) = Some vars /\
          let width :=
            foldr Nat.max 0%nat (map Str.js_length (keys_of vars)) in
          stdout_of (snd (cmdList env cfg keys)) =
          [Stdout ((c.cyan (c.bold "Preset: ") +:+ p +:+ " "
                    +:+ c.dim ("[" +:+ pretty (length vars) +:+ "]"))
                   +:+ Str.lf);
           Stdout Str.lf]
          ++ match vars with
             | [] => [Stdout (c.dim "(no variables)" +:+ Str.lf)]
             | _ =>
                 map (fun k =>
                        Stdout ((c.cyan (c.bold (k +:+ Str.spaces
                                                   (width - Str.js_length k)))
                                 +:+ " " +:+ c.dim "=" +:+ " "
                                 +:+ default "undefined" (assoc k vars))
                                +:+ Str.lf))
                     (sort_strings (keys_of vars))
             end)).
Proof.
  intros names currentIdx m. split; [|split; [|split]].
  - intros He. unfold cmdList. by rewrite He.
  - apply sort_strings_perm.
  - apply sort_strings_sorted.
  - intros Hne. pose proof (names_not_nil cfg Hne) as Hnn.
    assert (E : cmdList env cfg keys =
      match resolved m with
      | None => (Some m, trace m)
      | Some picked =>
          if negb (truthy picked) then (Some m, trace m ++ plain_list cfg names)
          else
            let p := match picked with VStr s => s | _ => "" end in
            let vars := default [] (assoc p (envs cfg)) in
            (Some m,
             trace m
               ++ [console_log (c.cyan (c.bold "Preset: ") +:+ p +:+ " "
                     +:+ c.dim ("[" +:+ pretty (length vars) +:+ "]"));
                   console_log ""]
               ++ printAlignedVars vars)
      end).
    { unfold cmdList, m, currentIdx, names. unfold names in Hnn.
      destruct (sort_strings (keys_of (envs cfg))); [done|reflexivity]. }
    pose proof (menu_session_no_stdout env names "Select a preset:"
                  currentIdx keys) as Hs. fold m in Hs.
    assert (Hlen : length names = length (envs cfg)).
    { unfold names. rewrite sort_strings_length. unfold keys_of.
      apply length_map. }
    rewrite E. split; [|split; [|split]].
    + destruct (resolved m) as [v|]; [|done]. by destruct (negb (truthy v)).
    + intros Hr. by rewrite Hr.
    + intros v Hr Ht. rewrite Hr, Ht. cbn [negb snd].
      rewrite stdout_of_app, Hs. cbn [app].
      rewrite stdout_of_plain_list, plain_list_explicit. by rewrite Hlen.
    + intros p Hr Hp. rewrite Hr. cbn [truthy].
      destruct (String.eqb_spec p "") as [?|_]; [done|]. cbn [negb snd].
      pose proof (menu_session_resolved_ok env names "Select a preset:"
                    currentIdx keys Hnn) as Hok.
      fold m in Hok. unfold resolved_ok in Hok. rewrite Hr in Hok.
      destruct Hok as [?|(s & [= <-] & Hin)]; [done|].
      unfold names in Hin. apply (proj1 (sort_strings_In _ _)) in Hin.
      destruct (assoc_In p (envs cfg) Hin) as [vars Hv].
      exists vars. split; [done|]. rewrite Hv. cbn [default id].
      rewrite stdout_of_app, Hs, stdout_of_app, printAlignedVars_stdout.
      cbv zeta. rewrite <- (printAlignedVars_explicit vars). reflexivity.
Qed.

Lemma cmdList_prints_witness :
  stdout_of (snd (cmdList (mkEnv true true) unicode_config [DOWN; ESCAPE]))
    = [Stdout (c.cyan (c.bold "Presets") +:+ " " +:+ c.dim "(3)" +:+ Str.lf);
       Stdout (" " +:+ c.gray "•" +:+ " dev " +:+ c.dim "[2]" +:+ Str.lf);
       Stdout (" " +:+ c.green "★" +:+ " " +:+ c.green (c.bold "😀") +:+ " "
               +:+ c.dim "[0 · current]" +:+ Str.lf);
       Stdout (" " +:+ c.gray "•" +:+ " ～ " +:+ c.dim "[1]" +:+ Str.lf)] /\
  (exists vars,
     assoc "～" (envs unicode_config) = Some vars /\
     stdout_of (snd (cmdList (mkEnv true true) unicode_config [DOWN; ENTER]))
     = [Stdout (c.cyan (c.bold "Preset: ") +:+ "～ " +:+ c.dim "[1]"
                +:+ Str.lf);
        Stdout Str.lf;
        Stdout (c.cyan (c.bold "K") +:+ " " +:+ c.dim "=" +:+ " v"
                +:+ Str.lf)]).
Proof.
  split.
  - destruct (cmdList_prints (mkEnv true true) unicode_config [DOWN; ESCAPE])
      as (_ & _ & _ & H).
    destruct H as (_ & _ & H & _); [discriminate|].
    apply (H VNull); reflexivity.
  - destruct (cmdList_prints (mkEnv true true) unicode_config [DOWN; ENTER])
      as (_ & _ & _ & H).
    destruct H as (_ & _ & _ & H); [discriminate|].
    assert (Hp : "～" <> "") by discriminate.
    destruct (H "～" eq_refl Hp) as (vars & Hv & Hout).
    exists vars. split; [exact Hv|].
    assert (vars = [("K", "v")]) as -> by (vm_compute in Hv; congruence).
    exact Hout.
Defined.

(* ===================================================================== *)
(** * Setting and deleting *)
(* ===================================================================== *)

Section ObjectFacts.

Context {V : Type}.
Implicit Types (o : list (string * V)) (k : string) (v : V).

Lemma has_own_true k o : has_own k o = true <-> exists v, assoc k o = Some v.
Proof.
  unfold has_own. destruct (assoc k o); split; try done; eauto.
  by intros [? ?].
Qed.

Lemma has_own_false k o : has_own k o = false <-> assoc k o = None.
Proof. unfold has_own. by destruct (assoc k o). Qed.

Lemma assoc_replace_value_eq k v o :
  has_own k o = true -> assoc k (replace_value k v o) = Some v.
Proof.
  unfold has_own. induction o as [|[k' v'] o IH]; [done|].
  cbn [assoc replace_value].
  destruct (String.eqb_spec k' k) as [->|Hne].
  - intros _. cbn [assoc]. by rewrite String.eqb_refl.
  - intros H. cbn [assoc].
    destruct (String.eqb_spec k' k) as [?|_]; [done|]. by apply IH.
Qed.

Lemma assoc_replace_value_ne k k' v o :
  k' <> k -> assoc k' (replace_value k v o) = assoc k' o.
Proof.
  intros Hne. induction o as [|[k0 v0] o IH]; [done|].
  cbn [assoc replace_value].
  destruct (String.eqb_spec k0 k) as [->|Hk0].
  - cbn [assoc]. destruct (String.eqb_spec k k') as [?|_]; [congruence|done].
  - cbn [assoc]. by rewrite IH.
Qed.

Lemma assoc_app k o1 o2 :
  assoc k (o1 ++ o2) = match assoc k o1 with
                       | Some v => Some v
                       | None => assoc k o2
                       end.
Proof.
  induction o1 as [|[k' v'] o1 IH]; [done|]. cbn [app assoc].
  by destruct (String.eqb k' k).
Qed.

Lemma assoc_insert_index_eq n k v o :
  assoc k o = None -> assoc k (insert_index n k v o) = Some v.
Proof.
  induction o as [|[k' v'] o IH]; cbn [insert_index assoc].
  - by rewrite String.eqb_refl.
  - destruct (String.eqb_spec k' k) as [->|Hne]; [done|]. intros H.
    destruct (array_index k') as [n'|]; [destruct (n' <? n)%N|];
      cbn [assoc]; rewrite ?String.eqb_refl; try done.
    destruct (String.eqb_spec k' k) as [?|_]; [done|]. by apply IH.
Qed.

Lemma assoc_insert_index_ne n k k' v o :
  k' <> k -> assoc k' (insert_index n k v o) = assoc k' o.
Proof.
  intros Hne. induction o as [|[k0 v0] o IH]; cbn [insert_index assoc].
  - destruct (String.eqb_spec k k') as [?|_]; [congruence|done].
  - destruct (array_index k0) as [n'|]; [destruct (n' <? n)%N|];
      cbn [assoc]; try (by rewrite IH);
      destruct (String.eqb_spec k k') as [?|_]; congruence.
Qed.

Lemma js_set_eq k v o : assoc k (js_set k v o) = Some v.
Proof.
  unfold js_set. destruct (has_own k o) eqn:H.
  - by apply assoc_replace_value_eq.
  - apply has_own_false in H. destruct (array_index k) as [n|].
    + by apply assoc_insert_index_eq.
    + rewrite assoc_app, H. cbn [assoc]. by rewrite String.eqb_refl.
Qed.

Lemma js_set_ne k k' v o : k' <> k -> assoc k' (js_set k v o) = assoc k' o.
Proof.
  intros Hne. unfold js_set. destruct (has_own k o).
  - by apply assoc_replace_value_ne.
  - destruct (array_index k) as [n|].
    + by apply assoc_insert_index_ne.
    + rewrite assoc_app. destruct (assoc k' o); [done|]. cbn [assoc].
      destruct (String.eqb_spec k k') as [?|_]; [congruence|done].
Qed.

Lemma js_delete_eq k o : assoc k (js_delete k o) = None.
Proof.
  induction o as [|[k' v'] o IH]; [done|]. cbn [js_delete].
  destruct (String.eqb_spec k' k) as [->|Hne]; [done|]. cbn [assoc].
  destruct (String.eqb_spec k' k) as [?|_]; [done|]. exact IH.
Qed.

Lemma js_delete_ne k k' o : k' <> k -> assoc k' (js_delete k o) = assoc k' o.
Proof.
  intros Hne. induction o as [|[k0 v0] o IH]; [done|]. cbn [js_delete assoc].
  destruct (String.eqb_spec k0 k) as [->|Hk0].
  - destruct (String.eqb_spec k k') as [?|_]; [congruence|done].
  - cbn [assoc]. by rewrite IH.
Qed.

Lemma js_delete_absent k o : assoc k o = None -> js_delete k o = o.
Proof.
  induction o as [|[k' v'] o IH]; [done|]. cbn [js_delete assoc].
  destruct (String.eqb_spec k' k) as [->|Hne]; [done|].
  intros H. by rewrite IH.
Qed.

End ObjectFacts.

Section CrudFacts.

Lemma inherited_not_own {V} name (o : list (string * V)) :
  inherited name o = true -> assoc name o = None.
Proof.
  unfold inherited. intros H. apply andb_true_iff in H as [H _].
  apply negb_true_iff in H. by apply has_own_false.
Qed.

(** The config that [cmdSetNonInteractive] stores. *)
Lemma set_config_lookups cfg p key value :
  inherited p (envs cfg) = false ->
  exists vars',
    assoc p (envs (set_config cfg p key value)) = Some vars' /\
    vars' = js_set key value (default [] (assoc p (envs cfg))) /\
    (forall n, n <> p ->
       assoc n (envs (set_config cfg p key value)) = assoc n (envs cfg)) /\
    current (set_config cfg p key value) = current cfg.
Proof.
  intros Hi. unfold set_config. rewrite Hi, orb_false_r.
  destruct (has_own p (envs cfg)) eqn:Ho.
  - destruct (proj1 (has_own_true _ _) Ho) as [vars Hv]. rewrite Hv.
    cbn [envs current default]. eexists. split; [|split; [done|split; [|done]]].
    + by apply assoc_replace_value_eq.
    + intros n Hn. by apply assoc_replace_value_ne.
  - pose proof (proj1 (has_own_false _ _) Ho) as Hn. rewrite Hn, js_set_eq.
    cbn [envs current default]. eexists.
    split; [|split; [done|split; [|done]]].
    + apply assoc_replace_value_eq. apply has_own_true. eexists.
      apply js_set_eq.
    + intros n Hne. rewrite assoc_replace_value_ne by done.
      by apply js_set_ne.
Qed.

Lemma all_valid_js_set key value vars :
  isValidKey key = true -> hasNewline value = false ->
  all_valid vars = true -> all_valid (js_set key value vars) = true.
Proof.
  intros Hk Hv. unfold all_valid.
  assert (Hp : isValidKey (fst (key, value))
               && negb (hasNewline (snd (key, value))) = true)
    by (cbn [fst snd]; by rewrite Hk, Hv).
  unfold js_set. destruct (has_own key vars).
  - induction vars as [|[k' v'] vars IH]; [done|].
    cbn [forallb replace_value]. intros H.
    apply andb_true_iff in H as [H1 H2].
    destruct (String.eqb k' key); cbn [forallb].
    + by rewrite Hp, H2.
    + by rewrite H1, IH.
  - destruct (array_index key) as [n|].
    + induction vars as [|[k' v'] vars IH]; cbn [insert_index forallb].
      * by rewrite Hp.
      * intros H. pose proof H as H0.
        apply andb_true_iff in H as [H1 H2].
        destruct (array_index k') as [n'|]; [destruct (n' <? n)%N|];
          cbn [forallb].
        -- by rewrite H1, IH.
        -- cbn [forallb] in H0. by rewrite Hp, H0.
        -- cbn [forallb] in H0. by rewrite Hp, H0.
    + intros H. rewrite forallb_app, H. cbn [forallb]. by rewrite Hp.
Qed.

Lemma js_set_In {V} key (value : V) vars :
  In (key, value) (js_set key value vars).
Proof.
  unfold js_set. destruct (has_own key vars) eqn:Ho.
  - unfold has_own in Ho. induction vars as [|[k' v'] vars IH]; [done|].
    cbn [assoc replace_value] in *.
    destruct (String.eqb k' key); [by left|]. right. by apply IH.
  - destruct (array_index key) as [n|].
    + clear Ho. induction vars as [|[k' v'] vars IH]; [by left|].
      cbn [insert_index].
      destruct (array_index k') as [n'|]; [destruct (n' <? n)%N|];
        [right; exact IH|by left|by left].
    + apply in_or_app. right. by left.
Qed.

End CrudFacts.



(** X22. A valid set is stored and read back: for a non-empty preset
    name, a valid key and a value of one line, [cmdSetNonInteractive]
    returns, writes the serialized new config over the config file
    (temporary file, then rename) and prints Saved. When the name finds
    no inherited member of [Object.prototype], the new config holds the
    value under the key in that preset (created when it was missing),
    every other key of the preset, every other preset and the current
    preset name are as before. When the name finds only such a member
    (constructor, toString, ...), the config stored is the old one. *)
Theorem set_stores_value
    (CONFIG_DIR : string) (JSON_stringify : Config -> string) (now pid : N)
    (cfg : Config) (presetName key value : string) (w : World) :
  presetName <> "" -> isValidKey key = true -> hasNewline value = false ->
  let r := cmdSetNonInteractive CONFIG_DIR JSON_stringify now pid cfg
             presetName key value w in
  let cfg' := set_config cfg presetName key value in
  fst r = Ret tt /\
  files (snd r) !! CONFIG_PATH CONFIG_DIR = Some (JSON_stringify cfg' +:+ Str.lf) /\
  out (snd r) = out w ++ [console_log ("Saved: " +:+ presetName +:+ "." +:+ key)] /\
  current cfg' = current cfg /\
  (inherited presetName (envs cfg) = false ->
     exists vars',
       assoc presetName (envs cfg') = Some vars' /\
       assoc key vars' = Some value /\
       (forall k, k <> key ->
          assoc k vars' = assoc k (default [] (assoc presetName (envs cfg)))) /\
       (forall n, n <> presetName -> assoc n (envs cfg') = assoc n (envs cfg))) /\
  (inherited presetName (envs cfg) = true -> envs cfg' = envs cfg).
Proof.
  intros Hp Hk Hv. cbv zeta. unfold cmdSetNonInteractive.
  destruct (String.eqb_spec presetName "") as [?|_]; [done|].
  rewrite Hk, Hv. cbn [negb].
  rewrite (bind_ret _ _ _ _ _ (writeConfig_spec CONFIG_DIR JSON_stringify
                                 now pid _ w)).
  unfold emit. cbn [fst snd files fslog out].
  split; [done|]. split; [apply lookup_insert_eq|]. split; [done|].
  split; [|split].
  - unfold set_config. by destruct (assoc presetName _).
  - intros Hi.
    destruct (set_config_lookups cfg presetName key value Hi)
      as (vars' & H1 & -> & H3 & _).
    eexists. split; [exact H1|]. split; [apply js_set_eq|].
    split; [|exact H3]. intros k Hne. by apply js_set_ne.
  - intros Hi. unfold set_config. rewrite Hi, orb_true_r.
    by rewrite (inherited_not_own _ _ Hi).
Qed.

Lemma set_stores_value_witness :
  exists vars',
    assoc "dev" (envs (set_config example_config "dev" "PORT" "8080"))
      = Some vars' /\
    assoc "PORT" vars' = Some "8080" /\
    assoc "API_URL" vars' = Some "https://api.example.com".
Proof.
  destruct (set_stores_value example_dir example_stringify 1700000000000 4242
              example_config "dev" "PORT" "8080" empty_world)
    as (_ & _ & _ & _ & H & _); [discriminate | reflexivity | reflexivity |].
  destruct (H eq_refl) as (vars' & H1 & H2 & H3 & _).
  exists vars'. split; [exact H1|]. split; [exact H2|].
  rewrite H3; [reflexivity | discriminate].
Defined.

(** X23. What is set can be used: after a valid set into a preset whose
    stored pairs all pass validation (or that did not exist), [cmdUse]
    of that preset on the new config returns normally and its export
    text is that of the new pairs, the pair just set among them. *)
Theorem set_then_use
    (CONFIG_DIR : string) (JSON_stringify : Config -> string) (now pid : N)
    (cfg : Config) (p key value : string) (sel : Awaited) (w : World) :
  p <> "" -> inherited p (envs cfg) = false ->
  isValidKey key = true -> hasNewline value = false ->
  all_valid (default [] (assoc p (envs cfg))) = true ->
  let cfg' := set_config cfg p key value in
  let r := cmdUse CONFIG_DIR JSON_stringify now pid cfg' (Some p) sel w in
  exists vars',
    assoc p (envs cfg') = Some vars' /\ In (key, value) vars' /\
    all_valid vars' = true /\
    fst r = Ret tt /\
    out (snd r) = out w ++ [Stdout (export_text vars')] /\
    files (snd r) !! CONFIG_PATH CONFIG_DIR
      = Some (JSON_stringify (mkConfig (Some p) (envs cfg')) +:+ Str.lf).
Proof.
  intros Hp Hi Hk Hv Hall. cbv zeta.
  destruct (set_config_lookups cfg p key value Hi) as (vars' & H1 & E & _).
  exists vars'. split; [exact H1|].
  assert (Hin : In (key, value) vars') by (rewrite E; apply js_set_In).
  assert (Hval : all_valid vars' = true)
    by (rewrite E; by apply all_valid_js_set).
  split; [exact Hin|]. split; [exact Hval|].
  assert (Ec : cmdUse CONFIG_DIR JSON_stringify now pid
                 (set_config cfg p key value) (Some p) sel w
               = use_preset CONFIG_DIR JSON_stringify now pid
                   (set_config cfg p key value) p w).
  { unfold cmdUse, bind, choose_name. cbn [name_given].
    destruct (String.eqb_spec p "") as [?|_]; [done|]. reflexivity. }
  rewrite Ec. unfold use_preset. rewrite (lookup_preset_own _ _ _ H1).
  rewrite (bind_ret _ _ _ _ _ (validate_ok vars' w Hval)).
  rewrite (bind_ret _ _ _ _ _ (writeConfig_spec CONFIG_DIR JSON_stringify
                                 now pid _ w)).
  unfold emit. cbn [fst snd files fslog out].
  split; [done|]. split; [done|]. apply lookup_insert_eq.
Qed.

Lemma set_then_use_witness :
  exists vars',
    assoc "fresh" (envs (set_config example_config "fresh" "PORT" "8080"))
      = Some vars' /\
    In ("PORT", "8080") vars' /\
    fst (cmdUse example_dir example_stringify 1700000000000 4242
           (set_config example_config "fresh" "PORT" "8080") (Some "fresh")
           no_session empty_world) = Ret tt.
Proof.
  destruct (set_then_use example_dir example_stringify 1700000000000 4242
              example_config "fresh" "PORT" "8080" no_session empty_world)
    as (vars' & H1 & H2 & _ & H4 & _);
    [discriminate | reflexivity | reflexivity | reflexivity | reflexivity |].
  exists vars'. split; [exact H1|]. split; [exact H2 | exact H4].
Defined.





(** X26. Deleting undoes setting: after a valid set of a key into a
    preset, [cmdDel] of that key on the new config returns normally, and
    in the config it stores the preset holds under every key what it held
    before the set, except that the key itself is gone; the other
    presets are as before the set. *)
Theorem set_then_del
    (CONFIG_DIR : string) (JSON_stringify : Config -> string) (now pid : N)
    (builtin_slot : string -> string -> BuiltinSlot)
    (cfg : Config) (p key value : string) (w : World) :
  p <> "" -> inherited p (envs cfg) = false -> isValidKey key = true ->
  let cfg1 := set_config cfg p key value in
  let r := cmdDel CONFIG_DIR JSON_stringify now pid builtin_slot cfg1
             p key w in
  exists cfg2 vars2,
    fst r = Ret tt /\
    files (snd r) !! CONFIG_PATH CONFIG_DIR
      = Some (JSON_stringify cfg2 +:+ Str.lf) /\
    assoc p (envs cfg2) = Some vars2 /\
    assoc key vars2 = None /\
    (forall k, k <> key ->
       assoc k vars2 = assoc k (default [] (assoc p (envs cfg)))) /\
    (forall n, n <> p -> assoc n (envs cfg2) = assoc n (envs cfg)) /\
    current cfg2 = current cfg.
Proof.
  intros Hp Hi Hk. cbv zeta.
  destruct (set_config_lookups cfg p key value Hi)
    as (vars1 & H1 & E & Hoth & Hcur).
  assert (Hkey : key <> "") by (intros ->; done).
  unfold cmdDel.
  destruct (String.eqb_spec p "") as [?|_]; [done|].
  assert (Ho : has_own p (envs (set_config cfg p key value)) = true)
    by (apply has_own_true; by eexists).
  rewrite Ho. cbn [orb negb].
  destruct (String.eqb_spec key "") as [?|_]; [done|]. rewrite H1.
  assert (Hk' : has_own key vars1 = true).
  { apply has_own_true. exists value. rewrite E. apply js_set_eq. }
  rewrite Hk'. cbn [negb].
  rewrite (bind_ret _ _ _ _ _ (writeConfig_spec CONFIG_DIR JSON_stringify
                                 now pid _ w)).
  unfold emit. cbn [fst snd files fslog out].
  eexists. exists (js_delete key vars1).
  split; [done|]. split; [apply lookup_insert_eq|]. cbn [current envs].
  split; [by apply assoc_replace_value_eq|].
  split; [apply js_delete_eq|]. split; [|split; [|done]].
  - intros k Hne. rewrite js_delete_ne by done. rewrite E.
    by apply js_set_ne.
  - intros n Hne. rewrite assoc_replace_value_ne by done. by apply Hoth.
Qed.

Lemma set_then_del_witness :
  exists cfg2 vars2,
    fst (cmdDel example_dir example_stringify 1700000000000 4242 example_slot
           (set_config example_config "dev" "PORT" "8080") "dev" "PORT"
           empty_world) = Ret tt /\
    assoc "dev" (envs cfg2) = Some vars2 /\ assoc "PORT" vars2 = None.
Proof.
  destruct (set_then_del example_dir example_stringify 1700000000000 4242
              example_slot example_config "dev" "PORT" "8080" empty_world)
    as (cfg2 & vars2 & H1 & _ & H3 & H4 & _);
    [discriminate | reflexivity | reflexivity |].
  exists cfg2, vars2. split; [exact H1|]. split; [exact H3 | exact H4].
Defined.

(** X27. How [main] routes [set] and [del]. [set] with a preset, a key
    and at least one more word stores the remaining words joined by
    single spaces; with fewer words it is interactive. [del] reaches
    [cmdDel] only with a non-empty name and a non-empty key, so the
    branch of [cmdDel] that deletes a whole preset is never taken from
    the command line: [del] with a name alone opens the interactive
    delete. *)
Theorem main_routes_set_and_del (argv : list string) :
  (forall name key, main argv = RunDel name key ->
     name <> "" /\ key <> "" /\ argv !! 0%nat = Some "del" /\
     argv !! 1%nat = Some name /\ argv !! 2%nat = Some key) /\
  (forall name, main ["del"; name] = RunDelInteractive) /\
  (forall p k v rest,
     main ("set" :: p :: k :: v :: rest)
     = RunSetNonInteractive p k (Str.join " " (v :: rest))) /\
  (forall rest, (length rest < 3)%nat -> main ("set" :: rest) = RunSetInteractive).
Proof.
  split; [|split; [|split]].
  - intros name key. unfold main. destruct argv as [|cmd args]; [done|].
    repeat (match goal with
            | |- context [if String.eqb cmd ?s then _ else _] =>
                destruct (String.eqb_spec cmd s) as [->|?]; [try done|]
            end).
    + destruct (4 <=? length ("set" :: args))%nat; done.
    + destruct args as [|a1 [|a2 rest]]; cbn; try done.
      * by destruct (String.eqb a1 "").
      * destruct (String.eqb_spec a1 "") as [->|?]; [done|].
        destruct (String.eqb_spec a2 "") as [->|?]; [done|].
        by intros [= <- <-].
    + by destruct (String.eqb cmd "help" || String.eqb cmd "-h"
                   || String.eqb cmd "--help").
  - intros name. cbn. by destruct (String.eqb name "").
  - intros p k v rest. reflexivity.
  - intros rest Hlen. unfold main.
    cbn [String.eqb Ascii.eqb Bool.eqb].
    destruct rest as [|a [|b [|d rest]]]; cbn in *; try done. lia.
Qed.

Lemma main_routes_set_and_del_witness :
  main ["set"; "dev"; "MOTD"; "hello"; "big"; "world"]
    = RunSetNonInteractive "dev" "MOTD" "hello big world" /\
  main ["set"; "dev"; "MOTD"] = RunSetInteractive.
Proof.
  destruct (main_routes_set_and_del []) as (_ & _ & H3 & H4).
  split.
  - apply (H3 "dev" "MOTD" "hello" ["big"; "world"]).
  - apply (H4 ["dev"; "MOTD"]). simpl. lia.
Defined.
